(** * ModGov client and council matcher: a shallow embedding

    The development follows the two TypeScript classes of the repository:
    [CouncilMatcher] (council-matcher.ts) and [ModgovClient]
    (modgov-client.ts).  JavaScript strings are modelled as [string]: a
    character stands for a UTF-16 code unit below 256, so that the
    strings covered are those of the Latin-1 range, on which
    [toLowerCase] and the white-space class are the JavaScript ones.
    JavaScript numbers used as scores are modelled as exact rationals
    [Q], millisecond time stamps as [Z], the [Map] of the rate limiter as
    a [gmap], and the dynamically typed values produced by the XML parser
    as an inductive type of JavaScript values. *)

From Stdlib Require Import String Ascii List ZArith QArith Lia Bool.
From Stdlib Require Import DecimalString Sorted Lqa.
From stdpp Require Import gmap strings.
Import ListNotations.

Local Open Scope string_scope.
Local Set Warnings "-register-all".

(** ** JavaScript string primitives used by the source *)

Module JsString.

(** The class matched by [\s] and removed by [trim], below 256: tab,
    line feed, vertical tab, form feed, carriage return, space and the
    no-break space U+00A0. *)
Definition isWhiteSpace (c : ascii) : bool :=
  let n := nat_of_ascii c in
  Nat.eqb n 9 || Nat.eqb n 10 || Nat.eqb n 11 || Nat.eqb n 12
  || Nat.eqb n 13 || Nat.eqb n 32 || Nat.eqb n 160.

(** The lower-case mapping below 256: [A] to [Z], and U+00C0 to U+00DE
    except the multiplication sign U+00D7, move up by 32. *)
Definition lowerChar (c : ascii) : ascii :=
  let n := nat_of_ascii c in
  if Nat.leb 65 n && Nat.leb n 90 then ascii_of_nat (n + 32)
  else if Nat.leb 192 n && Nat.leb n 222 && negb (Nat.eqb n 215)
  then ascii_of_nat (n + 32)
  else c.

(** [s.toLowerCase()] *)
Fixpoint toLowerCase (s : string) : string :=
  match s with
  | EmptyString => EmptyString
  | String c s' => String (lowerChar c) (toLowerCase s')
  end.

(** [s.startsWith(p)] *)
Definition startsWith (s p : string) : bool := String.prefix p s.

(** [s.includes(sub)] *)
Fixpoint includes (s sub : string) : bool :=
  String.prefix sub s ||
  match s with
  | EmptyString => false
  | String _ s' => includes s' sub
  end.

(** [s.endsWith(suf)] *)
Fixpoint endsWith (s suf : string) : bool :=
  String.eqb s suf ||
  match s with
  | EmptyString => false
  | String _ s' => endsWith s' suf
  end.

Fixpoint drop (n : nat) (s : string) : string :=
  match n, s with
  | S n', String _ s' => drop n' s'
  | _, _ => s
  end.

(** [s.replace(pat, rep)] with a string pattern: only the first
    occurrence is replaced. *)
Fixpoint replace (s pat rep : string) : string :=
  if String.prefix pat s then rep ++ drop (String.length pat) s
  else match s with
       | EmptyString => EmptyString
       | String c s' => String c (replace s' pat rep)
       end.

(** [s.split(sep)] for a non-empty separator [sep].  [skip] counts the
    characters of a separator occurrence still to be passed over and [cur]
    is the piece being accumulated. *)
Fixpoint split_go (sep s : string) (skip : nat) (cur : string)
  : list string :=
  match s with
  | EmptyString => [cur]
  | String c s' =>
      match skip with
      | S k => split_go sep s' k cur
      | O =>
          if String.prefix sep s
          then cur :: split_go sep s' (String.length sep - 1) EmptyString
          else split_go sep s' O (cur ++ String c EmptyString)
      end
  end.

Definition split (s sep : string) : list string :=
  split_go sep s O EmptyString.

(** [s.split(/\s+/)]: the pieces between maximal runs of white space. *)
Fixpoint splitWs_go (s : string) (inWs : bool) (cur : string)
  : list string :=
  match s with
  | EmptyString => [cur]
  | String c s' =>
      if isWhiteSpace c
      then (if inWs then splitWs_go s' true cur
            else cur :: splitWs_go s' true EmptyString)
      else splitWs_go s' false (cur ++ String c EmptyString)
  end.

Definition splitWs (s : string) : list string :=
  splitWs_go s false EmptyString.

Fixpoint trimStart (s : string) : string :=
  match s with
  | EmptyString => EmptyString
  | String c s' => if isWhiteSpace c then trimStart s' else s
  end.

Fixpoint trimEnd (s : string) : string :=
  match s with
  | EmptyString => EmptyString
  | String c s' =>
      let t := trimEnd s' in
      if String.eqb t EmptyString && isWhiteSpace c
      then EmptyString else String c t
  end.

(** [s.trim()] *)
Definition trim (s : string) : string := trimEnd (trimStart s).

(** [s.substring(0, n)] *)
Definition substring0 (n : nat) (s : string) : string :=
  String.substring 0 n s.

(** A string is truthy when it is not empty. *)
Definition truthy (s : string) : bool := negb (String.eqb s EmptyString).

(** The regular-expression replacement [s.replace(/\/$/, '')]. *)
Fixpoint stripTrailingSlash (s : string) : string :=
  match s with
  | EmptyString => EmptyString
  | String c s' =>
      if String.eqb s "/" then EmptyString
      else String c (stripTrailingSlash s')
  end.

(** [s.replace(/\/democracy\/?$/, '')]: the left-most position at which
    the rest of the string is [/democracy] or [/democracy/]. *)
Fixpoint stripDemocracySuffix (s : string) : string :=
  if String.eqb s "/democracy" || String.eqb s "/democracy/"
  then EmptyString
  else match s with
       | EmptyString => EmptyString
       | String c s' => String c (stripDemocracySuffix s')
       end.

(** [s.replace(/^https?:\/\//, '')] *)
Definition stripHttpPrefix (s : string) : string :=
  if String.prefix "http://" s then drop 7 s
  else if String.prefix "https://" s then drop 8 s
  else s.

End JsString.

(** ** JavaScript values, exceptions and property access *)

Module Js.

(** The values handled by the client: the result of the XML parser (with
    [explicitArray: false] an element is a string, an object of its
    children, or an array when a child is repeated), the normalized
    records and the request parameters. *)
Inductive jsval :=
| JUndefined
| JNull
| JBool (b : bool)
| JNum (n : Z)
| JStr (s : string)
| JArr (items : list jsval)
| JObj (fields : list (string * jsval)).

(** A computation either returns or throws an [Error] with a message. *)
Inductive result (A : Type) :=
| Ok (a : A)
| Throw (message : string).
Arguments Ok {A} a.
Arguments Throw {A} message.

Definition bind {A B} (r : result A) (k : A -> result B) : result B :=
  match r with
  | Ok a => k a
  | Throw m => Throw m
  end.

Notation "'do' x <- r ; k" := (bind r (fun x => k))
  (at level 10, x name, r at level 100, k at level 200).

(** [try { r } catch (error) { throw new Error(message) }] *)
Definition tryCatch {A} (r : result A) (message : string) : result A :=
  match r with
  | Ok a => Ok a
  | Throw _ => Throw message
  end.

Fixpoint mapM {A B} (f : A -> result B) (l : list A) : result (list B) :=
  match l with
  | [] => Ok []
  | x :: l' => do y <- f x; do ys <- mapM f l'; Ok (y :: ys)
  end.

Definition truthy (v : jsval) : bool :=
  match v with
  | JUndefined | JNull => false
  | JBool b => b
  | JNum n => negb (Z.eqb n 0)
  | JStr s => JsString.truthy s
  | JArr _ | JObj _ => true
  end.

(** [a || b] *)
Definition or (a b : jsval) : jsval := if truthy a then a else b.

Fixpoint lookupField (k : string) (fields : list (string * jsval))
  : jsval :=
  match fields with
  | [] => JUndefined
  | (k', v) :: rest => if String.eqb k k' then v else lookupField k rest
  end.

(** [v.k]: a [TypeError] on [undefined] and [null]; the property names
    read by the source are no properties of the string, array, number or
    object prototypes, so that only own fields of objects are found. *)
Definition get (v : jsval) (k : string) : result jsval :=
  match v with
  | JUndefined | JNull =>
      Throw ("Cannot read properties of undefined (reading '" ++ k ++ "')")
  | JObj fields => Ok (lookupField k fields)
  | _ => Ok JUndefined
  end.

(** [v?.k] *)
Definition getOpt (v : jsval) (k : string) : result jsval :=
  match v with
  | JUndefined | JNull => Ok JUndefined
  | _ => get v k
  end.

(** [Array.isArray(v) ? v : [v]] *)
Definition asArray (v : jsval) : list jsval :=
  match v with
  | JArr items => items
  | _ => [v]
  end.

Definition isArray (v : jsval) : bool :=
  match v with
  | JArr _ => true
  | _ => false
  end.

(** [params.k = v] on an object: the field is overwritten in place or
    added after the existing ones. *)
Fixpoint setField (k : string) (v : jsval) (fields : list (string * jsval))
  : list (string * jsval) :=
  match fields with
  | [] => [(k, v)]
  | (k', v') :: rest =>
      if String.eqb k k' then (k, v) :: rest
      else (k', v') :: setField k v rest
  end.

(** A value that is neither [undefined] nor [null]. *)
Definition isDefined (v : jsval) : bool :=
  match v with
  | JUndefined | JNull => false
  | _ => true
  end.

(** The names of the members that a plain object inherits from
    [Object.prototype]: read from an object without an own field of that
    name, each of them is a function or, for [__proto__], an object. *)
Definition inheritedNames : list string :=
  ["constructor"; "toString"; "toLocaleString"; "valueOf";
   "hasOwnProperty"; "isPrototypeOf"; "propertyIsEnumerable";
   "__proto__"; "__defineGetter__"; "__defineSetter__";
   "__lookupGetter__"; "__lookupSetter__"].

Definition inherited (k : string) : bool :=
  existsb (String.eqb k) inheritedNames.

(** Whether [k] names one of the own fields of an object. *)
Fixpoint hasOwnField (k : string) (fields : list (string * jsval))
  : bool :=
  match fields with
  | [] => false
  | (k', _) :: rest => String.eqb k k' || hasOwnField k rest
  end.

(** [params[k] === undefined || params[k] === null] for a name [k] that
    is computed: an own field is read when there is one, and otherwise
    the member inherited from [Object.prototype], if [k] names one. *)
Definition missingMember (k : string) (params : list (string * jsval))
  : bool :=
  if hasOwnField k params then negb (isDefined (lookupField k params))
  else negb (inherited k).

End Js.

(** ** council-matcher.ts *)

Module CouncilMatcher.
Import JsString Js.

Record CouncilInfo := {
  council : string;
  url : string;
  region : string;
  type : string
}.

Inductive Confidence := exact | high | medium | low.

Record CouncilMatch := {
  match_council : CouncilInfo;
  score : Q;
  confidence : Confidence
}.

(** [Math.max] on the two numbers it is applied to. *)
Definition Math_max (a b : Q) : Q := if Qle_bool a b then b else a.

Definition ofNat (n : nat) : Q := inject_Z (Z.of_nat n).

(** The nested loops of [calculateSimilarity]: a query word counts once
    as soon as one council word equals it, contains it or is contained
    in it. *)
Definition wordMatches (queryWords councilWords : list string) : nat :=
  fold_left
    (fun n queryWord =>
       if existsb (fun councilWord =>
                     String.eqb queryWord councilWord
                     || includes councilWord queryWord
                     || includes queryWord councilWord) councilWords
       then S n else n)
    queryWords O.

(** [getConfidence] *)
Definition getConfidence (score : Q) : Confidence :=
  if Qle_bool 0.95 score then exact
  else if Qle_bool 0.8 score then high
  else if Qle_bool 0.6 score then medium
  else low.

(** The object literal [{ council, score, confidence:
    this.getConfidence(score) }] of both search loops. *)
Definition mkMatch (c : CouncilInfo) (s : Q) : CouncilMatch :=
  {| match_council := c; score := s; confidence := getConfidence s |}.

(** The stable sort of [Array.prototype.sort] for a comparator [cmp]:
    an element stays in front of a later one unless [cmp] is positive. *)
Section Sort.
Context {A : Type} (cmp : A -> A -> Q).

Fixpoint insert (x : A) (l : list A) : list A :=
  match l with
  | [] => [x]
  | y :: l' => if Qle_bool (cmp x y) 0 then x :: l else y :: insert x l'
  end.

Definition sort (l : list A) : list A := fold_right insert [] l.
End Sort.

Section Matcher.
(** [levenshtein] is the binding that line 1 imports by name from the
    package fast-levenshtein, and [councils] the list of
    data/councils.json: both are parameters here.  A name that the
    package does not export is imported as [undefined], which is [None]
    here; the package exports the one function [get], so that the
    binding of the source as it stands is [None]. *)
Variable levenshtein : option (string -> string -> nat).
Variable councils : list CouncilInfo.

(** The call [levenshtein(a, b)]: calling [undefined] throws a
    [TypeError].  The wording of its message depends on how the module
    is compiled; one wording is fixed here. *)
Definition callLevenshtein (a b : string) : result nat :=
  match levenshtein with
  | Some distance => Ok (distance a b)
  | None => Throw "levenshtein is not a function"
  end.

(** [calculateSimilarity] *)
Definition calculateSimilarity (query councilName : string) : result Q :=
  let queryLower := toLowerCase query in
  let councilLower := toLowerCase councilName in
  if String.eqb queryLower councilLower then Ok 1.0%Q
  else if includes councilLower queryLower
          || includes queryLower councilLower then Ok 0.9%Q
  else
    let queryWords := splitWs queryLower in
    let councilWords := splitWs councilLower in
    let wordMatchRatio :=
      (ofNat (wordMatches queryWords councilWords)
       / ofNat (Nat.max (List.length queryWords)
                        (List.length councilWords)))%Q in
    let maxLength :=
      Nat.max (String.length queryLower) (String.length councilLower) in
    do distance <- callLevenshtein queryLower councilLower;
    let levenshteinScore := (1 - (ofNat distance / ofNat maxLength))%Q in
    Ok (Math_max wordMatchRatio levenshteinScore).

(** The loop of [findBestMatch] over the councils still to visit;
    [score > bestMatch.score] is the negation of [score <=
    bestMatch.score]. *)
Fixpoint bestAmong (query : string) (rest : list CouncilInfo)
  (bestMatch : option CouncilMatch) : result (option CouncilMatch) :=
  match rest with
  | [] => Ok bestMatch
  | c :: rest' =>
      do s <- calculateSimilarity query (council c);
      bestAmong query rest'
        (match bestMatch with
         | None => Some (mkMatch c s)
         | Some b => if Qle_bool s (score b) then bestMatch
                     else Some (mkMatch c s)
         end)
  end.

(** [findBestMatch]; [None] is [null]. *)
Definition findBestMatch (query : string) : result (option CouncilMatch) :=
  if negb (JsString.truthy query) || Nat.eqb (String.length (trim query)) 0
  then Ok None
  else bestAmong query councils None.

(** The loop of [findMatches] over the councils still to visit;
    [reaches] is the test [score >= minScore]. *)
Fixpoint matchesAmong (query : string) (reaches : Q -> bool)
  (rest : list CouncilInfo) (matches : list CouncilMatch)
  : result (list CouncilMatch) :=
  match rest with
  | [] => Ok matches
  | c :: rest' =>
      do s <- calculateSimilarity query (council c);
      matchesAmong query reaches rest'
        (if reaches s then (matches ++ [mkMatch c s])%list else matches)
  end.

(** The body of [findMatches] for a test [reaches] standing for [score
    >= minScore]. *)
Definition findMatchesWhere (reaches : Q -> bool) (query : string)
  : result (list CouncilMatch) :=
  if negb (JsString.truthy query) || Nat.eqb (String.length (trim query)) 0
  then Ok []
  else
    do matches <- matchesAmong query reaches councils [];
    Ok (sort (fun a b => (score b - score a)%Q) matches).

(** [findMatches] for a minimum score that is a number. *)
Definition findMatches (query : string) (minScore : Q)
  : result (list CouncilMatch) :=
  findMatchesWhere (Qle_bool minScore) query.

(** [findByRegion] *)
Definition findByRegion (region : string) : list CouncilInfo :=
  let regionLower := toLowerCase region in
  List.filter
    (fun council =>
       includes (toLowerCase (CouncilMatcher.region council)) regionLower
       || includes regionLower (toLowerCase (CouncilMatcher.region council)))
    councils.

(** [findByType] *)
Definition findByType (type : string) : list CouncilInfo :=
  let typeLower := toLowerCase type in
  List.filter
    (fun council =>
       includes (toLowerCase (CouncilMatcher.type council)) typeLower
       || includes typeLower (toLowerCase (CouncilMatcher.type council)))
    councils.

(** [getAllCouncils] *)
Definition getAllCouncils : list CouncilInfo := councils.

(** [getCouncilCount] *)
Definition getCouncilCount : nat := List.length councils.

End Matcher.

End CouncilMatcher.

(** ** modgov-client.ts: the response normalizers *)

Module ModgovClient.
Import JsString Js.

Definition str (s : string) : jsval := JStr s.

(** The one-character string holding a double quote. *)
Definition dquote : string := String (ascii_of_nat 34) EmptyString.

(** [v.k || d] *)
Definition getOr (v : jsval) (k : string) (d : jsval) : result jsval :=
  do x <- get v k; Ok (or x d).

Section Normalizers.
(** [parseStringPromise] of the package xml2js, always called with the
    options [explicitArray: false, ignoreAttrs: true, trim: true]; a
    rejected promise is a [Throw]. *)
Variable parseStringPromise : string -> result jsval.

(** The object literal built for one ward. *)
Definition wardRecord (ward : jsval) : result jsval :=
  do wardtitle <- getOr ward "wardtitle" (str EmptyString);
  do councillors <- get ward "councillors";
  do count <- getOpt councillors "councillorcount";
  do councillor <- getOpt councillors "councillor";
  Ok (JObj
        [("wardtitle", wardtitle);
         ("councillors",
          JObj [("councillorcount", or count (str "0"));
                ("councillor",
                 if isArray councillor then councillor
                 else if truthy councillor then JArr [councillor]
                 else JArr [])])]).

Definition parseCouncillorsResponse (xmlData : string)
  : result (list jsval) :=
  tryCatch
    (do response <- parseStringPromise xmlData;
     do byward <- get response "councillorsbyward";
     do rootElement <-
        (if truthy byward then Ok byward
         else do bywardid <- get response "councillorsbywardid";
              if truthy bywardid then Ok bywardid
              else get response "councillorsbypostcode");
     if negb (truthy rootElement) then Ok []
     else
       do wards <- get rootElement "wards";
       if negb (truthy wards) then Ok []
       else
         do ward <- get wards "ward";
         if negb (truthy ward) then Ok []
         else mapM wardRecord (asArray ward))
    "Failed to parse API response".

Definition committeeRecord (committee : jsval) : result jsval :=
  do committeeid <- getOr committee "committeeid" (str EmptyString);
  do committeetitle <- getOr committee "committeetitle" (str EmptyString);
  do committeedescription <-
     getOr committee "committeedescription" (str EmptyString);
  do committeetype <- getOr committee "committeetype" (str EmptyString);
  Ok (JObj [("committeeid", committeeid);
            ("committeetitle", committeetitle);
            ("committeedescription", committeedescription);
            ("committeetype", committeetype)]).

Definition parseCommitteesResponse (xmlData : string)
  : result (list jsval) :=
  tryCatch
    (do response <- parseStringPromise xmlData;
     do committeesElement <- get response "committees";
     if negb (truthy committeesElement) then Ok []
     else
       do committee <- get committeesElement "committee";
       if negb (truthy committee) then Ok []
       else mapM committeeRecord (asArray committee))
    "Failed to parse committees response".

(** The meeting literal of the committee-nested shape: the committee
    fields come from the enclosing [committee] element. *)
Definition nestedMeetingRecord (committee meeting : jsval)
  : result jsval :=
  do meetingid <- getOr meeting "meetingid" (str EmptyString);
  do meetingtitle <- getOr meeting "meetingstatus" (str "Council Meeting");
  do meetingdate <- getOr meeting "meetingdate" (str EmptyString);
  do meetingtime <- getOr meeting "meetingtime" (str EmptyString);
  do committeeid <- getOr committee "committeeid" (str EmptyString);
  do committeetitle <- getOr committee "committeetitle" (str EmptyString);
  Ok (JObj [("meetingid", meetingid);
            ("meetingtitle", meetingtitle);
            ("meetingdate", meetingdate);
            ("meetingtime", meetingtime);
            ("meetinglocation", str EmptyString);
            ("committeeid", committeeid);
            ("committeetitle", committeetitle)]).

(** The meeting literal of the flat by-date shape. *)
Definition flatMeetingRecord (meeting : jsval) : result jsval :=
  do meetingid <- getOr meeting "meetingid" (str EmptyString);
  do meetingtitle <- getOr meeting "meetingstatus" (str "Council Meeting");
  do meetingdate <- getOr meeting "meetingdate" (str EmptyString);
  do meetingtime <- getOr meeting "meetingtime" (str EmptyString);
  do committeeid <- getOr meeting "committeeid" (str EmptyString);
  do committeetitle <- getOr meeting "committeetitle" (str EmptyString);
  Ok (JObj [("meetingid", meetingid);
            ("meetingtitle", meetingtitle);
            ("meetingdate", meetingdate);
            ("meetingtime", meetingtime);
            ("meetinglocation", str EmptyString);
            ("committeeid", committeeid);
            ("committeetitle", committeetitle)]).

Definition emptyResponseMessage : string :=
  "Server returned empty response. This usually indicates a server-side bug or missing parameters.".

Definition nonXmlMessage (xmlString : string) : string :=
  "Server returned non-XML response: " ++ dquote
  ++ substring0 100 xmlString ++ "..." ++ dquote
  ++ ". Expected XML data but got different format. This usually indicates a server-side bug or missing parameters.".

Definition htmlErrorMessage (xmlString : string) : string :=
  "Server returned HTML error page instead of XML data. This usually indicates a server-side bug or missing parameters. Response preview: "
  ++ substring0 200 xmlString ++ "...".

(** The three checks made on the body before it is parsed, with the
    message of the error each one throws. *)
Definition rejectMeetingsBody (xmlString : string) : option string :=
  if negb (JsString.truthy xmlString)
     || String.eqb (trim xmlString) EmptyString
  then Some emptyResponseMessage
  else if negb (startsWith (trim xmlString) "<?xml")
          && negb (startsWith (trim xmlString) "<")
  then Some (nonXmlMessage xmlString)
  else if startsWith (trim xmlString) "<!DOCTYPE"
          || startsWith (trim xmlString) "<html"
          || startsWith (trim xmlString) "<HTML"
          || includes xmlString "<title>" && includes xmlString "Error"
  then Some (htmlErrorMessage xmlString)
  else None.

(** Structure 2: [getmeetingsbydate], and the final [return []]. *)
Definition parseByDateShape (response : jsval) : result (list jsval) :=
  do getmeetingsbydate <- get response "getmeetingsbydate";
  if truthy getmeetingsbydate then
    do meetingsContainer <- get getmeetingsbydate "meetings";
    if truthy meetingsContainer then
      do meeting <- get meetingsContainer "meeting";
      if negb (truthy meeting) then Ok []
      else mapM flatMeetingRecord (asArray meeting)
    else Ok []
  else Ok [].

(** Structure 1: [getmeetings], committee-nested (1a) or count-only
    (1b); otherwise control falls through to structure 2. *)
Definition parseMeetingShapes (response : jsval) : result (list jsval) :=
  do getmeetings <- get response "getmeetings";
  if truthy getmeetings then
    do committee <- get getmeetings "committee";
    if truthy committee then
      do committeeMeetings <- get committee "committeemeetings";
      if negb (truthy committeeMeetings) then Ok []
      else
        do meeting <- get committeeMeetings "meeting";
        if negb (truthy meeting) then Ok []
        else mapM (nestedMeetingRecord committee) (asArray meeting)
    else
      do meetingscount <- get getmeetings "meetingscount";
      match meetingscount with
      | JUndefined => parseByDateShape response
      | _ => Ok []
      end
  else parseByDateShape response.

(** [parseMeetingsResponse] on a string body. *)
Definition parseMeetingsResponse (xmlString : string)
  : result (list jsval) :=
  tryCatch
    (match rejectMeetingsBody xmlString with
     | Some message => Throw message
     | None =>
         do response <- parseStringPromise xmlString;
         parseMeetingShapes response
     end)
    "Failed to parse meetings response".

Definition eventRecord (event : jsval) : result jsval :=
  do eventid <- getOr event "eventid" (str EmptyString);
  do eventtitle <- getOr event "eventtitle" (str EmptyString);
  do eventdate <- getOr event "eventdate" (str EmptyString);
  do eventdescription <- getOr event "eventdescription" (str EmptyString);
  do eventlocation <- getOr event "eventlocation" (str EmptyString);
  Ok (JObj [("eventid", eventid);
            ("eventtitle", eventtitle);
            ("eventdate", eventdate);
            ("eventdescription", eventdescription);
            ("eventlocation", eventlocation)]).

Definition parseCalendarEventsResponse (xmlData : string)
  : result (list jsval) :=
  tryCatch
    (do response <- parseStringPromise xmlData;
     do eventsElement <- get response "calendarevents";
     if negb (truthy eventsElement) then Ok []
     else
       do event <- get eventsElement "event";
       if negb (truthy event) then Ok []
       else mapM eventRecord (asArray event))
    "Failed to parse calendar events response".

Definition parishCouncilRecord (council : jsval) : result jsval :=
  do parishcouncilid <- getOr council "parishcouncilid" (str EmptyString);
  do parishcounciltitle <-
     getOr council "parishcounciltitle" (str EmptyString);
  do parishcouncilwebsite <-
     getOr council "parishcouncilwebsite" (str EmptyString);
  do parishcouncilcontact <-
     getOr council "parishcouncilcontact" (str EmptyString);
  Ok (JObj [("parishcouncilid", parishcouncilid);
            ("parishcounciltitle", parishcounciltitle);
            ("parishcouncilwebsite", parishcouncilwebsite);
            ("parishcouncilcontact", parishcouncilcontact)]).

Definition parseParishCouncilsResponse (xmlData : string)
  : result (list jsval) :=
  tryCatch
    (do response <- parseStringPromise xmlData;
     do councilsElement <- get response "parishcouncils";
     if negb (truthy councilsElement) then Ok []
     else
       do parishcouncil <- get councilsElement "parishcouncil";
       if negb (truthy parishcouncil) then Ok []
       else mapM parishCouncilRecord (asArray parishcouncil))
    "Failed to parse parish councils response".

Definition electionResultRecord (result : jsval) : Js.result jsval :=
  do electionid <- getOr result "electionid" (str EmptyString);
  do electiontitle <- getOr result "electiontitle" (str EmptyString);
  do electiondate <- getOr result "electiondate" (str EmptyString);
  do results <- getOr result "results" (JArr []);
  Ok (JObj [("electionid", electionid);
            ("electiontitle", electiontitle);
            ("electiondate", electiondate);
            ("results", results)]).

Definition parseElectionResultsResponse (xmlData : string)
  : result (list jsval) :=
  tryCatch
    (do response <- parseStringPromise xmlData;
     do resultsElement <- get response "electionresults";
     if negb (truthy resultsElement) then Ok []
     else
       do electionresult <- get resultsElement "electionresult";
       if negb (truthy electionresult) then Ok []
       else mapM electionResultRecord (asArray electionresult))
    "Failed to parse election results response".

(** The webcast literal built from a [webcastmeeting] element. *)
Definition webcastRecord (meeting : jsval) : result jsval :=
  do meetingid <- getOr meeting "meetingid" (str EmptyString);
  do meetingtitle <- getOr meeting "meetingtitle" (str EmptyString);
  do webcasturl <- getOr meeting "webcasturl" (str EmptyString);
  do meetingdate <- getOr meeting "meetingdate" (str EmptyString);
  Ok (JObj [("meetingid", meetingid);
            ("meetingtitle", meetingtitle);
            ("webcasturl", webcasturl);
            ("meetingdate", meetingdate)]).

(** The webcast literal built from a regular [meeting] element. *)
Definition webcastOfMeeting (meeting : jsval) : result jsval :=
  do meetingid <- getOr meeting "id" (str EmptyString);
  do meetingtitle <- getOr meeting "title" (str EmptyString);
  do webcasturl <- getOr meeting "webcasturl" (str EmptyString);
  do meetingdate <- getOr meeting "date" (str EmptyString);
  Ok (JObj [("meetingid", meetingid);
            ("meetingtitle", meetingtitle);
            ("webcasturl", webcasturl);
            ("meetingdate", meetingdate)]).

(** The [forEach] that gathers the meetings of every committee. *)
Fixpoint allMeetings (committees : list jsval) : result (list jsval) :=
  match committees with
  | [] => Ok []
  | committee :: rest =>
      do meeting <- get committee "meeting";
      do others <- allMeetings rest;
      Ok ((if truthy meeting then asArray meeting else []) ++ others)%list
  end.

Definition parseWebCastMeetingsResponse (xmlData : string)
  : result (list jsval) :=
  tryCatch
    (do response <- parseStringPromise xmlData;
     do meetingsElement <- get response "webcastmeetings";
     if truthy meetingsElement then
       do webcastmeeting <- get meetingsElement "webcastmeeting";
       if negb (truthy webcastmeeting) then Ok []
       else mapM webcastRecord (asArray webcastmeeting)
     else
       do getmeetings <- get response "getmeetings";
       do committee <- getOpt getmeetings "committee";
       if truthy getmeetings && truthy committee then
         do meetings <- allMeetings (asArray committee);
         mapM webcastOfMeeting meetings
       else Ok [])
    "Failed to parse webcast meetings response".

Definition mpRecord (mp : jsval) : result jsval :=
  do mpid <- getOr mp "mpid" (str EmptyString);
  do mpname <- getOr mp "fullusername" (str EmptyString);
  do constituency <- getOr mp "constituency" (str EmptyString);
  do party <- getOr mp "politicalpartytitle" (str EmptyString);
  do wards <- getOr mp "wards" (JArr []);
  Ok (JObj [("mpid", mpid);
            ("mpname", mpname);
            ("constituency", constituency);
            ("party", party);
            ("wards", wards)]).

Definition parseMpOrMepsAndWardsResponse (xmlData : string)
  : result (list jsval) :=
  tryCatch
    (do response <- parseStringPromise xmlData;
     do mpsElement <- get response "mpswards";
     if negb (truthy mpsElement) then Ok []
     else
       do mps <- get mpsElement "mps";
       if negb (truthy mps) then Ok []
       else
         do mp <- get mps "mp";
         if negb (truthy mp) then Ok []
         else mapM mpRecord (asArray mp))
    "Failed to parse MP/MEP response".

End Normalizers.

(** *** The endpoint resolver *)

(** [getEndpointUrl] *)
Definition getEndpointUrl (siteUrl operation : string) : string :=
  let baseUrl := stripTrailingSlash (replace siteUrl "?WSDL" EmptyString) in
  let webServiceUrl :=
    if negb (includes baseUrl "/mgWebService.asmx") then
      if endsWith baseUrl "/democracy" || endsWith baseUrl "/democracy/"
      then stripDemocracySuffix baseUrl ++ "/democracy/mgWebService.asmx"
      else if negb (includes baseUrl "/mgWebService.asmx") then
        let urlParts := split baseUrl "://" in
        if Nat.eqb (List.length urlParts) 2 then
          let domain :=
            nth 0 (split (nth 1 urlParts EmptyString) "/") EmptyString in
          "https://" ++ domain ++ "/mgWebService.asmx"
        else "https://" ++ stripHttpPrefix baseUrl ++ "/mgWebService.asmx"
      else baseUrl
    else baseUrl in
  webServiceUrl ++ "/" ++ operation.

(** *** The rate limiter and the requests *)

(** The components of a parsed [URL] object that the client and the
    notion of origin use. *)
Record URL := {
  protocol : string;
  hostname : string;
  port : string
}.

(** The origin of a URL: scheme, host and port. *)
Definition origin (u : URL) : string * string * string :=
  (protocol u, hostname u, port u).

Record Request := {
  endpoint : string;
  params : list (string * jsval)
}.

Record Response := {
  status : Z;
  data : string
}.

(** The state a call runs in: the wall clock in milliseconds, the
    [rateLimiter] map of the client, and the requests sent so far. *)
Record World := {
  clock : Z;
  rateLimiter : gmap string Z;
  outbox : list Request
}.

Definition rateLimitMs : Z := 1000.

(** [await new Promise(resolve => setTimeout(resolve, waitTime))]: the
    timer fires [lateness] milliseconds after its delay has elapsed. *)
Definition sleep (waitTime lateness : Z) (w : World) : World :=
  {| clock := clock w + waitTime + lateness;
     rateLimiter := rateLimiter w;
     outbox := outbox w |}.

(** The body of [checkRateLimit] once the host name is known. *)
Definition awaitTurn (domain : string) (lateness : Z) (w : World)
  : World :=
  let now := clock w in
  let lastRequest := default 0%Z (rateLimiter w !! domain) in
  let w' :=
    if (now - lastRequest <? rateLimitMs)%Z
    then sleep (rateLimitMs - (now - lastRequest)) lateness w
    else w in
  {| clock := clock w';
     rateLimiter := <[domain := clock w']> (rateLimiter w');
     outbox := outbox w' |}.

Definition numberToString (n : Z) : string :=
  NilZero.string_of_int (Z.to_int n).

(** [fromDate && toDate] on two optional strings. *)
Definition bothGiven (fromDate toDate : option string) : bool :=
  match fromDate, toDate with
  | Some f, Some t => JsString.truthy f && JsString.truthy t
  | _, _ => false
  end.

(** The [params] object that [getMeetings] builds. *)
Definition getMeetingsParams (currentYear committeeId : Z)
  (fromDate toDate : option string) : list (string * jsval) :=
  let params := [("lCommitteeId", JNum committeeId)] in
  if bothGiven fromDate toDate then
    setField "sToDate" (str (default EmptyString toDate))
      (setField "sFromDate" (str (default EmptyString fromDate)) params)
  else
    setField "sToDate" (str (numberToString currentYear ++ "-12-31"))
      (setField "sFromDate" (str (numberToString currentYear ++ "-01-01"))
         params).

(** The [params] object that [getWebCastMeetings] builds. *)
Definition getWebCastMeetingsParams (currentYear committeeId : Z)
  (fromDate toDate : option string) : list (string * jsval) :=
  let params := [("lCommitteeId", JNum committeeId)] in
  if bothGiven fromDate toDate then
    setField "sToDate" (str (default EmptyString toDate))
      (setField "sFromDate" (str (default EmptyString fromDate)) params)
  else
    setField "sToDate" (str (numberToString currentYear ++ "-12-31"))
      (setField "sFromDate" (str (numberToString currentYear ++ "-01-01"))
         params).

(** The [params] object that [getAllMeetingsByDate] builds; an argument
    left out is [None]. *)
Definition getAllMeetingsByDateParams (currentYear : Z) (date : string)
  (committeeId : option Z) (fromDate toDate : option string)
  (ascendingOrder : option bool) : list (string * jsval) :=
  let params :=
    [("bIsAscendingDateOrder", JBool (default true ascendingOrder))] in
  let params :=
    match committeeId with
    | Some id => setField "lCommitteeId" (JNum id) params
    | None => setField "lCommitteeId" (JNum 138) params
    end in
  if bothGiven fromDate toDate then
    setField "sToDate" (str (default EmptyString toDate))
      (setField "sFromDate" (str (default EmptyString fromDate)) params)
  else if JsString.truthy date then
    setField "sToDate" (str date) (setField "sFromDate" (str date) params)
  else
    setField "sToDate" (str (numberToString currentYear ++ "-12-31"))
      (setField "sFromDate" (str (numberToString currentYear ++ "-01-01"))
         params).

(** The [params] object that [getCalendarEvents] builds, with the
    default values of its parameters [globalCalendar] and [userId]. *)
Definition getCalendarEventsParams (currentYear : Z)
  (globalCalendar : option bool) (userId : option Z)
  (dateStart dateEnd : option string) : list (string * jsval) :=
  let params :=
    [("bGlobalCalendar", JBool (default true globalCalendar));
     ("lUserId", JNum (default 0%Z userId))] in
  if bothGiven dateStart dateEnd then
    setField "sDateEnd" (str (default EmptyString dateEnd))
      (setField "sDateStart" (str (default EmptyString dateStart)) params)
  else
    setField "sDateEnd" (str (numberToString currentYear ++ "-12-31"))
      (setField "sDateStart"
         (str (numberToString currentYear ++ "-01-01")) params).

(** [validateParameters]: the first required parameter that is
    [undefined] or [null] in [params] is reported. *)
Fixpoint validateParameters (params : list (string * jsval))
  (required : list string) : result unit :=
  match required with
  | [] => Ok tt
  | param :: rest =>
      if missingMember param params
      then Throw ("Missing required parameter: " ++ param)
      else validateParameters params rest
  end.

Section Client.
(** The platform and the network: the [URL] constructor ([None] when it
    throws), the calendar year of a time stamp in the local time zone,
    the XML parser, and the answer of the server to a request. *)
Variable newURL : string -> option URL.
Variable getFullYear : Z -> Z.
Variable parseStringPromise : string -> result jsval.
Variable server : Request -> result Response.

(** [validateUrl] *)
Definition validateUrl (url : string) : result unit :=
  match newURL url with
  | Some _ => Ok tt
  | None => Throw ("Invalid URL format: " ++ url)
  end.

(** [validateParameters] for one required parameter. *)
Definition validateParameter {A} (name : string) (value : option A)
  : result A :=
  match value with
  | Some a => Ok a
  | None => Throw ("Missing required parameter: " ++ name)
  end.

(** [checkRateLimit] *)
Definition checkRateLimit (siteUrl : string) (lateness : Z) (w : World)
  : result World :=
  match newURL siteUrl with
  | Some u => Ok (awaitTurn (hostname u) lateness w)
  | None => Throw "Invalid URL"
  end.

(** [axios.get(endpoint, { params })]: the request leaves and the
    server answers. *)
Definition axiosGet (endpoint : string) (params : list (string * jsval))
  (w : World) : result Response * World :=
  let request := {| endpoint := endpoint; params := params |} in
  (server request,
   {| clock := clock w;
      rateLimiter := rateLimiter w;
      outbox := (outbox w ++ [request])%list |}).

(** [handleApiResponse] *)
Definition handleApiResponse {T} (response : Response)
  (parser : string -> result T) : result T :=
  match
    (if negb (Z.eqb (status response) 0)
        && negb (Z.eqb (status response) 200)
     then Throw ("API request failed with status code "
                 ++ numberToString (status response))
     else if negb (JsString.truthy (data response))
     then Throw "No data received from API"
     else parser (data response))
  with
  | Ok a => Ok a
  | Throw message => Throw ("API parsing failed: " ++ message)
  end.

(** [getMeetings] *)
Definition getMeetings (siteUrl : string) (committeeId : option Z)
  (fromDate toDate : option string) (lateness : Z) (w : World)
  : result (list jsval) * World :=
  match validateUrl siteUrl with
  | Throw m => (Throw m, w)
  | Ok _ =>
  match validateParameter "committeeId" committeeId with
  | Throw m => (Throw m, w)
  | Ok committeeId =>
  match checkRateLimit siteUrl lateness w with
  | Throw m => (Throw m, w)
  | Ok w1 =>
      let endpoint := getEndpointUrl siteUrl "GetMeetings" in
      let params :=
        getMeetingsParams (getFullYear (clock w1)) committeeId
                          fromDate toDate in
      match axiosGet endpoint params w1 with
      | (Throw m, w2) => (Throw m, w2)
      | (Ok response, w2) =>
          (handleApiResponse response
             (parseMeetingsResponse parseStringPromise), w2)
      end
  end end end.

(** The steps every operation makes once its arguments are validated:
    [checkRateLimit], [getEndpointUrl], [axios.get] and
    [handleApiResponse].  The parameters are built after the rate
    limiter has let the call go. *)
Definition callApi {T} (siteUrl operation : string)
  (params : World -> list (string * jsval))
  (parser : string -> result T) (lateness : Z) (w : World)
  : result T * World :=
  match checkRateLimit siteUrl lateness w with
  | Throw m => (Throw m, w)
  | Ok w1 =>
      match axiosGet (getEndpointUrl siteUrl operation) (params w1) w1 with
      | (Throw m, w2) => (Throw m, w2)
      | (Ok response, w2) => (handleApiResponse response parser, w2)
      end
  end.

(** [getCouncillorsByWard] *)
Definition getCouncillorsByWard (siteUrl : string) (lateness : Z)
  (w : World) : result (list jsval) * World :=
  match validateUrl siteUrl with
  | Throw m => (Throw m, w)
  | Ok _ =>
      callApi siteUrl "GetCouncillorsByWard" (fun _ => [])
        (parseCouncillorsResponse parseStringPromise) lateness w
  end.

(** [getCouncillorsByWardId] *)
Definition getCouncillorsByWardId (siteUrl : string) (wardId : option Z)
  (lateness : Z) (w : World) : result (list jsval) * World :=
  match validateUrl siteUrl with
  | Throw m => (Throw m, w)
  | Ok _ =>
  match validateParameter "wardId" wardId with
  | Throw m => (Throw m, w)
  | Ok wardId =>
      callApi siteUrl "GetCouncillorsByWardId"
        (fun _ => [("lWardId", JNum wardId)])
        (parseCouncillorsResponse parseStringPromise) lateness w
  end end.

(** [getCouncillorsByPostcode] *)
Definition getCouncillorsByPostcode (siteUrl : string)
  (postcode : option string) (lateness : Z) (w : World)
  : result (list jsval) * World :=
  match validateUrl siteUrl with
  | Throw m => (Throw m, w)
  | Ok _ =>
  match validateParameter "postcode" postcode with
  | Throw m => (Throw m, w)
  | Ok postcode =>
      callApi siteUrl "GetCouncillorsByPostcode"
        (fun _ => [("sPostcode", JStr postcode)])
        (parseCouncillorsResponse parseStringPromise) lateness w
  end end.

(** [getCommittees] *)
Definition getCommittees (siteUrl : string) (lateness : Z) (w : World)
  : result (list jsval) * World :=
  match validateUrl siteUrl with
  | Throw m => (Throw m, w)
  | Ok _ =>
      callApi siteUrl "GetCommittees" (fun _ => [])
        (parseCommitteesResponse parseStringPromise) lateness w
  end.

(** [getMeeting]: the first of the meetings, or [null]. *)
Definition getMeeting (siteUrl : string) (meetingId : option Z)
  (lateness : Z) (w : World) : result jsval * World :=
  match validateUrl siteUrl with
  | Throw m => (Throw m, w)
  | Ok _ =>
  match validateParameter "meetingId" meetingId with
  | Throw m => (Throw m, w)
  | Ok meetingId =>
      match callApi siteUrl "GetMeeting"
              (fun _ => [("lMeetingId", JNum meetingId)])
              (parseMeetingsResponse parseStringPromise) lateness w with
      | (Throw m, w') => (Throw m, w')
      | (Ok meetings, w') => (Ok (hd JNull meetings), w')
      end
  end end.

(** [getAllMeetingsByDate] *)
Definition getAllMeetingsByDate (siteUrl date : string)
  (committeeId : option Z) (fromDate toDate : option string)
  (ascendingOrder : option bool) (lateness : Z) (w : World)
  : result (list jsval) * World :=
  match validateUrl siteUrl with
  | Throw m => (Throw m, w)
  | Ok _ =>
      callApi siteUrl "GetAllMeetingsByDate"
        (fun w1 =>
           getAllMeetingsByDateParams (getFullYear (clock w1)) date
             committeeId fromDate toDate ascendingOrder)
        (parseMeetingsResponse parseStringPromise) lateness w
  end.

(** [getCalendarEvents] *)
Definition getCalendarEvents (siteUrl : string)
  (globalCalendar : option bool) (userId : option Z)
  (dateStart dateEnd : option string) (lateness : Z) (w : World)
  : result (list jsval) * World :=
  match validateUrl siteUrl with
  | Throw m => (Throw m, w)
  | Ok _ =>
      callApi siteUrl "GetCalendarEvents"
        (fun w1 =>
           getCalendarEventsParams (getFullYear (clock w1))
             globalCalendar userId dateStart dateEnd)
        (parseCalendarEventsResponse parseStringPromise) lateness w
  end.

(** [getParishCouncils] *)
Definition getParishCouncils (siteUrl : string) (lateness : Z)
  (w : World) : result (list jsval) * World :=
  match validateUrl siteUrl with
  | Throw m => (Throw m, w)
  | Ok _ =>
      callApi siteUrl "GetParishCouncils" (fun _ => [])
        (parseParishCouncilsResponse parseStringPromise) lateness w
  end.

(** [getElectionResults] *)
Definition getElectionResults (siteUrl : string) (electionId : option Z)
  (lateness : Z) (w : World) : result (list jsval) * World :=
  match validateUrl siteUrl with
  | Throw m => (Throw m, w)
  | Ok _ =>
  match validateParameter "electionId" electionId with
  | Throw m => (Throw m, w)
  | Ok electionId =>
      callApi siteUrl "GetElectionResults"
        (fun _ => [("lElectionId", JNum electionId)])
        (parseElectionResultsResponse parseStringPromise) lateness w
  end end.

(** [getWebCastMeetings] *)
Definition getWebCastMeetings (siteUrl : string) (committeeId : option Z)
  (fromDate toDate : option string) (lateness : Z) (w : World)
  : result (list jsval) * World :=
  match validateUrl siteUrl with
  | Throw m => (Throw m, w)
  | Ok _ =>
  match validateParameter "committeeId" committeeId with
  | Throw m => (Throw m, w)
  | Ok committeeId =>
      callApi siteUrl "GetWebCastMeetings"
        (fun w1 =>
           getWebCastMeetingsParams (getFullYear (clock w1)) committeeId
             fromDate toDate)
        (parseWebCastMeetingsResponse parseStringPromise) lateness w
  end end.

(** [getMpOrMepsAndWards] *)
Definition getMpOrMepsAndWards (siteUrl : string) (isMPs : option bool)
  (lateness : Z) (w : World) : result (list jsval) * World :=
  match validateUrl siteUrl with
  | Throw m => (Throw m, w)
  | Ok _ =>
      callApi siteUrl "GetMpOrMepsAndWards"
        (fun _ => [("bIsMPs", JBool (default true isMPs))])
        (parseMpOrMepsAndWardsResponse parseStringPromise) lateness w
  end.

(** [getMpOrMepAndWardsByPostcode] *)
Definition getMpOrMepAndWardsByPostcode (siteUrl : string)
  (postcode : option string) (isMPs : option bool) (lateness : Z)
  (w : World) : result (list jsval) * World :=
  match validateUrl siteUrl with
  | Throw m => (Throw m, w)
  | Ok _ =>
  match validateParameter "postcode" postcode with
  | Throw m => (Throw m, w)
  | Ok postcode =>
      callApi siteUrl "GetMpOrMepAndWardsByPostcode"
        (fun _ => [("sPostcode", JStr postcode);
                   ("bIsMPs", JBool (default true isMPs))])
        (parseMpOrMepsAndWardsResponse parseStringPromise) lateness w
  end end.

End Client.
End ModgovClient.

(** ** index.ts: the search tool *)

Module ModGovMCP.
Import JsString Js CouncilMatcher.

(** The object [confidenceThresholds] of the [search_councils] tool. *)
Definition confidenceThresholds : list (string * Q) :=
  [("exact", 0.95%Q); ("high", 0.8%Q); ("medium", 0.6%Q); ("low", 0.3%Q)].

Fixpoint ownThreshold (k : string) (table : list (string * Q))
  : option Q :=
  match table with
  | [] => None
  | (k', q) :: rest => if String.eqb k k' then Some q else ownThreshold k rest
  end.

(** [confidenceThresholds[min_confidence] || 0.6]: [None] stands for the
    functions and the object inherited from [Object.prototype], which
    are truthy and are not numbers, and [min_confidence = None] for an
    argument left out. *)
Definition minScoreOf (min_confidence : option string) : option Q :=
  match min_confidence with
  | None => Some 0.6%Q
  | Some k =>
      match ownThreshold k confidenceThresholds with
      | Some q => Some q
      | None =>
          if inherited k then None else Some 0.6%Q
      end
  end.

Section Search.
Variable levenshtein : option (string -> string -> nat).
Variable councils : list CouncilInfo.

(** The [matches] of the [search_councils] tool: [findMatches] is called
    with the minimum looked up; against a minimum that is not a number
    the comparison [score >= minScore] never holds. *)
Definition searchCouncils (query : string) (min_confidence : option string)
  : result (list CouncilMatch) :=
  match minScoreOf min_confidence with
  | Some minScore => findMatches levenshtein councils query minScore
  | None => findMatchesWhere levenshtein councils (fun _ => false) query
  end.

End Search.
End ModGovMCP.

(** ** Definitions that follow the wording of the specification

    They are compared with the source-level definitions above. *)

Module Spec.
Import JsString Js ModgovClient.





(** The time a call of the rate limiter takes. *)
Definition delayOf (domain : string) (lateness : Z) (w : World) : Z :=
  clock (awaitTurn domain lateness w) - clock w.

Definition atTime (t : Z) (w : World) : World :=
  {| clock := t; rateLimiter := rateLimiter w; outbox := outbox w |}.

(** The rate limiter as the specification words it: a call for one
    origin takes the same time whether or not a call for a distinct
    origin was recorded before it. *)
Definition distinctOriginsIndependent : Prop :=
  forall (u1 u2 : URL) (l1 l2 : Z) (w : World),
    origin u1 <> origin u2 ->
    let w1 := awaitTurn (hostname u1) l1 w in
    delayOf (hostname u2) l2 w1 = delayOf (hostname u2) l2 (atTime (clock w1) w).

(** Non-throwing field access, used to describe shapes. *)
Definition field (v : jsval) (k : string) : jsval :=
  match v with
  | JObj fields => lookupField k fields
  | _ => JUndefined
  end.

(** A record has the key [k] with a value that is not [undefined]. *)
Definition hasField (v : jsval) (k : string) : bool :=
  isDefined (field v k).

Definition hasFields (keys : list string) (v : jsval) : bool :=
  forallb (hasField v) keys.

(** The keys of each kind of normalized record. *)
Definition wardFields : list string := ["wardtitle"; "councillors"].
Definition wardCouncillorsFields : list string :=
  ["councillorcount"; "councillor"].
Definition councillorFields : list string :=
  ["councillorid"; "fullusername"].
Definition committeeFields : list string :=
  ["committeeid"; "committeetitle"; "committeedescription";
   "committeetype"].
Definition meetingFields : list string :=
  ["meetingid"; "meetingtitle"; "meetingdate"; "meetingtime";
   "meetinglocation"; "committeeid"; "committeetitle"].
Definition eventFields : list string :=
  ["eventid"; "eventtitle"; "eventdate"; "eventdescription";
   "eventlocation"].
Definition parishCouncilFields : list string :=
  ["parishcouncilid"; "parishcounciltitle"; "parishcouncilwebsite";
   "parishcouncilcontact"].
Definition electionResultFields : list string :=
  ["electionid"; "electiontitle"; "electiondate"; "results"].
Definition webcastFields : list string :=
  ["meetingid"; "meetingtitle"; "webcasturl"; "meetingdate"].
Definition mpFields : list string :=
  ["mpid"; "mpname"; "constituency"; "party"; "wards"].

(** A ward record: its own keys, the keys of its [councillors] object,
    and [councillor] is an array. *)
Definition wardComplete (ward : jsval) : bool :=
  hasFields wardFields ward
  && hasFields wardCouncillorsFields (field ward "councillors")
  && isArray (field (field ward "councillors") "councillor").

(** The councillor records carried by a ward record. *)
Definition councillorsOf (ward : jsval) : list jsval :=
  asArray (field (field ward "councillors") "councillor").

(** The invariant as the specification words it for the councillor
    records inside the wards. *)
Definition councillorsComplete
  (parseStringPromise : string -> result jsval) : Prop :=
  forall (xmlData : string) (wards : list jsval),
    parseCouncillorsResponse parseStringPromise xmlData = Ok wards ->
    Forall (fun ward =>
              Forall (fun c => hasFields councillorFields c = true)
                     (councillorsOf ward)) wards.

(** The kinds of collection the normalizers return, each with its
    routine and with what makes one of its elements complete. *)
Inductive RecordKind :=
| Wards | Committees | Meetings | CalendarEvents | ParishCouncils
| ElectionResults | WebCastMeetings | MpOrMeps.

Definition normalizer (kind : RecordKind)
  (parseStringPromise : string -> result jsval)
  : string -> result (list jsval) :=
  match kind with
  | Wards => parseCouncillorsResponse parseStringPromise
  | Committees => parseCommitteesResponse parseStringPromise
  | Meetings => parseMeetingsResponse parseStringPromise
  | CalendarEvents => parseCalendarEventsResponse parseStringPromise
  | ParishCouncils => parseParishCouncilsResponse parseStringPromise
  | ElectionResults => parseElectionResultsResponse parseStringPromise
  | WebCastMeetings => parseWebCastMeetingsResponse parseStringPromise
  | MpOrMeps => parseMpOrMepsAndWardsResponse parseStringPromise
  end.

Definition complete (kind : RecordKind) (record : jsval) : bool :=
  match kind with
  | Wards => wardComplete record
  | Committees => hasFields committeeFields record
  | Meetings => hasFields meetingFields record
  | CalendarEvents => hasFields eventFields record
  | ParishCouncils => hasFields parishCouncilFields record
  | ElectionResults => hasFields electionResultFields record
  | WebCastMeetings => hasFields webcastFields record
  | MpOrMeps => hasFields mpFields record
  end.

(** The object literals from which the normalizers build their records;
    the meeting literal of the committee-nested shape reads its
    committee fields from the enclosing [committee] element. *)
Inductive RecordLiteral :=
| WardLiteral
| CommitteeLiteral
| NestedMeetingLiteral (committee : jsval)
| FlatMeetingLiteral
| EventLiteral
| ParishCouncilLiteral
| ElectionResultLiteral
| WebcastLiteral
| WebcastOfMeetingLiteral
| MpLiteral.

Definition literal (l : RecordLiteral) : jsval -> result jsval :=
  match l with
  | WardLiteral => wardRecord
  | CommitteeLiteral => committeeRecord
  | NestedMeetingLiteral committee => nestedMeetingRecord committee
  | FlatMeetingLiteral => flatMeetingRecord
  | EventLiteral => eventRecord
  | ParishCouncilLiteral => parishCouncilRecord
  | ElectionResultLiteral => electionResultRecord
  | WebcastLiteral => webcastRecord
  | WebcastOfMeetingLiteral => webcastOfMeeting
  | MpLiteral => mpRecord
  end.

Definition kindOf (l : RecordLiteral) : RecordKind :=
  match l with
  | WardLiteral => Wards
  | CommitteeLiteral => Committees
  | NestedMeetingLiteral _ | FlatMeetingLiteral => Meetings
  | EventLiteral => CalendarEvents
  | ParishCouncilLiteral => ParishCouncils
  | ElectionResultLiteral => ElectionResults
  | WebcastLiteral | WebcastOfMeetingLiteral => WebCastMeetings
  | MpLiteral => MpOrMeps
  end.

(** The keys of a record kind. *)
Definition keysOf (kind : RecordKind) : list string :=
  match kind with
  | Wards => wardFields
  | Committees => committeeFields
  | Meetings => meetingFields
  | CalendarEvents => eventFields
  | ParishCouncils => parishCouncilFields
  | ElectionResults => electionResultFields
  | WebCastMeetings => webcastFields
  | MpOrMeps => mpFields
  end.

(** How the specification words a key of a normalized record: the key
    holds the value of an upstream field, and a default when the
    upstream field is absent or empty. *)
Record Default := {
  key : string;
  upstream : jsval;
  fallback : jsval
}.

(** The keys that each literal fills from an upstream field of the
    [element] it is built for, with their defaults.  Nothing upstream
    feeds [meetinglocation]. *)
Definition defaults (l : RecordLiteral) (element : jsval)
  : list Default :=
  let empty := JStr EmptyString in
  let from k name :=
    {| key := k; upstream := field element name; fallback := empty |} in
  match l with
  | WardLiteral => [from "wardtitle" "wardtitle"]
  | CommitteeLiteral =>
      [from "committeeid" "committeeid";
       from "committeetitle" "committeetitle";
       from "committeedescription" "committeedescription";
       from "committeetype" "committeetype"]
  | NestedMeetingLiteral committee =>
      [from "meetingid" "meetingid";
       {| key := "meetingtitle"; upstream := field element "meetingstatus";
          fallback := JStr "Council Meeting" |};
       from "meetingdate" "meetingdate";
       from "meetingtime" "meetingtime";
       {| key := "meetinglocation"; upstream := JUndefined;
          fallback := empty |};
       {| key := "committeeid"; upstream := field committee "committeeid";
          fallback := empty |};
       {| key := "committeetitle";
          upstream := field committee "committeetitle";
          fallback := empty |}]
  | FlatMeetingLiteral =>
      [from "meetingid" "meetingid";
       {| key := "meetingtitle"; upstream := field element "meetingstatus";
          fallback := JStr "Council Meeting" |};
       from "meetingdate" "meetingdate";
       from "meetingtime" "meetingtime";
       {| key := "meetinglocation"; upstream := JUndefined;
          fallback := empty |};
       from "committeeid" "committeeid";
       from "committeetitle" "committeetitle"]
  | EventLiteral =>
      [from "eventid" "eventid";
       from "eventtitle" "eventtitle";
       from "eventdate" "eventdate";
       from "eventdescription" "eventdescription";
       from "eventlocation" "eventlocation"]
  | ParishCouncilLiteral =>
      [from "parishcouncilid" "parishcouncilid";
       from "parishcounciltitle" "parishcounciltitle";
       from "parishcouncilwebsite" "parishcouncilwebsite";
       from "parishcouncilcontact" "parishcouncilcontact"]
  | ElectionResultLiteral =>
      [from "electionid" "electionid";
       from "electiontitle" "electiontitle";
       from "electiondate" "electiondate";
       {| key := "results"; upstream := field element "results";
          fallback := JArr [] |}]
  | WebcastLiteral =>
      [from "meetingid" "meetingid";
       from "meetingtitle" "meetingtitle";
       from "webcasturl" "webcasturl";
       from "meetingdate" "meetingdate"]
  | WebcastOfMeetingLiteral =>
      [from "meetingid" "id";
       from "meetingtitle" "title";
       from "webcasturl" "webcasturl";
       from "meetingdate" "date"]
  | MpLiteral =>
      [from "mpid" "mpid";
       from "mpname" "fullusername";
       from "constituency" "constituency";
       from "party" "politicalpartytitle";
       {| key := "wards"; upstream := field element "wards";
          fallback := JArr [] |}]
  end.

(** The [councillors] object of a ward record: the count with the
    default ['0'], and the councillor elements as an array, empty when
    there is none. *)
Definition wardCouncillors (ward : jsval) : jsval :=
  let councillors := field ward "councillors" in
  let councillor := field councillors "councillor" in
  JObj [("councillorcount",
         if truthy (field councillors "councillorcount")
         then field councillors "councillorcount" else JStr "0");
        ("councillor",
         if isArray councillor then councillor
         else if truthy councillor then JArr [councillor]
         else JArr [])].

(** A record holds what the specification says: each key filled from
    upstream holds the upstream value, or its default when that value is
    absent or empty; a ward record also holds its [councillors]
    object. *)
Definition holdsDefaults (l : RecordLiteral) (element record : jsval)
  : Prop :=
  Forall (fun d => field record (key d)
                   = if truthy (upstream d) then upstream d
                     else fallback d)
    (defaults l element)
  /\ match l with
     | WardLiteral => field record "councillors" = wardCouncillors element
     | _ => True
     end.

(** The keys that [holdsDefaults] speaks of. *)
Definition describedKeys (l : RecordLiteral) : list string :=
  (List.map key (defaults l JUndefined)
   ++ match l with
      | WardLiteral => ["councillors"]
      | _ => []
      end)%list.

(** The defaults as the specification words them: a key whose upstream
    field is absent or empty holds the empty string, or ['0']. *)
Definition emptyDefaults : Prop :=
  forall (l : RecordLiteral) (element record : jsval),
    literal l element = Ok record ->
    Forall (fun d => truthy (upstream d) = false ->
                     field record (key d) = JStr EmptyString
                     \/ field record (key d) = JStr "0")
      (defaults l element).

(** The recognized meeting shapes of a parsed response. *)
Definition isCommitteeNested (response : jsval) : bool :=
  truthy (field response "getmeetings")
  && truthy (field (field response "getmeetings") "committee").

Definition isFlatByDate (response : jsval) : bool :=
  truthy (field response "getmeetingsbydate")
  && truthy (field (field response "getmeetingsbydate") "meetings").

(** The parse of a body whose [getmeetings] root holds a count only. *)
Definition countOnly (count : jsval) : jsval :=
  JObj [("getmeetings", JObj [("meetingscount", count)])].

(** A query made of white space only; the empty query is one. *)
Fixpoint allWhiteSpace (s : string) : bool :=
  match s with
  | EmptyString => true
  | String c s' => isWhiteSpace c && allWhiteSpace s'
  end.

(** The match that both search loops build for a council: the council
    with its score and the tier of the score. *)
Definition matchOf (levenshtein : option (string -> string -> nat))
  (query : string) (c : CouncilMatcher.CouncilInfo)
  : result CouncilMatcher.CouncilMatch :=
  do s <- CouncilMatcher.calculateSimilarity levenshtein query
            (CouncilMatcher.council c);
  Ok (CouncilMatcher.mkMatch c s).

(** Two names that are neither equal nor contained in one another,
    whatever the letter case: [calculateSimilarity] goes past its first
    two returns on them. *)
Definition apart (query councilName : string) : bool :=
  negb (String.eqb (toLowerCase query) (toLowerCase councilName))
  && negb (includes (toLowerCase councilName) (toLowerCase query)
           || includes (toLowerCase query) (toLowerCase councilName)).

(** A query that the search routines answer without scoring. *)
Definition blank (query : string) : bool :=
  negb (JsString.truthy query)
  || Nat.eqb (String.length (trim query)) 0.

(** The update of [bestMatch] that [findBestMatch] makes for the match
    of one council. *)
Definition better (bestMatch : option CouncilMatcher.CouncilMatch)
  (m : CouncilMatcher.CouncilMatch)
  : option CouncilMatcher.CouncilMatch :=
  match bestMatch with
  | None => Some m
  | Some b =>
      if Qle_bool (CouncilMatcher.score m) (CouncilMatcher.score b)
      then bestMatch else Some m
  end.

(** Later matches never score more than earlier ones. *)
Definition byScoreDescending (a b : CouncilMatcher.CouncilMatch) : Prop :=
  (CouncilMatcher.score b <= CouncilMatcher.score a)%Q.

(** The comparator that [findMatches] sorts with. *)
Definition scoreComparator (a b : CouncilMatcher.CouncilMatch) : Q :=
  (CouncilMatcher.score b - CouncilMatcher.score a)%Q.

(** The rank of a confidence tier, lowest first. *)
Definition tierRank (c : CouncilMatcher.Confidence) : nat :=
  match c with
  | CouncilMatcher.low => 0
  | CouncilMatcher.medium => 1
  | CouncilMatcher.high => 2
  | CouncilMatcher.exact => 3
  end.

(** The name under which the search tool knows a tier. *)
Definition tierName (c : CouncilMatcher.Confidence) : string :=
  match c with
  | CouncilMatcher.exact => "exact"
  | CouncilMatcher.high => "high"
  | CouncilMatcher.medium => "medium"
  | CouncilMatcher.low => "low"
  end.

(** The trees the XML parser builds with [explicitArray: false]: text,
    objects of children, and arrays of repeated children. *)
Fixpoint isXml (v : jsval) : bool :=
  match v with
  | JStr _ => true
  | JArr items => forallb isXml items
  | JObj fields => forallb (fun kv => isXml (snd kv)) fields
  | _ => false
  end.

(** What a field read from a tree can be: absent, or a tree. *)
Definition treeOrAbsent (v : jsval) : Prop :=
  v = JUndefined \/ isXml v = true.

(** The parse of a response whose collection element holds
    [children], for each kind of collection; for meetings the flat
    by-date shape. *)
Definition container (kind : RecordKind) (children : jsval) : jsval :=
  match kind with
  | Wards =>
      JObj [("councillorsbyward",
             JObj [("wards", JObj [("ward", children)])])]
  | Committees => JObj [("committees", JObj [("committee", children)])]
  | Meetings =>
      JObj [("getmeetingsbydate",
             JObj [("meetings", JObj [("meeting", children)])])]
  | CalendarEvents => JObj [("calendarevents", JObj [("event", children)])]
  | ParishCouncils =>
      JObj [("parishcouncils", JObj [("parishcouncil", children)])]
  | ElectionResults =>
      JObj [("electionresults", JObj [("electionresult", children)])]
  | WebCastMeetings =>
      JObj [("webcastmeetings", JObj [("webcastmeeting", children)])]
  | MpOrMeps => JObj [("mpswards", JObj [("mps", JObj [("mp", children)])])]
  end.

(** The three root elements of a wards response. *)
Inductive WardRoot := ByWard | ByWardId | ByPostcode.

Definition rootName (root : WardRoot) : string :=
  match root with
  | ByWard => "councillorsbyward"
  | ByWardId => "councillorsbywardid"
  | ByPostcode => "councillorsbypostcode"
  end.

(** The places where a normalizer reads a collection of children, one
    for each test [Array.isArray] of its source.  The parsed document
    has its root element as its only field; every element below the
    root that lies on the way to the collection may have any other
    fields beside the one that leads on: these remaining fields are the
    arguments of a shape, from the root element downwards. *)
Inductive Shape :=
| WardsShape (root : WardRoot) (rootRest wardsRest : list (string * jsval))
| CouncillorsShape (root : WardRoot)
    (rootRest wardsRest wardRest councillorsRest
       : list (string * jsval))
| CommitteesShape (committeesRest : list (string * jsval))
| NestedMeetingsShape
    (getmeetingsRest committeeRest committeemeetingsRest
       : list (string * jsval))
| FlatMeetingsShape
    (getmeetingsbydateRest meetingsRest : list (string * jsval))
| EventsShape (calendareventsRest : list (string * jsval))
| ParishCouncilsShape (parishcouncilsRest : list (string * jsval))
| ElectionResultsShape (electionresultsRest : list (string * jsval))
| WebcastsShape (webcastmeetingsRest : list (string * jsval))
| FallbackCommitteesShape (getmeetingsRest : list (string * jsval))
| FallbackMeetingsShape
    (getmeetingsRest committeeRest : list (string * jsval))
| MpsShape (mpswardsRest mpsRest : list (string * jsval)).

(** The parse of a response of a shape whose collection element holds
    [children]. *)
Definition tree (shape : Shape) (children : jsval) : jsval :=
  match shape with
  | WardsShape root rootRest wardsRest =>
      JObj [(rootName root,
             JObj (("wards", JObj (("ward", children) :: wardsRest))
                   :: rootRest))]
  | CouncillorsShape root rootRest wardsRest wardRest
      councillorsRest =>
      JObj [(rootName root,
             JObj (("wards",
                    JObj (("ward",
                           JObj (("councillors",
                                  JObj (("councillor", children)
                                        :: councillorsRest))
                                 :: wardRest))
                          :: wardsRest))
                   :: rootRest))]
  | CommitteesShape committeesRest =>
      JObj [("committees", JObj (("committee", children)
                                 :: committeesRest))]
  | NestedMeetingsShape getmeetingsRest committeeRest
      committeemeetingsRest =>
      JObj [("getmeetings",
             JObj (("committee",
                    JObj (("committeemeetings",
                           JObj (("meeting", children)
                                 :: committeemeetingsRest))
                          :: committeeRest))
                   :: getmeetingsRest))]
  | FlatMeetingsShape getmeetingsbydateRest meetingsRest =>
      JObj [("getmeetingsbydate",
             JObj (("meetings", JObj (("meeting", children)
                                      :: meetingsRest))
                   :: getmeetingsbydateRest))]
  | EventsShape calendareventsRest =>
      JObj [("calendarevents", JObj (("event", children)
                                     :: calendareventsRest))]
  | ParishCouncilsShape parishcouncilsRest =>
      JObj [("parishcouncils", JObj (("parishcouncil", children)
                                     :: parishcouncilsRest))]
  | ElectionResultsShape electionresultsRest =>
      JObj [("electionresults", JObj (("electionresult", children)
                                      :: electionresultsRest))]
  | WebcastsShape webcastmeetingsRest =>
      JObj [("webcastmeetings", JObj (("webcastmeeting", children)
                                      :: webcastmeetingsRest))]
  | FallbackCommitteesShape getmeetingsRest =>
      JObj [("getmeetings", JObj (("committee", children)
                                  :: getmeetingsRest))]
  | FallbackMeetingsShape getmeetingsRest committeeRest =>
      JObj [("getmeetings",
             JObj (("committee", JObj (("meeting", children)
                                       :: committeeRest))
                   :: getmeetingsRest))]
  | MpsShape mpswardsRest mpsRest =>
      JObj [("mpswards",
             JObj (("mps", JObj (("mp", children) :: mpsRest))
                   :: mpswardsRest))]
  end.

(** The normalizer that reads a shape. *)
Definition reader (shape : Shape) : RecordKind :=
  match shape with
  | WardsShape _ _ _ | CouncillorsShape _ _ _ _ _ => Wards
  | CommitteesShape _ => Committees
  | NestedMeetingsShape _ _ _ | FlatMeetingsShape _ _ => Meetings
  | EventsShape _ => CalendarEvents
  | ParishCouncilsShape _ => ParishCouncils
  | ElectionResultsShape _ => ElectionResults
  | WebcastsShape _ | FallbackCommitteesShape _
  | FallbackMeetingsShape _ _ => WebCastMeetings
  | MpsShape _ _ => MpOrMeps
  end.

(** The meetings that the webcast fall-back gathers from a committee. *)
Definition meetingsUnder (committee : jsval) : list jsval :=
  if truthy (field committee "meeting")
  then asArray (field committee "meeting") else [].

(** The number of records expected for the children of a shape: one
    for each child; in the webcast fall-back, whose children are
    committees, one for each meeting of each committee; and for the
    councillors of a ward the one record of the ward. *)
Definition recordCount (shape : Shape) (children : list jsval) : nat :=
  match shape with
  | CouncillorsShape _ _ _ _ _ => 1
  | FallbackCommitteesShape _ =>
      List.length (flat_map meetingsUnder children)
  | _ => List.length children
  end.

(** The operations of the client with their arguments; an argument left
    out is [None]. *)
Inductive Call :=
| CouncillorsByWard
| CouncillorsByWardId (wardId : option Z)
| CouncillorsByPostcode (postcode : option string)
| CommitteesOf
| MeetingsOf (committeeId : option Z) (fromDate toDate : option string)
| MeetingById (meetingId : option Z)
| AllMeetingsByDate (date : string) (committeeId : option Z)
    (fromDate toDate : option string) (ascendingOrder : option bool)
| CalendarEventsOf (globalCalendar : option bool) (userId : option Z)
    (dateStart dateEnd : option string)
| ParishCouncilsOf
| ElectionResultsOf (electionId : option Z)
| WebCastMeetingsOf (committeeId : option Z)
    (fromDate toDate : option string)
| MpOrMepsOf (isMPs : option bool)
| MpOrMepsByPostcode (postcode : option string) (isMPs : option bool).

(** The message of the error a computation ended with, if any. *)
Definition errorOf {T} (r : result T) : option string :=
  match r with
  | Ok _ => None
  | Throw m => Some m
  end.

Definition outcome {T} (r : result T * World) : option string * World :=
  (errorOf (fst r), snd r).

Section Calls.
Variable newURL : string -> option URL.
Variable getFullYear : Z -> Z.
Variable parseStringPromise : string -> result jsval.
Variable server : Request -> result Response.

(** Runs a call: the error it ends with, if any, and the state it
    leaves. *)
Definition run (call : Call) (siteUrl : string) (lateness : Z) (w : World)
  : option string * World :=
  match call with
  | CouncillorsByWard =>
      outcome (getCouncillorsByWard newURL parseStringPromise server
                 siteUrl lateness w)
  | CouncillorsByWardId wardId =>
      outcome (getCouncillorsByWardId newURL parseStringPromise server
                 siteUrl wardId lateness w)
  | CouncillorsByPostcode postcode =>
      outcome (getCouncillorsByPostcode newURL parseStringPromise server
                 siteUrl postcode lateness w)
  | CommitteesOf =>
      outcome (getCommittees newURL parseStringPromise server
                 siteUrl lateness w)
  | MeetingsOf committeeId fromDate toDate =>
      outcome (getMeetings newURL getFullYear parseStringPromise server
                 siteUrl committeeId fromDate toDate lateness w)
  | MeetingById meetingId =>
      outcome (getMeeting newURL parseStringPromise server
                 siteUrl meetingId lateness w)
  | AllMeetingsByDate date committeeId fromDate toDate ascendingOrder =>
      outcome (getAllMeetingsByDate newURL getFullYear parseStringPromise
                 server siteUrl date committeeId fromDate toDate
                 ascendingOrder lateness w)
  | CalendarEventsOf globalCalendar userId dateStart dateEnd =>
      outcome (getCalendarEvents newURL getFullYear parseStringPromise
                 server siteUrl globalCalendar userId dateStart dateEnd
                 lateness w)
  | ParishCouncilsOf =>
      outcome (getParishCouncils newURL parseStringPromise server
                 siteUrl lateness w)
  | ElectionResultsOf electionId =>
      outcome (getElectionResults newURL parseStringPromise server
                 siteUrl electionId lateness w)
  | WebCastMeetingsOf committeeId fromDate toDate =>
      outcome (getWebCastMeetings newURL getFullYear parseStringPromise
                 server siteUrl committeeId fromDate toDate lateness w)
  | MpOrMepsOf isMPs =>
      outcome (getMpOrMepsAndWards newURL parseStringPromise server
                 siteUrl isMPs lateness w)
  | MpOrMepsByPostcode postcode isMPs =>
      outcome (getMpOrMepAndWardsByPostcode newURL parseStringPromise
                 server siteUrl postcode isMPs lateness w)
  end.

End Calls.

(** The required argument that a call leaves out, if any. *)
Definition missing (call : Call) : option string :=
  match call with
  | CouncillorsByWardId None => Some "wardId"
  | CouncillorsByPostcode None => Some "postcode"
  | MeetingsOf None _ _ => Some "committeeId"
  | MeetingById None => Some "meetingId"
  | ElectionResultsOf None => Some "electionId"
  | WebCastMeetingsOf None _ _ => Some "committeeId"
  | MpOrMepsByPostcode None _ => Some "postcode"
  | _ => None
  end.

(** The name of the remote operation behind a call. *)
Definition operationName (call : Call) : string :=
  match call with
  | CouncillorsByWard => "GetCouncillorsByWard"
  | CouncillorsByWardId _ => "GetCouncillorsByWardId"
  | CouncillorsByPostcode _ => "GetCouncillorsByPostcode"
  | CommitteesOf => "GetCommittees"
  | MeetingsOf _ _ _ => "GetMeetings"
  | MeetingById _ => "GetMeeting"
  | AllMeetingsByDate _ _ _ _ _ => "GetAllMeetingsByDate"
  | CalendarEventsOf _ _ _ _ => "GetCalendarEvents"
  | ParishCouncilsOf => "GetParishCouncils"
  | ElectionResultsOf _ => "GetElectionResults"
  | WebCastMeetingsOf _ _ _ => "GetWebCastMeetings"
  | MpOrMepsOf _ => "GetMpOrMepsAndWards"
  | MpOrMepsByPostcode _ _ => "GetMpOrMepAndWardsByPostcode"
  end.

(** A schedule of calls to the rate limiter: each call names its host,
    the time that passes before it is made, and the lateness of its
    timer.  [grants] lists the host and the recorded time of each call,
    the latest first. *)
Fixpoint runSchedule (calls : list (string * Z * Z)) (w : World)
  (grants : list (string * Z)) : World * list (string * Z) :=
  match calls with
  | [] => (w, grants)
  | (domain, idle, lateness) :: rest =>
      let w1 := awaitTurn domain lateness (atTime (clock w + idle) w) in
      runSchedule rest w1 ((domain, clock w1) :: grants)
  end.

End Spec.

(** ** Sample data used by the examples *)

Module Sample.
Import JsString Js ModgovClient.

(** A wards response whose only councillor has no [fullusername]
    element. *)
Definition wardsBody : string :=
  "<councillorsbyward><wards><ward><wardtitle>Abbey</wardtitle><councillors><councillorcount>1</councillorcount><councillor><councillorid>7</councillorid></councillor></councillors></ward></wards></councillorsbyward>".

Definition wardsTree : jsval :=
  JObj [("councillorsbyward",
         JObj [("wards",
                JObj [("ward",
                       JObj [("wardtitle", JStr "Abbey");
                             ("councillors",
                              JObj [("councillorcount", JStr "1");
                                    ("councillor",
                                     JObj [("councillorid",
                                            JStr "7")])])])])])].

Definition countOnlyBody : string :=
  "<getmeetings><meetingscount>0</meetingscount></getmeetings>".

(** A well-formed body of no meeting shape. *)
Definition otherBody : string := "<committees><committee/></committees>".

(** The XML parser on the sample bodies. *)
Definition parseSample (xmlData : string) : result jsval :=
  if String.eqb xmlData wardsBody then Ok wardsTree
  else if String.eqb xmlData countOnlyBody
  then Ok (Spec.countOnly (JStr "0"))
  else if String.eqb xmlData otherBody
  then Ok (JObj [("committees", JObj [("committee", JStr EmptyString)])])
  else Throw "Non-whitespace before first tag.".

Definition sampleCouncils : list CouncilMatcher.CouncilInfo :=
  [ {| CouncilMatcher.council := "Leeds City Council";
       CouncilMatcher.url := "https://democracy.leeds.gov.uk";
       CouncilMatcher.region := "Yorkshire and Humber";
       CouncilMatcher.type := "Metropolitan" |};
    {| CouncilMatcher.council := "Lichfield District Council";
       CouncilMatcher.url := "https://democracy.lichfielddc.gov.uk";
       CouncilMatcher.region := "West Midlands";
       CouncilMatcher.type := "District" |} ].

(** The edit distance by rows (Wagner and Fischer), standing for the
    function of the package in the examples: [left] and [diag] are the
    cells to the left and above-left of the one being filled. *)
Fixpoint nextRow (c : ascii) (t : string) (prev : list nat)
  (left diag : nat) : list nat :=
  match t, prev with
  | String d t', up :: prev' =>
      let cell :=
        Nat.min (Nat.min (up + 1) (left + 1))
                (diag + if Ascii.eqb c d then 0 else 1) in
      cell :: nextRow c t' prev' cell up
  | _, _ => []
  end.

Fixpoint editRows (s t : string) (prev : list nat) : list nat :=
  match s, prev with
  | String c s', first :: rest =>
      editRows s' t ((first + 1) :: nextRow c t rest (first + 1) first)
  | _, _ => prev
  end.

Definition editDistance (s t : string) : nat :=
  List.last (editRows s t (seq 0 (S (String.length t)))) 0.

Definition emptyWorld (t : Z) : World :=
  {| clock := t; rateLimiter := ∅; outbox := [] |}.

(** A [URL] constructor for the sample sites. *)
Definition sampleURL (s : string) : option URL :=
  if String.prefix "https://" s
  then Some {| protocol := "https:";
               hostname := nth 0 (split (drop 8 s) "/") EmptyString;
               port := EmptyString |}
  else if String.prefix "http://" s
  then Some {| protocol := "http:";
               hostname := nth 0 (split (drop 7 s) "/") EmptyString;
               port := EmptyString |}
  else None.

End Sample.

(** * Properties *)

Import JsString Js CouncilMatcher ModgovClient.

(** ** The council matcher *)

Section MatcherFacts.
Local Open Scope Q_scope.

Lemma getConfidence_cases (s : Q) :
  (0.95 <= s /\ getConfidence s = exact)
  \/ (0.8 <= s /\ s < 0.95 /\ getConfidence s = high)
  \/ (0.6 <= s /\ s < 0.8 /\ getConfidence s = medium)
  \/ (s < 0.6 /\ getConfidence s = low).
Proof.
  unfold getConfidence.
  destruct (Qle_bool 0.95 s) eqn:E1.
  { left. split; [now apply Qle_bool_iff | reflexivity]. }
  assert (H1 : s < 0.95).
  { apply Qnot_le_lt. intros H. apply Qle_bool_iff in H. congruence. }
  destruct (Qle_bool 0.8 s) eqn:E2.
  { right; left. repeat split; [now apply Qle_bool_iff | exact H1]. }
  assert (H2 : s < 0.8).
  { apply Qnot_le_lt. intros H. apply Qle_bool_iff in H. congruence. }
  destruct (Qle_bool 0.6 s) eqn:E3.
  { right; right; left.
    repeat split; [now apply Qle_bool_iff | exact H2]. }
  right; right; right. split; [| reflexivity].
  apply Qnot_le_lt. intros H. apply Qle_bool_iff in H. congruence.
Qed.

Ltac tier s :=
  destruct (getConfidence_cases s) as [[? ->]|[(? & ? & ->)|[(? & ? & ->)|[? ->]]]].

(** C8: the confidence tier is [exact] exactly from 0.95, [high] exactly
    on [0.8, 0.95), [medium] exactly on [0.6, 0.8) and [low] exactly
    below 0.6; the tier never decreases when the score grows; and the six
    boundary scores of the specification fall in the stated tiers. *)
Theorem getConfidence_thresholds :
  (forall s : Q,
      (getConfidence s = exact <-> 0.95 <= s)
      /\ (getConfidence s = high <-> 0.8 <= s /\ s < 0.95)
      /\ (getConfidence s = medium <-> 0.6 <= s /\ s < 0.8)
      /\ (getConfidence s = low <-> s < 0.6))
  /\ (forall s1 s2 : Q,
         s1 <= s2 ->
         (Spec.tierRank (getConfidence s1)
          <= Spec.tierRank (getConfidence s2))%nat)
  /\ getConfidence 0.95 = exact
  /\ getConfidence 0.94999 = high
  /\ getConfidence 0.8 = high
  /\ getConfidence 0.79999 = medium
  /\ getConfidence 0.6 = medium
  /\ getConfidence 0.59999 = low.
Proof.
  split; [| split; [| repeat split; reflexivity]].
  - intros s. tier s; repeat split; intros; try discriminate;
      try reflexivity; try assumption; try lra.
  - intros s1 s2 Hle. tier s1; tier s2; simpl; try lia; lra.
Qed.

(** The theorem at the scores 0.5 and 0.9. *)
Lemma getConfidence_thresholds_witness :
  getConfidence 0.9 = high
  /\ (Spec.tierRank (getConfidence 0.5)
      <= Spec.tierRank (getConfidence 0.9))%nat.
Proof.
  split.
  - apply (proj2 (proj1 (proj2 (proj1 getConfidence_thresholds 0.9)))).
    split; [discriminate | reflexivity].
  - apply (proj1 (proj2 getConfidence_thresholds) 0.5 0.9). discriminate.
Defined.

Variable levenshtein : option (string -> string -> nat).
Variable councils : list CouncilInfo.

(** C9: two names that are equal up to case score 1.0; in particular a
    name scores 1.0 against itself, and so does the empty name.  The
    score is returned whatever the imported edit-distance function is,
    also when the import is undefined. *)
Theorem calculateSimilarity_equal_ignoring_case :
  (forall query councilName : string,
      toLowerCase query = toLowerCase councilName ->
      calculateSimilarity levenshtein query councilName = Ok 1.0)
  /\ (forall s : string, calculateSimilarity levenshtein s s = Ok 1.0)
  /\ calculateSimilarity levenshtein EmptyString EmptyString = Ok 1.0.
Proof.
  assert (H : forall query councilName : string,
             toLowerCase query = toLowerCase councilName ->
             calculateSimilarity levenshtein query councilName = Ok 1.0).
  { intros query councilName Heq. unfold calculateSimilarity.
    rewrite Heq, String.eqb_refl. reflexivity. }
  split; [exact H |].
  split; [intros s |]; apply H; reflexivity.
Qed.

Lemma insert_Forall {A} (cmp : A -> A -> Q) (P : A -> Prop) x l :
  P x -> Forall P l -> Forall P (insert cmp x l).
Proof.
  intros Hx Hl. induction Hl as [| y l Hy Hl IH]; simpl.
  - constructor; [exact Hx | constructor].
  - destruct (Qle_bool (cmp x y) 0).
    + constructor; [exact Hx |]. constructor; assumption.
    + constructor; assumption.
Qed.

Lemma sort_Forall {A} (cmp : A -> A -> Q) (P : A -> Prop) l :
  Forall P l -> Forall P (sort cmp l).
Proof.
  induction 1 as [| x l Hx Hl IH]; simpl.
  - constructor.
  - apply insert_Forall; assumption.
Qed.

Lemma insert_descending x l :
  StronglySorted Spec.byScoreDescending l ->
  StronglySorted Spec.byScoreDescending (insert Spec.scoreComparator x l).
Proof.
  induction 1 as [| y l Hl IH Hy]; simpl.
  - constructor; constructor.
  - destruct (Qle_bool (Spec.scoreComparator x y) 0) eqn:E.
    + apply Qle_bool_iff in E. unfold Spec.scoreComparator in E.
      assert (Hxy : Spec.byScoreDescending x y) by (unfold Spec.byScoreDescending; lra).
      constructor; [constructor; assumption |].
      constructor; [exact Hxy |].
      eapply Forall_impl; [exact Hy |].
      unfold Spec.byScoreDescending in *. intros z Hz. lra.
    + assert (Hyx : Spec.byScoreDescending y x).
      { unfold Spec.byScoreDescending. apply Qlt_le_weak, Qnot_le_lt.
        intros H. assert (H' : Spec.scoreComparator x y <= 0)
          by (unfold Spec.scoreComparator; lra).
        apply Qle_bool_iff in H'. congruence. }
      constructor; [exact IH |].
      apply insert_Forall; assumption.
Qed.

Lemma sort_descending l :
  StronglySorted Spec.byScoreDescending (sort Spec.scoreComparator l).
Proof.
  induction l as [| x l IH]; simpl.
  - constructor.
  - apply insert_descending, IH.
Qed.

(** The sort only rearranges. *)
Lemma insert_Permutation {A} (cmp : A -> A -> Q) x l :
  Permutation (insert cmp x l) (x :: l).
Proof.
  induction l as [| y l IH]; simpl.
  - reflexivity.
  - destruct (Qle_bool (cmp x y) 0); [reflexivity |].
    rewrite IH. apply perm_swap.
Qed.

Lemma sort_Permutation {A} (cmp : A -> A -> Q) l :
  Permutation (sort cmp l) l.
Proof.
  induction l as [| x l IH]; simpl.
  - reflexivity.
  - rewrite insert_Permutation, IH. reflexivity.
Qed.

(** What a loop over the councils computes when every council is
    scored: the list of their matches, in order. *)
Lemma mapM_Forall2 {A B} (f : A -> result B) (l : list A) (l' : list B) :
  mapM f l = Ok l' -> Forall2 (fun a b => f a = Ok b) l l'.
Proof.
  revert l'. induction l as [| a l IH]; intros l' H; cbn [mapM] in H.
  - injection H as <-. constructor.
  - destruct (f a) as [b | m] eqn:Ea; [| discriminate H].
    cbn [bind] in H.
    destruct (mapM f l) as [bs | m]; [| discriminate H].
    cbn [bind] in H. injection H as <-.
    constructor; [exact Ea | apply IH; reflexivity].
Qed.

(** The loop of [findMatches] scores every council in turn and keeps,
    in order, the matches that pass the test. *)
Lemma matchesAmong_filter query reaches cs acc :
  matchesAmong levenshtein query reaches cs acc
  = do ms <- mapM (Spec.matchOf levenshtein query) cs;
    Ok (acc ++ List.filter (fun m => reaches (score m)) ms)%list.
Proof.
  revert acc. induction cs as [| c cs IH]; intros acc;
    cbn [matchesAmong mapM].
  - cbn [bind List.filter]. rewrite app_nil_r. reflexivity.
  - unfold Spec.matchOf at 1.
    destruct (calculateSimilarity levenshtein query (council c))
      as [s | m]; [| reflexivity].
    cbn [bind]. rewrite IH.
    destruct (mapM (Spec.matchOf levenshtein query) cs) as [ms | m];
      [| reflexivity].
    cbn [bind List.filter score mkMatch].
    destruct (reaches s); [| reflexivity].
    rewrite <- app_assoc. reflexivity.
Qed.

(** The loop of [findBestMatch] scores every council in turn and
    updates the best match with each of the matches. *)
Lemma bestAmong_better query cs init :
  bestAmong levenshtein query cs init
  = do ms <- mapM (Spec.matchOf levenshtein query) cs;
    Ok (fold_left Spec.better ms init).
Proof.
  revert init. induction cs as [| c cs IH]; intros init;
    cbn [bestAmong mapM].
  - reflexivity.
  - unfold Spec.matchOf at 1.
    destruct (calculateSimilarity levenshtein query (council c))
      as [s | m]; [| reflexivity].
    cbn [bind]. rewrite IH.
    destruct (mapM (Spec.matchOf levenshtein query) cs) as [ms | m];
      reflexivity.
Qed.

Lemma findMatchesWhere_filter reaches query :
  Spec.blank query = false ->
  findMatchesWhere levenshtein councils reaches query
  = do ms <- mapM (Spec.matchOf levenshtein query) councils;
    Ok (sort Spec.scoreComparator
          (List.filter (fun m => reaches (score m)) ms)).
Proof.
  intros Hblank. unfold findMatchesWhere.
  change (negb (JsString.truthy query)
          || Nat.eqb (String.length (trim query)) 0)
    with (Spec.blank query).
  rewrite Hblank, matchesAmong_filter.
  destruct (mapM (Spec.matchOf levenshtein query) councils); reflexivity.
Qed.

Lemma matchOf_tier query c m :
  Spec.matchOf levenshtein query c = Ok m ->
  match_council m = c /\ confidence m = getConfidence (score m).
Proof.
  unfold Spec.matchOf.
  destruct (calculateSimilarity levenshtein query (council c));
    [| discriminate].
  cbn [bind]. intros H. injection H as <-. split; reflexivity.
Qed.

Lemma trimStart_allWhiteSpace s :
  Spec.allWhiteSpace s = true -> trimStart s = EmptyString.
Proof.
  induction s as [| c s IH]; simpl; [reflexivity |].
  intros H. apply andb_true_iff in H as [Hc Hs].
  rewrite Hc. apply IH, Hs.
Qed.

Lemma blank_iff (query : string) :
  Spec.blank query = true <-> trim query = EmptyString.
Proof.
  unfold Spec.blank. split.
  - intros H. apply orb_true_iff in H as [H | H].
    + unfold JsString.truthy in H. apply negb_true_iff, negb_false_iff in H.
      apply String.eqb_eq in H. rewrite H. reflexivity.
    + apply Nat.eqb_eq in H. destruct (trim query); [reflexivity |].
      discriminate H.
  - intros H. rewrite H. apply orb_true_r.
Qed.

(** Every match that [findMatchesWhere] returns passes the test and
    carries the tier of its score, and the matches are sorted. *)
Lemma findMatchesWhere_members reaches query found :
  findMatchesWhere levenshtein councils reaches query = Ok found ->
  StronglySorted Spec.byScoreDescending found
  /\ Forall (fun m => reaches (score m) = true
                      /\ confidence m = getConfidence (score m)) found.
Proof.
  destruct (Spec.blank query) eqn:Hblank.
  - unfold findMatchesWhere.
    change (negb (JsString.truthy query)
            || Nat.eqb (String.length (trim query)) 0)
      with (Spec.blank query).
    rewrite Hblank. intros H. injection H as <-. split; constructor.
  - rewrite (findMatchesWhere_filter _ _ Hblank).
    destruct (mapM (Spec.matchOf levenshtein query) councils)
      as [ms | m] eqn:Ems; [| discriminate].
    cbn [bind]. intros H. injection H as <-.
    split; [apply sort_descending |].
    apply sort_Forall, Forall_forall. intros m Hm.
    apply list_elem_of_In in Hm.
    apply filter_In in Hm as [Hm Hscore]. split; [exact Hscore |].
    apply mapM_Forall2 in Ems.
    clear Hscore. induction Ems as [| c m' cs ms' Hc _ IH];
      [destruct Hm |].
    destruct Hm as [<- | Hm]; [| exact (IH Hm)].
    apply (matchOf_tier _ _ _ Hc).
Qed.

End MatcherFacts.

(** *** The import of line 1 left undefined *)

Section UndefinedImportFacts.
Local Open Scope Q_scope.

Variable councils : list CouncilInfo.

(** With the import undefined a council is scored exactly when its name
    is not apart from the query. *)
Lemma calculateSimilarity_undefined query councilName :
  calculateSimilarity None query councilName
  = if Spec.apart query councilName
    then Throw "levenshtein is not a function"
    else Ok (if String.eqb (toLowerCase query) (toLowerCase councilName)
             then 1.0 else 0.9).
Proof.
  unfold calculateSimilarity, Spec.apart.
  destruct (String.eqb (toLowerCase query) (toLowerCase councilName));
    [reflexivity |].
  destruct (includes (toLowerCase councilName) (toLowerCase query)
            || includes (toLowerCase query) (toLowerCase councilName));
    reflexivity.
Qed.

Lemma mapM_matchOf_undefined query cs :
  (exists ms, mapM (Spec.matchOf None query) cs = Ok ms)
  <-> existsb (fun c => Spec.apart query (council c)) cs = false.
Proof.
  induction cs as [| c cs IH]; cbn [mapM existsb].
  - split; [reflexivity | intros _; eexists; reflexivity].
  - unfold Spec.matchOf at 1. rewrite calculateSimilarity_undefined.
    destruct (Spec.apart query (council c)); cbn [bind orb].
    + split; [intros [ms H]; discriminate H | discriminate].
    + rewrite <- IH.
      destruct (mapM (Spec.matchOf None query) cs) as [ms | m];
        cbn [bind].
      * split; intros _; eexists; reflexivity.
      * split; intros [ms H]; discriminate H.
Qed.

(** C7: with the import of line 1 undefined, [findMatches] returns
    exactly for the blank queries and for the lists in which every name
    equals the query, contains it or is contained in it, whatever the
    letter case; for every other query and list it throws instead of
    returning the sorted matches, as it does for [Leeds] over a list
    that holds Lichfield District Council. *)
Theorem findMatches_throws_without_levenshtein :
  (forall (query : string) (minScore : Q),
      (exists found, findMatches None councils query minScore = Ok found)
      <-> Spec.blank query = true
          \/ existsb (fun c => Spec.apart query (council c)) councils
             = false)
  /\ (forall (query : string) (minScore : Q),
         Spec.blank query = false ->
         existsb (fun c => Spec.apart query (council c)) councils = true ->
         exists message,
           findMatches None councils query minScore = Throw message)
  /\ (exists message,
         findMatches None Sample.sampleCouncils "Leeds" 0.3
         = Throw message).
Proof.
  assert (Hiff : forall (query : string) (minScore : Q),
             (exists found,
                 findMatches None councils query minScore = Ok found)
             <-> Spec.blank query = true
                 \/ existsb (fun c => Spec.apart query (council c))
                      councils = false).
  { intros query minScore. unfold findMatches.
    destruct (Spec.blank query) eqn:Hblank.
    - split; [intros _; left; reflexivity |]. intros _.
      unfold findMatchesWhere.
      change (negb (JsString.truthy query)
              || Nat.eqb (String.length (trim query)) 0)
        with (Spec.blank query).
      rewrite Hblank. eexists; reflexivity.
    - rewrite findMatchesWhere_filter by exact Hblank.
      rewrite <- mapM_matchOf_undefined.
      destruct (mapM (Spec.matchOf None query) councils) as [ms | m];
        cbn [bind].
      + split; [intros _; right |]; eexists; reflexivity.
      + split; [intros [found H]; discriminate H |].
        intros [H | [ms H]]; discriminate H. }
  split; [exact Hiff |]. split; [| eexists; reflexivity].
  intros query minScore Hblank Hapart.
  destruct (findMatches None councils query minScore) as [found | message]
    eqn:E; [| exists message; reflexivity].
  exfalso.
  destruct (proj1 (Hiff query minScore)) as [H | H];
    [exists found; exact E | congruence | congruence].
Qed.

End UndefinedImportFacts.

(** The theorem at [LEEDS] against [leeds], with the import undefined. *)
Lemma calculateSimilarity_equal_ignoring_case_witness :
  calculateSimilarity None "LEEDS" "leeds" = Ok 1.0%Q.
Proof.
  apply (proj1 (calculateSimilarity_equal_ignoring_case None)).
  reflexivity.
Defined.

(** The theorem at the query [kitten] over the sample list. *)
Lemma findMatches_throws_without_levenshtein_witness :
  exists message,
    findMatches None Sample.sampleCouncils "kitten" 0.3%Q = Throw message.
Proof.
  apply (proj1 (proj2 (findMatches_throws_without_levenshtein
                         Sample.sampleCouncils)) "kitten" 0.3%Q);
    reflexivity.
Defined.

(** ** The meetings operation: request parameters *)

Section RequestFacts.

Variable newURL : string -> option URL.
Variable getFullYear : Z -> Z.
Variable parseStringPromise : string -> result jsval.
Variable server : Request -> result Response.

Lemma default_params (currentYear committeeId : Z) :
  getMeetingsParams currentYear committeeId None None
  = [("lCommitteeId", JNum committeeId);
     ("sFromDate", JStr (numberToString currentYear ++ "-01-01"));
     ("sToDate", JStr (numberToString currentYear ++ "-12-31"))].
Proof. reflexivity. Qed.

Lemma outbox_awaitTurn domain lateness w :
  outbox (awaitTurn domain lateness w) = outbox w.
Proof.
  unfold awaitTurn. cbn [outbox].
  destruct (_ <? _)%Z; reflexivity.
Qed.

(** What the call sends once the site URL is a valid one and the
    committee is given: exactly one request, at the time the rate
    limiter lets the call go. *)
Lemma getMeetings_sends siteUrl u committeeId fromDate toDate lateness w :
  newURL siteUrl = Some u ->
  let w1 := awaitTurn (hostname u) lateness w in
  outbox (snd (getMeetings newURL getFullYear parseStringPromise server
                 siteUrl (Some committeeId) fromDate toDate lateness w))
  = (outbox w
     ++ [{| endpoint := getEndpointUrl siteUrl "GetMeetings";
            params := getMeetingsParams (getFullYear (clock w1))
                        committeeId fromDate toDate |}])%list.
Proof.
  intros Hu w1. unfold getMeetings, validateUrl, checkRateLimit.
  rewrite Hu. cbn [validateParameter]. unfold axiosGet.
  destruct (server _); cbn [snd outbox];
    rewrite outbox_awaitTurn; reflexivity.
Qed.

(** C5: a meetings call without a date range sends one request whose
    [sFromDate] and [sToDate] are the first of January and the
    thirty-first of December of the current year; in 2024 they are
    2024-01-01 and 2024-12-31. *)
Theorem getMeetings_default_date_range
  siteUrl u committeeId lateness w :
  newURL siteUrl = Some u ->
  let year := getFullYear (clock (awaitTurn (hostname u) lateness w)) in
  exists request,
    outbox (snd (getMeetings newURL getFullYear parseStringPromise server
                   siteUrl (Some committeeId) None None lateness w))
    = (outbox w ++ [request])%list
    /\ lookupField "sFromDate" (params request)
       = JStr (numberToString year ++ "-01-01")
    /\ lookupField "sToDate" (params request)
       = JStr (numberToString year ++ "-12-31")
    /\ (year = 2024%Z ->
        lookupField "sFromDate" (params request) = JStr "2024-01-01"
        /\ lookupField "sToDate" (params request) = JStr "2024-12-31").
Proof.
  intros Hu year. eexists. split.
  - apply getMeetings_sends, Hu.
  - cbn [params]. fold year. rewrite default_params.
    split; [reflexivity |]. split; [reflexivity |].
    intros Hyear. rewrite Hyear. split; reflexivity.
Qed.

(** C10: a meetings call that gives only one of the two dates sends
    exactly one request, and that request carries the defaults of the
    current year in [sFromDate] and [sToDate], with the committee asked
    for: the date given is dropped.  The call behaves as the call that
    gives no date, in its result and in what it sends. *)
Theorem getMeetings_partial_range_is_default
  siteUrl committeeId (date : string) lateness w :
  (forall (u : URL) (id : Z),
      newURL siteUrl = Some u ->
      let year := getFullYear (clock (awaitTurn (hostname u) lateness w)) in
      exists request,
        outbox (snd (getMeetings newURL getFullYear parseStringPromise
                       server siteUrl (Some id) (Some date) None
                       lateness w))
        = (outbox w ++ [request])%list
        /\ outbox (snd (getMeetings newURL getFullYear parseStringPromise
                          server siteUrl (Some id) None (Some date)
                          lateness w))
           = (outbox w ++ [request])%list
        /\ endpoint request = getEndpointUrl siteUrl "GetMeetings"
        /\ params request
           = [("lCommitteeId", JNum id);
              ("sFromDate", JStr (numberToString year ++ "-01-01"));
              ("sToDate", JStr (numberToString year ++ "-12-31"))]
        /\ (year = 2024%Z ->
            lookupField "sFromDate" (params request) = JStr "2024-01-01"
            /\ lookupField "sToDate" (params request)
               = JStr "2024-12-31"))
  /\ getMeetings newURL getFullYear parseStringPromise server
       siteUrl committeeId (Some date) None lateness w
     = getMeetings newURL getFullYear parseStringPromise server
         siteUrl committeeId None None lateness w
  /\ getMeetings newURL getFullYear parseStringPromise server
       siteUrl committeeId None (Some date) lateness w
     = getMeetings newURL getFullYear parseStringPromise server
         siteUrl committeeId None None lateness w
  /\ (forall currentYear id : Z,
         getMeetingsParams currentYear id (Some date) None
         = [("lCommitteeId", JNum id);
            ("sFromDate", JStr (numberToString currentYear ++ "-01-01"));
            ("sToDate", JStr (numberToString currentYear ++ "-12-31"))]
         /\ getMeetingsParams currentYear id None (Some date)
            = [("lCommitteeId", JNum id);
               ("sFromDate",
                JStr (numberToString currentYear ++ "-01-01"));
               ("sToDate",
                JStr (numberToString currentYear ++ "-12-31"))]).
Proof.
  split; [| repeat split; reflexivity].
  intros u id Hu year.
  exists {| endpoint := getEndpointUrl siteUrl "GetMeetings";
            params := getMeetingsParams year id None None |}.
  split; [rewrite (getMeetings_sends _ _ _ _ _ _ _ Hu); reflexivity |].
  split; [rewrite (getMeetings_sends _ _ _ _ _ _ _ Hu); reflexivity |].
  cbn [endpoint params]. rewrite default_params.
  split; [reflexivity |]. split; [reflexivity |].
  intros Hyear. rewrite Hyear. split; reflexivity.
Qed.

End RequestFacts.

(** The theorem for the Lichfield site in a year 2024. *)
Lemma getMeetings_default_date_range_witness :
  exists request,
    outbox (snd (getMeetings Sample.sampleURL (fun _ => 2024%Z)
                   Sample.parseSample
                   (fun _ => Ok {| status := 200;
                                      data := Sample.countOnlyBody |})
                   "https://democracy.lichfielddc.gov.uk/" (Some 138%Z)
                   None None 0 (Sample.emptyWorld 1700000000000)))
    = [request]
    /\ lookupField "sFromDate" (params request) = JStr "2024-01-01"
    /\ lookupField "sToDate" (params request) = JStr "2024-12-31".
Proof.
  destruct (getMeetings_default_date_range Sample.sampleURL
              (fun _ => 2024%Z) Sample.parseSample
              (fun _ => Ok {| status := 200;
                                 data := Sample.countOnlyBody |})
              "https://democracy.lichfielddc.gov.uk/"
              {| protocol := "https:";
                 hostname := "democracy.lichfielddc.gov.uk";
                 port := EmptyString |}
              138%Z 0%Z (Sample.emptyWorld 1700000000000) eq_refl)
    as (request & Hout & _ & _ & H2024).
  exists request. split; [exact Hout |]. apply H2024. reflexivity.
Defined.

(** The theorem for the Lichfield site in a year 2024, with a start
    date and no end date. *)
Lemma getMeetings_partial_range_is_default_witness :
  exists request,
    outbox (snd (getMeetings Sample.sampleURL (fun _ => 2024%Z)
                   Sample.parseSample
                   (fun _ => Ok {| status := 200;
                                      data := Sample.countOnlyBody |})
                   "https://democracy.lichfielddc.gov.uk/" (Some 138%Z)
                   (Some "2024-03-01") None 0
                   (Sample.emptyWorld 1700000000000)))
    = [request]
    /\ lookupField "sFromDate" (params request) = JStr "2024-01-01"
    /\ lookupField "sToDate" (params request) = JStr "2024-12-31".
Proof.
  destruct (proj1 (getMeetings_partial_range_is_default Sample.sampleURL
                     (fun _ => 2024%Z) Sample.parseSample
                     (fun _ => Ok {| status := 200;
                                        data := Sample.countOnlyBody |})
                     "https://democracy.lichfielddc.gov.uk/" None
                     "2024-03-01" 0%Z (Sample.emptyWorld 1700000000000))
              {| protocol := "https:";
                 hostname := "democracy.lichfielddc.gov.uk";
                 port := EmptyString |}
              138%Z eq_refl)
    as (request & Hout & _ & _ & _ & H2024).
  exists request. split; [exact Hout |]. apply H2024. reflexivity.
Defined.

(** ** The meetings operation: malformed bodies *)

Section MalformedFacts.

Variable parseStringPromise : string -> result jsval.

(** The detailed message of a pre-parse check never leaves
    [parseMeetingsResponse]: its own [catch] replaces it. *)
Lemma parseMeetingsResponse_rejected xmlString message :
  rejectMeetingsBody xmlString = Some message ->
  parseMeetingsResponse parseStringPromise xmlString
  = Throw "Failed to parse meetings response".
Proof.
  intros H. unfold parseMeetingsResponse. rewrite H. reflexivity.
Qed.

(** A body that one of the three checks rejects makes the meetings
    operation fail, with one of two fixed messages. *)
Lemma handleApiResponse_rejected body message :
  rejectMeetingsBody body = Some message ->
  handleApiResponse {| status := 200; data := body |}
    (parseMeetingsResponse parseStringPromise)
  = Throw ("API parsing failed: "
           ++ (if JsString.truthy body
               then "Failed to parse meetings response"
               else "No data received from API")).
Proof.
  intros H. unfold handleApiResponse. cbn [status data Z.eqb negb andb].
  destruct (JsString.truthy body); cbn [negb].
  - rewrite (parseMeetingsResponse_rejected _ _ H). reflexivity.
  - reflexivity.
Qed.

(** C2, at the body [Service Unavailable]: the check for non-XML bodies
    builds a message that quotes the body, but the operation fails with
    the fixed message of the [catch] clauses, which quotes nothing of
    it. *)
Theorem meetings_error_drops_excerpt :
  let body := "Service Unavailable" in
  rejectMeetingsBody body = Some (nonXmlMessage body)
  /\ includes (nonXmlMessage body) body = true
  /\ handleApiResponse {| status := 200; data := body |}
       (parseMeetingsResponse parseStringPromise)
     = Throw "API parsing failed: Failed to parse meetings response"
  /\ includes "API parsing failed: Failed to parse meetings response"
       "Service" = false.
Proof.
  intros body. split; [reflexivity |]. split; [reflexivity |].
  split; [| reflexivity].
  apply (handleApiResponse_rejected body (nonXmlMessage body)).
  reflexivity.
Qed.

(** The same for an HTML error page. *)
Example html_error_page_fails :
  handleApiResponse
    {| status := 200; data := "<html><title>Error</title></html>" |}
    (parseMeetingsResponse parseStringPromise)
  = Throw "API parsing failed: Failed to parse meetings response".
Proof.
  rewrite (handleApiResponse_rejected _
             (htmlErrorMessage "<html><title>Error</title></html>"))
    by reflexivity.
  reflexivity.
Qed.

(** ** The meetings normalizer: bodies without meetings *)

Lemma get_truthy v k : truthy v = true -> get v k = Ok (Spec.field v k).
Proof. destruct v; simpl; intros H; try discriminate; reflexivity. Qed.

Lemma parseByDateShape_not_flat fields :
  Spec.isFlatByDate (JObj fields) = false ->
  parseByDateShape (JObj fields) = Ok [].
Proof.
  unfold Spec.isFlatByDate, parseByDateShape. cbn [get bind Spec.field].
  destruct (truthy (lookupField "getmeetingsbydate" fields)) eqn:E;
    [| reflexivity].
  rewrite (get_truthy _ _ E). cbn [bind andb].
  intros ->. reflexivity.
Qed.

Lemma parseMeetingShapes_no_shape fields :
  Spec.isCommitteeNested (JObj fields) = false ->
  Spec.isFlatByDate (JObj fields) = false ->
  parseMeetingShapes (JObj fields) = Ok [].
Proof.
  unfold Spec.isCommitteeNested, parseMeetingShapes.
  cbn [get bind Spec.field].
  intros Hnested Hflat.
  destruct (truthy (lookupField "getmeetings" fields)) eqn:E.
  - rewrite !(get_truthy _ _ E). cbn [bind andb] in *.
    rewrite Hnested. cbn [bind].
    destruct (Spec.field _ "meetingscount"); try reflexivity.
    apply parseByDateShape_not_flat, Hflat.
  - apply parseByDateShape_not_flat, Hflat.
Qed.

(** C6: a body that passes the three checks and whose [getmeetings]
    root holds a meetings count and nothing else normalizes to the empty
    sequence, without an error; and so does every such body whose parse
    is an object of neither the committee-nested nor the flat by-date
    shape. *)
Theorem parseMeetingsResponse_no_meetings body :
  rejectMeetingsBody body = None ->
  (forall count : jsval,
      parseStringPromise body = Ok (Spec.countOnly count) ->
      parseMeetingsResponse parseStringPromise body = Ok [])
  /\ (forall fields : list (string * jsval),
         parseStringPromise body = Ok (JObj fields) ->
         Spec.isCommitteeNested (JObj fields) = false ->
         Spec.isFlatByDate (JObj fields) = false ->
         parseMeetingsResponse parseStringPromise body = Ok []).
Proof.
  intros Haccepted.
  assert (H : forall fields : list (string * jsval),
             parseStringPromise body = Ok (JObj fields) ->
             Spec.isCommitteeNested (JObj fields) = false ->
             Spec.isFlatByDate (JObj fields) = false ->
             parseMeetingsResponse parseStringPromise body = Ok []).
  { intros fields Hparse Hnested Hflat. unfold parseMeetingsResponse.
    rewrite Haccepted, Hparse. cbn [bind].
    rewrite (parseMeetingShapes_no_shape _ Hnested Hflat). reflexivity. }
  split; [| exact H].
  intros count Hparse. apply (H _ Hparse); reflexivity.
Qed.

End MalformedFacts.

(** The theorem at the count-only sample body and at a body of another
    operation. *)
Lemma parseMeetingsResponse_no_meetings_witness :
  parseMeetingsResponse Sample.parseSample Sample.countOnlyBody = Ok []
  /\ parseMeetingsResponse Sample.parseSample Sample.otherBody = Ok [].
Proof.
  split.
  - apply (proj1 (parseMeetingsResponse_no_meetings Sample.parseSample
                    Sample.countOnlyBody eq_refl) (JStr "0")).
    reflexivity.
  - apply (proj2 (parseMeetingsResponse_no_meetings Sample.parseSample
                    Sample.otherBody eq_refl)
             [("committees", JObj [("committee", JStr EmptyString)])]);
      reflexivity.
Defined.

(** ** The normalizers: every key of a record is defined *)

Section RecordFacts.

Variable parseStringPromise : string -> result jsval.

Lemma truthy_isDefined v : truthy v = true -> isDefined v = true.
Proof. destruct v; simpl; intros H; try discriminate; reflexivity. Qed.

Lemma isDefined_or v d : isDefined d = true -> isDefined (or v d) = true.
Proof.
  intros Hd. unfold or. destruct (truthy v) eqn:E.
  - apply truthy_isDefined, E.
  - exact Hd.
Qed.

Lemma mapM_Forall {A B} (f : A -> result B) (P : B -> Prop) :
  (forall x y, f x = Ok y -> P y) ->
  forall l l', mapM f l = Ok l' -> Forall P l'.
Proof.
  intros Hf. induction l as [| x l IH]; simpl; intros l' H.
  - injection H as <-. constructor.
  - destruct (f x) as [y |] eqn:Ex; simpl in H; [| discriminate].
    destruct (mapM f l) as [ys |] eqn:El; simpl in H; [| discriminate].
    injection H as <-. constructor; [eapply Hf, Ex | apply IH; reflexivity].
Qed.

Lemma tryCatch_Ok {A} (r : result A) message a :
  tryCatch r message = Ok a -> r = Ok a.
Proof. destruct r; simpl; intros H; [exact H | discriminate]. Qed.

(** A record literal whose values are all of the form [x || d]. *)
Ltac record_complete x H :=
  destruct x; simpl in H; try discriminate; injection H as <-;
  unfold Spec.hasFields, Spec.hasField, Spec.field; simpl;
  rewrite ?isDefined_or by reflexivity; reflexivity.

Lemma committeeRecord_complete x y :
  committeeRecord x = Ok y -> Spec.hasFields Spec.committeeFields y = true.
Proof. intros H. unfold committeeRecord, getOr in H. record_complete x H. Qed.

Lemma flatMeetingRecord_complete x y :
  flatMeetingRecord x = Ok y -> Spec.hasFields Spec.meetingFields y = true.
Proof. intros H. unfold flatMeetingRecord, getOr in H. record_complete x H. Qed.

Lemma nestedMeetingRecord_complete c x y :
  nestedMeetingRecord c x = Ok y ->
  Spec.hasFields Spec.meetingFields y = true.
Proof.
  intros H. unfold nestedMeetingRecord, getOr in H.
  destruct x; simpl in H; try discriminate;
    destruct c; simpl in H; try discriminate; injection H as <-;
    unfold Spec.hasFields, Spec.hasField, Spec.field; simpl;
    rewrite ?isDefined_or by reflexivity; reflexivity.
Qed.

Lemma eventRecord_complete x y :
  eventRecord x = Ok y -> Spec.hasFields Spec.eventFields y = true.
Proof. intros H. unfold eventRecord, getOr in H. record_complete x H. Qed.

Lemma parishCouncilRecord_complete x y :
  parishCouncilRecord x = Ok y ->
  Spec.hasFields Spec.parishCouncilFields y = true.
Proof.
  intros H. unfold parishCouncilRecord, getOr in H. record_complete x H.
Qed.

Lemma electionResultRecord_complete x y :
  electionResultRecord x = Ok y ->
  Spec.hasFields Spec.electionResultFields y = true.
Proof.
  intros H. unfold electionResultRecord, getOr in H. record_complete x H.
Qed.

Lemma webcastRecord_complete x y :
  webcastRecord x = Ok y -> Spec.hasFields Spec.webcastFields y = true.
Proof. intros H. unfold webcastRecord, getOr in H. record_complete x H. Qed.

Lemma webcastOfMeeting_complete x y :
  webcastOfMeeting x = Ok y -> Spec.hasFields Spec.webcastFields y = true.
Proof.
  intros H. unfold webcastOfMeeting, getOr in H. record_complete x H.
Qed.

Lemma mpRecord_complete x y :
  mpRecord x = Ok y -> Spec.hasFields Spec.mpFields y = true.
Proof. intros H. unfold mpRecord, getOr in H. record_complete x H. Qed.

Lemma wardRecord_complete x y :
  wardRecord x = Ok y -> Spec.wardComplete y = true.
Proof.
  intros H. unfold wardRecord, getOr in H.
  destruct (get x "wardtitle") as [t |] eqn:Et; simpl in H;
    [| discriminate].
  destruct (get x "councillors") as [cs |] eqn:Ecs; simpl in H;
    [| discriminate].
  destruct (getOpt cs "councillorcount") as [n |]; simpl in H;
    [| discriminate].
  destruct (getOpt cs "councillor") as [c |]; simpl in H;
    [| discriminate].
  injection H as <-.
  unfold Spec.wardComplete, Spec.hasFields, Spec.hasField, Spec.field.
  simpl. rewrite !isDefined_or by reflexivity.
  destruct (isArray c) eqn:Ea.
  - destruct c; try discriminate; reflexivity.
  - destruct (truthy c); reflexivity.
Qed.

(** Follows a normalizer that returned down to the branch it took. *)
Ltac follow H :=
  repeat match type of H with
    | bind ?r _ = Ok _ =>
        let E := fresh "E" in
        destruct r eqn:E; cbn [bind] in H; [| discriminate H]
    | (if ?b then _ else _) = Ok _ => destruct b
    | match ?v with JUndefined => _ | _ => _ end = Ok _ => destruct v
    end.

Lemma literal_complete l element record :
  Spec.literal l element = Ok record ->
  Spec.complete (Spec.kindOf l) record = true.
Proof.
  destruct l; cbn [Spec.literal Spec.kindOf Spec.complete].
  - apply wardRecord_complete.
  - apply committeeRecord_complete.
  - apply nestedMeetingRecord_complete.
  - apply flatMeetingRecord_complete.
  - apply eventRecord_complete.
  - apply parishCouncilRecord_complete.
  - apply electionResultRecord_complete.
  - apply webcastRecord_complete.
  - apply webcastOfMeeting_complete.
  - apply mpRecord_complete.
Qed.

(** Each literal fills its keys as the table of defaults says. *)
Lemma literal_holdsDefaults l element record :
  Spec.literal l element = Ok record ->
  Spec.holdsDefaults l element record.
Proof.
  intros H. destruct l; cbn [Spec.literal] in H.
  - unfold wardRecord, getOr in H.
    destruct element; simpl in H; try discriminate;
      try (injection H as <-; split; [repeat constructor | reflexivity]).
    unfold Spec.holdsDefaults, Spec.wardCouncillors.
    cbn [Spec.defaults Spec.field].
    destruct (lookupField "councillors" fields); simpl in H;
      injection H as <-; (split; [repeat constructor | reflexivity]).
  - unfold committeeRecord, getOr in H.
    destruct element; simpl in H; try discriminate; injection H as <-;
      (split; [repeat constructor | exact I]).
  - unfold nestedMeetingRecord, getOr in H.
    destruct element; simpl in H; try discriminate;
      destruct committee; simpl in H; try discriminate;
      injection H as <-; (split; [repeat constructor | exact I]).
  - unfold flatMeetingRecord, getOr in H.
    destruct element; simpl in H; try discriminate; injection H as <-;
      (split; [repeat constructor | exact I]).
  - unfold eventRecord, getOr in H.
    destruct element; simpl in H; try discriminate; injection H as <-;
      (split; [repeat constructor | exact I]).
  - unfold parishCouncilRecord, getOr in H.
    destruct element; simpl in H; try discriminate; injection H as <-;
      (split; [repeat constructor | exact I]).
  - unfold electionResultRecord, getOr in H.
    destruct element; simpl in H; try discriminate; injection H as <-;
      (split; [repeat constructor | exact I]).
  - unfold webcastRecord, getOr in H.
    destruct element; simpl in H; try discriminate; injection H as <-;
      (split; [repeat constructor | exact I]).
  - unfold webcastOfMeeting, getOr in H.
    destruct element; simpl in H; try discriminate; injection H as <-;
      (split; [repeat constructor | exact I]).
  - unfold mpRecord, getOr in H.
    destruct element; simpl in H; try discriminate; injection H as <-;
      (split; [repeat constructor | exact I]).
Qed.

(** What holds of a record built by a literal. *)
Lemma literal_built l element record :
  Spec.literal l element = Ok record ->
  Spec.complete (Spec.kindOf l) record = true
  /\ exists l' element',
       Spec.kindOf l' = Spec.kindOf l
       /\ Spec.literal l' element' = Ok record
       /\ Spec.holdsDefaults l' element' record.
Proof.
  intros H. split; [apply (literal_complete _ _ _ H) |].
  exists l, element. split; [reflexivity |].
  split; [exact H | apply literal_holdsDefaults, H].
Qed.

Ltac finish H l :=
  first [ injection H as <-; constructor
        | eapply mapM_Forall; [| exact H];
          intros x y Hxy; exact (literal_built l x y Hxy) ].

(** C3, amended: every element of a collection that a normalizer
    returns has each key of its record kind, with a value that is
    neither [undefined] nor [null], and is built by one of the record
    literals from an upstream element.  Each literal gives every key
    that it fills from an upstream field the value of that field, and
    when the field is absent or empty its default: the empty string,
    except ['Council Meeting'] for [meetingtitle] and an empty array
    for [results] and [wards]; [meetinglocation] is always the empty
    string.  A ward record holds its [councillors] object, whose
    [councillorcount] defaults to ['0'] and whose [councillor] is
    always an array.  The keys so described are all the keys of the
    record kind.  The councillor records inside that array are not
    covered. *)
Theorem normalizers_define_every_key :
  (forall (kind : Spec.RecordKind) (xmlData : string)
          (records : list jsval),
      Spec.normalizer kind parseStringPromise xmlData = Ok records ->
      Forall (fun record =>
                Spec.complete kind record = true
                /\ exists l element,
                     Spec.kindOf l = kind
                     /\ Spec.literal l element = Ok record
                     /\ Spec.holdsDefaults l element record)
        records)
  /\ (forall (l : Spec.RecordLiteral) (element record : jsval),
         Spec.literal l element = Ok record ->
         Spec.holdsDefaults l element record)
  /\ (forall l : Spec.RecordLiteral,
         Spec.describedKeys l = Spec.keysOf (Spec.kindOf l)).
Proof.
  split; [| split; [exact literal_holdsDefaults |
                    intros l; destruct l; reflexivity]].
  intros kind xmlData records H.
  destruct kind; cbn [Spec.normalizer] in *; apply tryCatch_Ok in H.
  - follow H; finish H Spec.WardLiteral.
  - follow H; finish H Spec.CommitteeLiteral.
  - destruct (rejectMeetingsBody xmlData); [discriminate |].
    unfold parseMeetingShapes, parseByDateShape in H.
    follow H;
      first [ finish H Spec.FlatMeetingLiteral
            | eapply mapM_Forall; [| exact H];
              intros x y Hxy;
              match type of Hxy with
              | nestedMeetingRecord ?c _ = _ =>
                  exact (literal_built (Spec.NestedMeetingLiteral c)
                           x y Hxy)
              end ].
  - follow H; finish H Spec.EventLiteral.
  - follow H; finish H Spec.ParishCouncilLiteral.
  - follow H; finish H Spec.ElectionResultLiteral.
  - follow H;
      first [ finish H Spec.WebcastLiteral
            | finish H Spec.WebcastOfMeetingLiteral ].
  - follow H; finish H Spec.MpLiteral.
Qed.

End RecordFacts.

(** The theorem at the sample wards body, and at a meeting element
    without children. *)
Lemma normalizers_define_every_key_witness :
  Forall (fun record => Spec.complete Spec.Wards record = true)
    [JObj [("wardtitle", JStr "Abbey");
           ("councillors",
            JObj [("councillorcount", JStr "1");
                  ("councillor",
                   JArr [JObj [("councillorid", JStr "7")]])])]]
  /\ Spec.holdsDefaults Spec.FlatMeetingLiteral (JObj [])
       (JObj [("meetingid", JStr EmptyString);
              ("meetingtitle", JStr "Council Meeting");
              ("meetingdate", JStr EmptyString);
              ("meetingtime", JStr EmptyString);
              ("meetinglocation", JStr EmptyString);
              ("committeeid", JStr EmptyString);
              ("committeetitle", JStr EmptyString)]).
Proof.
  split.
  - eapply Forall_impl;
      [apply (proj1 (normalizers_define_every_key Sample.parseSample)
                Spec.Wards Sample.wardsBody); reflexivity |].
    intros record H. exact (proj1 H).
  - apply (proj1 (proj2 (normalizers_define_every_key Sample.parseSample))
             Spec.FlatMeetingLiteral (JObj [])).
    reflexivity.
Defined.

(** The councillor of the sample wards body comes back without a
    [fullusername] key. *)
Lemma councillors_passed_through :
  ~ Spec.councillorsComplete Sample.parseSample.
Proof.
  intros H.
  specialize (H Sample.wardsBody _ eq_refl).
  apply Forall_inv in H. apply Forall_inv in H.
  discriminate H.
Qed.

(** C3, as stated, fails twice: the councillor records inside a ward
    are returned as they were parsed, so that a councillor without a
    [fullusername] element comes back without that key; and the
    default of a key is not always the empty string or ['0'], since a
    meeting element without [meetingstatus] gets the title ['Council
    Meeting']. *)
Lemma councillor_records_incomplete :
  ~ Spec.councillorsComplete Sample.parseSample
  /\ ~ Spec.emptyDefaults.
Proof.
  split; [exact councillors_passed_through |].
  intros H.
  specialize (H Spec.FlatMeetingLiteral (JObj []) _ eq_refl).
  cbn [Spec.defaults] in H.
  apply Forall_inv_tail, Forall_inv in H.
  destruct (H eq_refl) as [E | E]; discriminate E.
Qed.

(** ** The rate limiter *)

Section RateLimiterFacts.
Local Open Scope Z_scope.

Variable newURL : string -> option URL.

Lemma checkRateLimit_awaitTurn siteUrl u lateness w :
  newURL siteUrl = Some u ->
  checkRateLimit newURL siteUrl lateness w
  = Ok (awaitTurn (hostname u) lateness w).
Proof. intros H. unfold checkRateLimit. rewrite H. reflexivity. Qed.

(** A call records the time at which it lets the caller go. *)
Lemma awaitTurn_records domain lateness w :
  rateLimiter (awaitTurn domain lateness w) !! domain
  = Some (clock (awaitTurn domain lateness w)).
Proof. unfold awaitTurn. cbn [rateLimiter clock]. apply lookup_insert_eq. Qed.

(** A call leaves the entries of the other host names alone. *)
Lemma awaitTurn_other domain other lateness w :
  domain <> other ->
  rateLimiter (awaitTurn domain lateness w) !! other
  = rateLimiter w !! other.
Proof.
  intros Hne. unfold awaitTurn. cbn [rateLimiter].
  rewrite lookup_insert_ne by exact Hne.
  destruct (_ <? _); reflexivity.
Qed.

(** A call made less than the interval after the recorded time waits
    for what is left of the interval, and for the lateness of the
    timer. *)
Lemma awaitTurn_waits domain lateness w granted :
  rateLimiter w !! domain = Some granted ->
  clock w - granted < rateLimitMs ->
  clock (awaitTurn domain lateness w)
  = clock w + (rateLimitMs - (clock w - granted)) + lateness.
Proof.
  intros Hlast Hearly. unfold awaitTurn. cbv zeta.
  rewrite Hlast. cbn [from_option id].
  apply Z.ltb_lt in Hearly. rewrite Hearly. reflexivity.
Qed.

(** The time a call takes depends on the clock and on the entry of its
    own host name only. *)
Lemma delayOf_own_entry domain lateness w w' :
  clock w = clock w' ->
  rateLimiter w !! domain = rateLimiter w' !! domain ->
  Spec.delayOf domain lateness w = Spec.delayOf domain lateness w'.
Proof.
  intros Hclock Hentry. unfold Spec.delayOf, awaitTurn, sleep. cbv zeta.
  rewrite Hentry, Hclock.
  destruct (_ <? _); cbn [clock]; rewrite ?Hclock; reflexivity.
Qed.

(** C4, amended: of two calls in sequence for sites of one origin, the
    second, made [elapsed] milliseconds after the first was let go with
    [elapsed] below the interval of 1000, is held for at least the
    interval less [elapsed] and then records the time it is let go, so
    that the two recorded times are at least the interval apart; and a
    call for a site with another host name takes the same time as if the
    first call had not been recorded. *)
Theorem checkRateLimit_spacing
  (siteUrl1 siteUrl2 : string) (u1 u2 : URL)
  (lateness1 lateness2 elapsed : Z) (w : World) :
  newURL siteUrl1 = Some u1 ->
  newURL siteUrl2 = Some u2 ->
  0 <= lateness2 ->
  exists w1,
    checkRateLimit newURL siteUrl1 lateness1 w = Ok w1
    /\ (origin u1 = origin u2 ->
        elapsed < rateLimitMs ->
        exists w2,
          checkRateLimit newURL siteUrl2 lateness2
            (Spec.atTime (clock w1 + elapsed) w1) = Ok w2
          /\ rateLimitMs - elapsed <= clock w2 - (clock w1 + elapsed)
          /\ rateLimiter w2 !! hostname u2 = Some (clock w2)
          /\ clock w1 + rateLimitMs <= clock w2)
    /\ (hostname u1 <> hostname u2 ->
        rateLimiter w1 !! hostname u2 = rateLimiter w !! hostname u2
        /\ forall t : Z,
            Spec.delayOf (hostname u2) lateness2 (Spec.atTime t w1)
            = Spec.delayOf (hostname u2) lateness2 (Spec.atTime t w)).
Proof.
  intros Hu1 Hu2 Hlate.
  exists (awaitTurn (hostname u1) lateness1 w).
  split; [apply checkRateLimit_awaitTurn, Hu1 |]. split.
  - intros Horigin Hearly.
    assert (Hhost : hostname u1 = hostname u2).
    { unfold origin in Horigin. congruence. }
    set (w1 := awaitTurn (hostname u1) lateness1 w).
    set (w1' := Spec.atTime (clock w1 + elapsed) w1).
    exists (awaitTurn (hostname u2) lateness2 w1').
    split; [apply checkRateLimit_awaitTurn, Hu2 |].
    assert (Hclock : clock (awaitTurn (hostname u2) lateness2 w1')
                     = clock w1' + (rateLimitMs - (clock w1' - clock w1))
                       + lateness2).
    { apply awaitTurn_waits.
      - unfold w1', Spec.atTime. cbn [rateLimiter].
        rewrite <- Hhost. apply awaitTurn_records.
      - unfold w1', Spec.atTime. cbn [clock]. lia. }
    split; [| split; [apply awaitTurn_records |]];
      rewrite Hclock; unfold w1', Spec.atTime; cbn [clock]; lia.
  - intros Hne. split; [apply awaitTurn_other, Hne |].
    intros t. apply delayOf_own_entry; [reflexivity |].
    unfold Spec.atTime. cbn [rateLimiter]. apply awaitTurn_other, Hne.
Qed.

End RateLimiterFacts.

(** The theorem for two calls to the Lichfield site 300 milliseconds
    apart, and for a call to the Leeds site after one to the Lichfield
    site. *)
Lemma checkRateLimit_spacing_witness :
  (exists w1,
      checkRateLimit Sample.sampleURL
        "https://democracy.lichfielddc.gov.uk/" 0
        (Sample.emptyWorld 1700000000000) = Ok w1
      /\ exists w2,
          checkRateLimit Sample.sampleURL
            "https://democracy.lichfielddc.gov.uk/mgWebService.asmx?WSDL" 0
            (Spec.atTime (clock w1 + 300) w1) = Ok w2
          /\ (700 <= clock w2 - (clock w1 + 300))%Z)
  /\ (exists w1,
         checkRateLimit Sample.sampleURL
           "https://democracy.lichfielddc.gov.uk/" 0
           (Sample.emptyWorld 1700000000000) = Ok w1
         /\ rateLimiter w1 !! "democracy.leeds.gov.uk" = None).
Proof.
  split.
  - destruct (checkRateLimit_spacing Sample.sampleURL
                "https://democracy.lichfielddc.gov.uk/"
                "https://democracy.lichfielddc.gov.uk/mgWebService.asmx?WSDL"
                {| protocol := "https:";
                   hostname := "democracy.lichfielddc.gov.uk";
                   port := EmptyString |}
                {| protocol := "https:";
                   hostname := "democracy.lichfielddc.gov.uk";
                   port := EmptyString |}
                0%Z 0%Z 300%Z (Sample.emptyWorld 1700000000000)
                eq_refl eq_refl (Z.le_refl 0))
      as (w1 & Hw1 & Hsame & _).
    exists w1. split; [exact Hw1 |].
    destruct (Hsame eq_refl eq_refl) as (w2 & Hw2 & Hwait & _).
    exists w2. split; [exact Hw2 | exact Hwait].
  - destruct (checkRateLimit_spacing Sample.sampleURL
                "https://democracy.lichfielddc.gov.uk/"
                "https://democracy.leeds.gov.uk/"
                {| protocol := "https:";
                   hostname := "democracy.lichfielddc.gov.uk";
                   port := EmptyString |}
                {| protocol := "https:";
                   hostname := "democracy.leeds.gov.uk";
                   port := EmptyString |}
                0%Z 0%Z 300%Z (Sample.emptyWorld 1700000000000)
                eq_refl eq_refl (Z.le_refl 0))
      as (w1 & Hw1 & _ & Hother).
    exists w1. split; [exact Hw1 |].
    assert (Hne : "democracy.lichfielddc.gov.uk" <> "democracy.leeds.gov.uk")
      by discriminate.
    destruct (Hother Hne) as [Hentry _].
    cbn [hostname] in Hentry. rewrite Hentry. reflexivity.
Defined.

(** C4, as stated, fails for two distinct origins on one host: after a
    call for [https://x.org] a call for [http://x.org] is held for the
    whole interval, while it would not be held without the first. *)
Lemma distinct_origins_share_entry :
  ~ Spec.distinctOriginsIndependent.
Proof.
  intros H.
  specialize (H {| protocol := "https:"; hostname := "x.org";
                   port := EmptyString |}
                {| protocol := "http:"; hostname := "x.org";
                   port := EmptyString |}
                0%Z 0%Z (Sample.emptyWorld 5000)).
  cbv zeta in H.
  assert (Hne : origin {| protocol := "https:"; hostname := "x.org";
                          port := EmptyString |}
                <> origin {| protocol := "http:"; hostname := "x.org";
                             port := EmptyString |})
    by discriminate.
  specialize (H Hne). vm_compute in H. discriminate H.
Qed.

(** ** The endpoint resolver *)

Section StringFacts.
Local Arguments String.append s1 s2 : simpl nomatch.


Lemma append_assoc (a b c : string) : (a ++ b) ++ c = a ++ (b ++ c).
Proof. induction a as [| x a IH]; simpl; [| rewrite IH]; reflexivity. Qed.

Lemma prefix_append (p s : string) : String.prefix p (p ++ s) = true.
Proof.
  induction p as [| c p IH]; simpl.
  - destruct s; reflexivity.
  - destruct (ascii_dec c c) as [_ | Hne]; [exact IH | now elim Hne].
Qed.

Lemma prefix_other_head (a c : ascii) (p s : string) :
  c <> a -> String.prefix (String a p) (String c s) = false.
Proof.
  intros Hne. simpl.
  destruct (ascii_dec a c) as [-> | _]; [now elim Hne | reflexivity].
Qed.

Lemma includes_cons (c : ascii) (s sub : string) :
  includes (String c s) sub
  = String.prefix sub (String c s) || includes s sub.
Proof. reflexivity. Qed.

(** A string without the character [a]: its head is not [a] and its
    tail is without [a]. *)
Lemma includes_char_cons (a c : ascii) (s : string) :
  includes (String c s) (String a EmptyString) = false ->
  c <> a /\ includes s (String a EmptyString) = false.
Proof.
  rewrite includes_cons. intros H.
  apply orb_false_iff in H as [Hp Hs]. split; [| exact Hs].
  intros ->. simpl in Hp.
  destruct (ascii_dec a a) as [_ | Hne]; [| now elim Hne].
  destruct s; discriminate Hp.
Qed.






Lemma endsWith_unfold (s suf : string) :
  endsWith s suf
  = String.eqb s suf
    || match s with
       | EmptyString => false
       | String _ s' => endsWith s' suf
       end.
Proof. destruct s; reflexivity. Qed.



(** The text in front of a question mark is free of [?WSDL]. *)
Lemma replace_trailing_wsdl (u : string) :
  includes u "?" = false ->
  replace (u ++ "?WSDL") "?WSDL" EmptyString = u.
Proof.
  induction u as [| c u IH]; intros H.
  - reflexivity.
  - apply includes_char_cons in H as [Hc Hu].
    change (String c u ++ "?WSDL") with (String c (u ++ "?WSDL")).
    cbn [replace]. rewrite (prefix_other_head _ _ _ _ Hc), (IH Hu).
    reflexivity.
Qed.

Lemma stripTrailingSlash_append (u : string) :
  stripTrailingSlash (u ++ "/") = u.
Proof.
  induction u as [| c u IH].
  - reflexivity.
  - change (String c u ++ "/") with (String c (u ++ "/")).
    cbn [stripTrailingSlash]. rewrite IH.
    destruct (String.eqb (String c (u ++ "/")) "/") eqn:E; [| reflexivity].
    apply String.eqb_eq in E. destruct u; discriminate E.
Qed.

End StringFacts.





(** ** Worked examples *)

Example split_scheme :
  split "https://a.org/x/y" "://" = ["https"; "a.org/x/y"].
Proof. reflexivity. Qed.

Example split_ws_edges :
  splitWs " leeds  city " = [EmptyString; "leeds"; "city"; EmptyString].
Proof. reflexivity. Qed.

Example trim_both : trim "  a b  " = "a b".
Proof. reflexivity. Qed.

Example edit_distance_kitten : Sample.editDistance "kitten" "sitting" = 3.
Proof. reflexivity. Qed.

(** The scenario of the specification: with an edit-distance function
    in place of the import, [Leeds] against the sample list finds Leeds
    City Council by containment, with score 0.9 and tier [high]. *)
Example findBestMatch_leeds :
  findBestMatch (Some Sample.editDistance) Sample.sampleCouncils "Leeds"
  = Ok (Some {| match_council :=
                  {| council := "Leeds City Council";
                     url := "https://democracy.leeds.gov.uk";
                     region := "Yorkshire and Humber";
                     type := "Metropolitan" |};
                score := 0.9%Q;
                confidence := high |}).
Proof. vm_compute. reflexivity. Qed.

(** With the import undefined the same search throws when it comes to
    Lichfield District Council. *)
Example findBestMatch_leeds_undefined :
  exists message,
    findBestMatch None Sample.sampleCouncils "Leeds" = Throw message.
Proof. eexists. reflexivity. Qed.

(** A query made of no-break spaces is blank. *)
Example findBestMatch_no_break_space :
  findBestMatch None Sample.sampleCouncils
    (String (ascii_of_nat 160) EmptyString)
  = Ok None.
Proof. reflexivity. Qed.

(** With both dates given they are sent as they are. *)
Example getMeetingsParams_explicit :
  getMeetingsParams 2024 138 (Some "2024-03-01") (Some "2024-03-31")
  = [("lCommitteeId", JNum 138); ("sFromDate", JStr "2024-03-01");
     ("sToDate", JStr "2024-03-31")].
Proof. reflexivity. Qed.

(** A URL with [://] in its query takes the fall-back branch, which
    keeps the path. *)
Example getEndpointUrl_two_separators :
  getEndpointUrl "https://a.org/redirect?u=http://b.org" "GetMeetings"
  = "https://a.org/redirect?u=http://b.org/mgWebService.asmx/GetMeetings".
Proof. reflexivity. Qed.

(** The defaults that fill in for absent fields: an element without
    children gives a record of defaults. *)
Example wardRecord_defaults :
  wardRecord (JObj [])
  = Ok (JObj [("wardtitle", JStr EmptyString);
              ("councillors",
               JObj [("councillorcount", JStr "0");
                     ("councillor", JArr [])])]).
Proof. reflexivity. Qed.

Example flatMeetingRecord_defaults :
  flatMeetingRecord (JObj [])
  = Ok (JObj [("meetingid", JStr EmptyString);
              ("meetingtitle", JStr "Council Meeting");
              ("meetingdate", JStr EmptyString);
              ("meetingtime", JStr EmptyString);
              ("meetinglocation", JStr EmptyString);
              ("committeeid", JStr EmptyString);
              ("committeetitle", JStr EmptyString)]).
Proof. reflexivity. Qed.

Example electionResultRecord_defaults :
  electionResultRecord (JObj [])
  = Ok (JObj [("electionid", JStr EmptyString);
              ("electiontitle", JStr EmptyString);
              ("electiondate", JStr EmptyString);
              ("results", JArr [])]).
Proof. reflexivity. Qed.

(** The councillor of the sample wards body is returned as it was
    parsed. *)
Example parseCouncillorsResponse_sample :
  parseCouncillorsResponse Sample.parseSample Sample.wardsBody
  = Ok [JObj [("wardtitle", JStr "Abbey");
              ("councillors",
               JObj [("councillorcount", JStr "1");
                     ("councillor",
                      JArr [JObj [("councillorid", JStr "7")]])])]].
Proof. reflexivity. Qed.

(** A first call for a host, at any time after the first second of the
    epoch, is not held. *)
Example awaitTurn_first_call (domain : string) (lateness : Z) :
  clock (awaitTurn domain lateness (Sample.emptyWorld 1700000000000))
  = 1700000000000%Z.
Proof.
  unfold awaitTurn, Sample.emptyWorld. cbn [rateLimiter clock].
  rewrite lookup_empty. reflexivity.
Qed.

(** * Further properties *)

(** ** The similarity score and the best match *)

Section ScoreFacts.
Local Open Scope Q_scope.

Variable levenshtein : option (string -> string -> nat).
Variable councils : list CouncilInfo.

Lemma wordMatches_step_le (councilWords queryWords : list string) (n : nat) :
  (fold_left
     (fun n queryWord =>
        if existsb (fun councilWord =>
                      String.eqb queryWord councilWord
                      || includes councilWord queryWord
                      || includes queryWord councilWord) councilWords
        then S n else n)
     queryWords n
   <= n + List.length queryWords)%nat.
Proof.
  revert n. induction queryWords as [| w ws IH]; intros n; cbn [fold_left].
  - simpl. lia.
  - destruct (existsb _ councilWords).
    + specialize (IH (S n)). simpl. lia.
    + specialize (IH n). simpl. lia.
Qed.

Lemma wordMatches_le (queryWords councilWords : list string) :
  (wordMatches queryWords councilWords <= List.length queryWords)%nat.
Proof. apply (wordMatches_step_le councilWords queryWords 0). Qed.

Lemma ofNat_nonneg (n : nat) : 0 <= ofNat n.
Proof.
  unfold ofNat. change 0 with (inject_Z 0). rewrite <- Zle_Qle. lia.
Qed.

(** A ratio of two counts, the upper one no greater than the lower. *)
Lemma ratio_range (n m : nat) :
  (n <= m)%nat -> 0 <= ofNat n / ofNat m /\ ofNat n / ofNat m <= 1.
Proof.
  intros Hle. destruct m as [| m].
  - assert (n = 0%nat) as -> by lia. split; discriminate.
  - assert (Hpos : 0 < ofNat (S m)).
    { unfold ofNat. change 0 with (inject_Z 0). rewrite <- Zlt_Qlt. lia. }
    split.
    + apply Qle_shift_div_l; [exact Hpos |].
      rewrite Qmult_0_l. apply ofNat_nonneg.
    + apply Qle_shift_div_r; [exact Hpos |].
      rewrite Qmult_1_l. unfold ofNat. rewrite <- Zle_Qle. lia.
Qed.

Lemma ratio_nonneg (n m : nat) : 0 <= ofNat n / ofNat m.
Proof.
  destruct m as [| m].
  - unfold Qdiv. change (/ ofNat 0) with 0. rewrite Qmult_0_r. discriminate.
  - apply Qle_shift_div_l.
    + unfold ofNat. change 0 with (inject_Z 0). rewrite <- Zlt_Qlt. lia.
    + rewrite Qmult_0_l. apply ofNat_nonneg.
Qed.

Lemma Math_max_range (a b : Q) :
  0 <= a -> a <= 1 -> b <= 1 ->
  0 <= Math_max a b /\ Math_max a b <= 1.
Proof.
  intros Ha0 Ha1 Hb1. unfold Math_max.
  destruct (Qle_bool a b) eqn:E.
  - apply Qle_bool_iff in E. split; [lra | exact Hb1].
  - split; assumption.
Qed.

(** Whenever [calculateSimilarity] returns, whatever the imported
    function is, the score lies between 0 and 1.  With the import
    undefined it returns exactly for the names that are equal up to
    case, or of which one contains the other, with the score 1.0 or
    0.9, and throws for every other pair. *)
Theorem calculateSimilarity_range (query councilName : string) :
  (forall s : Q,
      calculateSimilarity levenshtein query councilName = Ok s ->
      0 <= s /\ s <= 1)
  /\ match calculateSimilarity None query councilName with
     | Ok s => Spec.apart query councilName = false
               /\ (s = 1.0 \/ s = 0.9)
     | Throw _ => Spec.apart query councilName = true
     end.
Proof.
  split.
  - intros s. unfold calculateSimilarity.
    destruct (String.eqb _ _).
    { intros H. injection H as <-. split; discriminate. }
    destruct (_ || _).
    { intros H. injection H as <-. split; discriminate. }
    cbv zeta. unfold callLevenshtein.
    destruct levenshtein as [distance |]; [| discriminate].
    cbn [bind]. intros H. injection H as <-.
    apply Math_max_range.
    + apply ratio_nonneg.
    + apply ratio_range.
      etransitivity; [apply wordMatches_le |]. apply Nat.le_max_l.
    + pose proof (ratio_nonneg
                    (distance (toLowerCase query) (toLowerCase councilName))
                    (Nat.max (String.length (toLowerCase query))
                             (String.length (toLowerCase councilName)))).
      lra.
  - rewrite calculateSimilarity_undefined.
    destruct (Spec.apart query councilName); [reflexivity |].
    split; [reflexivity |].
    destruct (String.eqb _ _); [left | right]; reflexivity.
Qed.

Lemma toLowerCase_append (a b : string) :
  toLowerCase (a ++ b) = toLowerCase a ++ toLowerCase b.
Proof.
  induction a as [| c a IH]; [reflexivity |].
  change (String c a ++ b) with (String c (a ++ b)).
  cbn [toLowerCase]. rewrite IH. reflexivity.
Qed.

Lemma includes_unfold (s sub : string) :
  includes s sub
  = String.prefix sub s
    || match s with
       | EmptyString => false
       | String _ s' => includes s' sub
       end.
Proof. destruct s; reflexivity. Qed.

Lemma includes_infix (pre mid post : string) :
  includes (pre ++ mid ++ post) mid = true.
Proof.
  induction pre as [| c pre IH].
  - change (EmptyString ++ mid ++ post) with (mid ++ post).
    rewrite includes_unfold, prefix_append. reflexivity.
  - change (String c pre ++ mid ++ post)
      with (String c (pre ++ mid ++ post)).
    rewrite includes_cons, IH. apply orb_true_r.
Qed.

(** A query that occurs inside the council name in any letter case, or
    that has the council name inside it, scores 1.0 or 0.9 and so gets
    the tier [exact] or [high]; the score is returned whatever the
    imported function is. *)
Theorem calculateSimilarity_containment
  (query councilName pre mid post : string) :
  (councilName = pre ++ mid ++ post /\ toLowerCase mid = toLowerCase query)
  \/ (query = pre ++ mid ++ post
      /\ toLowerCase mid = toLowerCase councilName) ->
  exists s : Q,
    calculateSimilarity levenshtein query councilName = Ok s
    /\ (s = 1.0 \/ s = 0.9)
    /\ (getConfidence s = exact \/ getConfidence s = high).
Proof.
  intros H.
  assert (Hin : includes (toLowerCase councilName) (toLowerCase query)
                || includes (toLowerCase query) (toLowerCase councilName)
                = true).
  { destruct H as [[-> Hmid] | [-> Hmid]]; rewrite <- Hmid;
      rewrite !toLowerCase_append, includes_infix;
      [reflexivity | apply orb_true_r]. }
  unfold calculateSimilarity.
  destruct (String.eqb _ _).
  - exists 1.0. split; [reflexivity |]. split; left; reflexivity.
  - rewrite Hin. exists 0.9. split; [reflexivity |].
    split; right; reflexivity.
Qed.

End ScoreFacts.

(** The theorem for [leeds] against Leeds City Council, with the import
    undefined. *)
Lemma calculateSimilarity_range_witness :
  (0 <= 0.9 /\ 0.9 <= 1)%Q.
Proof.
  apply (proj1 (calculateSimilarity_range None "leeds"
                  "Leeds City Council") 0.9%Q).
  reflexivity.
Defined.

(** The theorem for [leeds] inside Leeds City Council, with the import
    undefined. *)
Lemma calculateSimilarity_containment_witness :
  exists s : Q,
    calculateSimilarity None "leeds" "Leeds City Council" = Ok s
    /\ (s = 1.0%Q \/ s = 0.9%Q)
    /\ (getConfidence s = exact \/ getConfidence s = high).
Proof.
  apply (calculateSimilarity_containment None
           "leeds" "Leeds City Council" EmptyString "Leeds" " City Council").
  left. split; reflexivity.
Defined.

Section BestMatchFacts.
Local Open Scope Q_scope.

Variable levenshtein : option (string -> string -> nat).
Variable councils : list CouncilInfo.

(** The updates of [bestMatch] over a list of matches: what they end
    with is the start value or one of the matches, and no match of the
    list and no start value scores more. *)
Lemma better_fold ms init b :
  fold_left Spec.better ms init = Some b ->
  (init = Some b \/ In b ms)
  /\ (forall m, In m ms -> score m <= score b)
  /\ (forall b0, init = Some b0 -> score b0 <= score b).
Proof.
  revert init. induction ms as [| m ms IH]; intros init H;
    cbn [fold_left] in H.
  - split; [left; exact H |]. split; [intros m [] |].
    intros b0 Hb0. rewrite H in Hb0. injection Hb0 as ->. lra.
  - apply IH in H as (Hfrom & Hall & Hinit). unfold Spec.better in *.
    destruct init as [b0 |].
    + destruct (Qle_bool (score m) (score b0)) eqn:E.
      * apply Qle_bool_iff in E.
        pose proof (Hinit b0 eq_refl) as Hb0.
        split; [| split].
        -- destruct Hfrom as [-> | Hin];
             [left; reflexivity | right; right; exact Hin].
        -- intros m' [<- | Hin]; [lra | apply Hall, Hin].
        -- intros b1 Hb1. injection Hb1 as <-. exact Hb0.
      * assert (Hlt : score b0 < score m).
        { apply Qnot_le_lt. intros Hle. apply Qle_bool_iff in Hle.
          congruence. }
        pose proof (Hinit _ eq_refl) as Hc.
        split; [| split].
        -- right. destruct Hfrom as [Hb | Hin].
           ++ injection Hb as <-. left; reflexivity.
           ++ right; exact Hin.
        -- intros m' [<- | Hin]; [exact Hc | apply Hall, Hin].
        -- intros b1 Hb1. injection Hb1 as <-. lra.
    + pose proof (Hinit _ eq_refl) as Hc.
      split; [| split].
      * right. destruct Hfrom as [Hb | Hin].
        -- injection Hb as <-. left; reflexivity.
        -- right; exact Hin.
      * intros m' [<- | Hin]; [exact Hc | apply Hall, Hin].
      * intros b1 Hb1. discriminate Hb1.
Qed.

Lemma better_some ms b :
  exists b', fold_left Spec.better ms (Some b) = Some b'.
Proof.
  revert b. induction ms as [| m ms IH]; intros b; cbn [fold_left].
  - exists b. reflexivity.
  - unfold Spec.better at 2. destruct (Qle_bool _ _); apply IH.
Qed.

Lemma Forall2_In_r {A B} (R : A -> B -> Prop) l l' b :
  Forall2 R l l' -> In b l' -> exists a, In a l /\ R a b.
Proof.
  induction 1 as [| a b' l l' Hab _ IH]; intros Hin; [destruct Hin |].
  destruct Hin as [<- | Hin].
  - exists a. split; [left; reflexivity | exact Hab].
  - destruct (IH Hin) as (a' & Ha' & HR).
    exists a'. split; [right; exact Ha' | exact HR].
Qed.

Lemma Forall2_In_l {A B} (R : A -> B -> Prop) l l' a :
  Forall2 R l l' -> In a l -> exists b, In b l' /\ R a b.
Proof.
  induction 1 as [| a' b l l' Hab _ IH]; intros Hin; [destruct Hin |].
  destruct Hin as [<- | Hin].
  - exists b. split; [left; reflexivity | exact Hab].
  - destruct (IH Hin) as (b' & Hb' & HR).
    exists b'. split; [right; exact Hb' | exact HR].
Qed.

Lemma findBestMatch_unfold query :
  findBestMatch levenshtein councils query
  = if Spec.blank query then Ok None
    else do ms <- mapM (Spec.matchOf levenshtein query) councils;
         Ok (fold_left Spec.better ms None).
Proof.
  unfold findBestMatch. rewrite bestAmong_better. reflexivity.
Qed.

(** [findBestMatch] returns [null] exactly for a blank query or an
    empty list; a match that it returns is the match of a listed
    council, with the tier of its score, and every listed council has
    been scored and scores no more. *)
Theorem findBestMatch_greatest (query : string) :
  (findBestMatch levenshtein councils query = Ok None
   <-> trim query = EmptyString \/ councils = [])
  /\ (forall b,
         findBestMatch levenshtein councils query = Ok (Some b) ->
         (exists c, In c councils
                    /\ Spec.matchOf levenshtein query c = Ok b)
         /\ confidence b = getConfidence (score b)
         /\ forall c, In c councils ->
                      exists m, Spec.matchOf levenshtein query c = Ok m
                                /\ score m <= score b).
Proof.
  rewrite findBestMatch_unfold.
  destruct (Spec.blank query) eqn:Eblank.
  - split.
    + split; [intros _; left; apply blank_iff, Eblank | reflexivity].
    + intros b H. discriminate H.
  - assert (Hnot : trim query <> EmptyString).
    { intros H. apply blank_iff in H. congruence. }
    destruct (mapM (Spec.matchOf levenshtein query) councils)
      as [ms | message] eqn:Ems; cbn [bind].
    + apply mapM_Forall2 in Ems. split.
      * split.
        -- intros H. right. injection H as H.
           destruct ms as [| m ms]; [inversion Ems; reflexivity |].
           cbn [fold_left Spec.better] in H.
           destruct (better_some ms m) as [b' Hb']. congruence.
        -- intros [H | ->]; [contradiction |].
           inversion Ems. reflexivity.
      * intros b H. injection H as H.
        apply better_fold in H as (Hfrom & Hall & _).
        destruct Hfrom as [H | Hin]; [discriminate H |].
        destruct (Forall2_In_r _ _ _ _ Ems Hin) as (c & Hc & Hcb).
        split; [exists c; split; assumption |].
        split; [apply (matchOf_tier _ _ _ _ Hcb) |].
        intros c' Hc'.
        destruct (Forall2_In_l _ _ _ _ Ems Hc') as (m & Hm & Hcm).
        exists m. split; [exact Hcm | apply Hall, Hm].
    + split.
      * split; [discriminate |].
        intros [H | ->]; [contradiction | discriminate Ems].
      * intros b H. discriminate H.
Qed.

End BestMatchFacts.

(** The theorem for [council] over the sample list, with the import
    undefined: Leeds City Council, the first of the two councils that
    score 0.9, is returned. *)
Lemma findBestMatch_greatest_witness :
  Forall (fun c =>
            exists m, Spec.matchOf None "council" c = Ok m
                      /\ (score m <= 0.9)%Q)
    Sample.sampleCouncils.
Proof.
  assert (E : findBestMatch None Sample.sampleCouncils "council"
              = Ok (Some {| match_council :=
                              {| council := "Leeds City Council";
                                 url := "https://democracy.leeds.gov.uk";
                                 region := "Yorkshire and Humber";
                                 type := "Metropolitan" |};
                            score := 0.9;
                            confidence := high |}))
    by (vm_compute; reflexivity).
  apply Forall_forall. intros c Hc. apply list_elem_of_In in Hc.
  exact (proj2 (proj2 (proj2 (findBestMatch_greatest None
                                Sample.sampleCouncils "council") _ E))
           c Hc).
Defined.

(** ** The first of the matches found is the best match *)

Section HeadFacts.
Local Open Scope Q_scope.

Variable levenshtein : option (string -> string -> nat).
Variable councils : list CouncilInfo.

Lemma comparator_sign (x y : CouncilMatch) :
  Qle_bool (Spec.scoreComparator x y) 0 = Qle_bool (score y) (score x).
Proof.
  unfold Spec.scoreComparator.
  destruct (Qle_bool (score y) (score x)) eqn:E.
  - apply Qle_bool_iff in E. apply Qle_bool_iff. lra.
  - destruct (Qle_bool (score y - score x) 0) eqn:E'; [| reflexivity].
    apply Qle_bool_iff in E'.
    assert (H : score y <= score x) by lra.
    apply Qle_bool_iff in H. congruence.
Qed.

(** The head of the sorted list, from the head of the sorted tail. *)
Lemma head_sort_cons (x : CouncilMatch) (l : list CouncilMatch) :
  hd_error (sort Spec.scoreComparator (x :: l))
  = Some match hd_error (sort Spec.scoreComparator l) with
         | None => x
         | Some y => if Qle_bool (score y) (score x) then x else y
         end.
Proof.
  cbn [sort fold_right]. fold (sort Spec.scoreComparator l).
  destruct (sort Spec.scoreComparator l) as [| y l']; [reflexivity |].
  cbn [insert hd_error]. rewrite comparator_sign.
  destruct (Qle_bool (score y) (score x)); reflexivity.
Qed.

Lemma Qle_bool_false (a b : Q) : Qle_bool a b = false -> b < a.
Proof.
  intros E. apply Qnot_le_lt. intros H. apply Qle_bool_iff in H. congruence.
Qed.

Ltac decide_le a b :=
  let E := fresh "E" in
  destruct (Qle_bool a b) eqn:E;
  [apply Qle_bool_iff in E | apply Qle_bool_false in E].

(** The loop from the left and the sort from the right choose the same
    match: the first of those with the greatest score. *)
Lemma better_loop (l : list CouncilMatch) (b : CouncilMatch) :
  fold_left Spec.better l (Some b)
  = Some match hd_error (sort Spec.scoreComparator l) with
         | None => b
         | Some y => if Qle_bool (score y) (score b) then b else y
         end.
Proof.
  revert b. induction l as [| x l IH]; intros b; [reflexivity |].
  cbn [fold_left]. unfold Spec.better at 2. rewrite head_sort_cons.
  destruct (hd_error (sort Spec.scoreComparator l)) as [y |] eqn:Ehd.
  - decide_le (score x) (score b); rewrite IH;
      decide_le (score y) (score x); decide_le (score y) (score b);
      try reflexivity; try lra;
      decide_le (score x) (score b); try reflexivity; lra.
  - decide_le (score x) (score b); rewrite IH; reflexivity.
Qed.

Lemma better_is_head (l : list CouncilMatch) :
  fold_left Spec.better l None = hd_error (sort Spec.scoreComparator l).
Proof.
  destruct l as [| x l]; [reflexivity |].
  cbn [fold_left Spec.better]. rewrite better_loop, head_sort_cons.
  reflexivity.
Qed.

Lemma head_sort_In (l : list CouncilMatch) (y : CouncilMatch) :
  hd_error (sort Spec.scoreComparator l) = Some y -> In y l.
Proof.
  intros H. apply list_elem_of_In.
  rewrite <- (sort_Permutation Spec.scoreComparator l).
  destruct (sort Spec.scoreComparator l); [discriminate H |].
  injection H as ->. left.
Qed.

(** Dropping the matches below the minimum does not change the head,
    as long as one match is left. *)
Lemma head_sort_filter (minScore : Q) (l : list CouncilMatch) :
  List.filter (fun m => Qle_bool minScore (score m)) l <> [] ->
  hd_error (sort Spec.scoreComparator
              (List.filter (fun m => Qle_bool minScore (score m)) l))
  = hd_error (sort Spec.scoreComparator l).
Proof.
  induction l as [| x l IH]; intros Hne; [reflexivity |].
  cbn [List.filter] in *.
  decide_le minScore (score x).
  - rewrite !head_sort_cons. f_equal.
    destruct (List.filter (fun m => Qle_bool minScore (score m)) l)
      as [| z l'] eqn:Ef.
    + cbn [sort fold_right hd_error].
      destruct (hd_error (sort Spec.scoreComparator l)) as [y |] eqn:Ehd;
        [| reflexivity].
      apply head_sort_In in Ehd.
      assert (Hy : Qle_bool minScore (score y) = false).
      { destruct (Qle_bool minScore (score y)) eqn:Ey; [| reflexivity].
        assert (Hin : In y (List.filter
                              (fun m => Qle_bool minScore (score m)) l))
          by (apply filter_In; split; assumption).
        rewrite Ef in Hin. destruct Hin. }
      apply Qle_bool_false in Hy.
      decide_le (score y) (score x); [reflexivity | lra].
    + rewrite IH by discriminate. reflexivity.
  - rewrite IH by exact Hne. rewrite head_sort_cons.
    destruct (hd_error (sort Spec.scoreComparator l)) as [y |] eqn:Ehd.
    + f_equal.
      assert (Hy : In y (List.filter
                           (fun m => Qle_bool minScore (score m)) l)).
      { apply head_sort_In. apply IH, Hne. }
      apply filter_In in Hy as [_ Hy]. apply Qle_bool_iff in Hy.
      decide_le (score y) (score x); [lra | reflexivity].
    + exfalso.
      destruct (List.filter (fun m => Qle_bool minScore (score m)) l)
        as [| z l'] eqn:Ef; [now apply Hne |].
      assert (Hz : In z l).
      { assert (Hin : In z (List.filter
                              (fun m => Qle_bool minScore (score m)) l))
          by (rewrite Ef; left; reflexivity).
        apply filter_In in Hin. apply Hin. }
      apply list_elem_of_In in Hz.
      rewrite <- (sort_Permutation Spec.scoreComparator l) in Hz.
      destruct (sort Spec.scoreComparator l); [| discriminate Ehd].
      inversion Hz.
Qed.

(** Whenever [findMatches] returns a list that is not empty, whatever
    the minimum score, [findBestMatch] returns for the same query, and
    what it returns is the first match of the list. *)
Theorem findMatches_head_is_best
  (query : string) (minScore : Q) (m : CouncilMatch)
  (rest : list CouncilMatch) :
  findMatches levenshtein councils query minScore = Ok (m :: rest) ->
  findBestMatch levenshtein councils query = Ok (Some m).
Proof.
  rewrite findBestMatch_unfold. unfold findMatches.
  destruct (Spec.blank query) eqn:Hblank.
  - unfold findMatchesWhere.
    change (negb (JsString.truthy query)
            || Nat.eqb (String.length (trim query)) 0)
      with (Spec.blank query).
    rewrite Hblank. intros H. discriminate H.
  - rewrite (findMatchesWhere_filter levenshtein councils _ _ Hblank).
    destruct (mapM (Spec.matchOf levenshtein query) councils)
      as [ms | message]; [| discriminate].
    cbn [bind]. intros H. injection H as H.
    rewrite better_is_head, <- (head_sort_filter minScore).
    + rewrite H. reflexivity.
    + intros Hempty. rewrite Hempty in H. discriminate H.
Qed.

(** Whenever [findMatches] returns, the matches are sorted by score,
    highest first, each reaches the minimum score and carries the tier
    of its score; for a query that is not blank every council has been
    scored and the result holds, up to order, exactly the matches that
    reach the minimum score; for a blank query it is empty. *)
Theorem findMatches_keeps_all
  (query : string) (minScore : Q) (found : list CouncilMatch) :
  findMatches levenshtein councils query minScore = Ok found ->
  StronglySorted Spec.byScoreDescending found
  /\ Forall (fun m => minScore <= score m
                      /\ confidence m = getConfidence (score m)) found
  /\ (Spec.blank query = false ->
      exists ms,
        mapM (Spec.matchOf levenshtein query) councils = Ok ms
        /\ Permutation found
             (List.filter (fun m => Qle_bool minScore (score m)) ms))
  /\ (Spec.blank query = true -> found = []).
Proof.
  intros H.
  destruct (findMatchesWhere_members levenshtein councils _ _ _ H)
    as [Hsorted Hmembers].
  split; [exact Hsorted |]. split; [| split].
  - eapply Forall_impl; [exact Hmembers |].
    intros m [Hscore Htier]. split; [| exact Htier].
    apply Qle_bool_iff, Hscore.
  - intros Hblank. unfold findMatches in H.
    rewrite (findMatchesWhere_filter levenshtein councils _ _ Hblank) in H.
    destruct (mapM (Spec.matchOf levenshtein query) councils)
      as [ms | message]; [| discriminate H].
    cbn [bind] in H. injection H as <-.
    exists ms. split; [reflexivity |]. apply sort_Permutation.
  - intros Hblank. unfold findMatches, findMatchesWhere in H.
    change (negb (JsString.truthy query)
            || Nat.eqb (String.length (trim query)) 0)
      with (Spec.blank query) in H.
    rewrite Hblank in H. injection H as <-. reflexivity.
Qed.

End HeadFacts.

(** The theorem for [council] over the sample list, with the import
    undefined. *)
Lemma findMatches_head_is_best_witness :
  option_map (fun b => council (match_council b))
    match findBestMatch None Sample.sampleCouncils "council" with
    | Ok b => b
    | Throw _ => None
    end
  = Some "Leeds City Council".
Proof.
  assert (E : exists m rest,
             findMatches None Sample.sampleCouncils "council" 0.3%Q
             = Ok (m :: rest)
             /\ council (match_council m) = "Leeds City Council").
  { eexists. eexists. split; [vm_compute; reflexivity | reflexivity]. }
  destruct E as (m & rest & E & Hname).
  rewrite (findMatches_head_is_best None Sample.sampleCouncils _ _ _ _ E).
  cbn [option_map]. rewrite Hname. reflexivity.
Defined.

(** The theorem for [council] over the sample list, with the import
    undefined: both councils are found, with the same score. *)
Lemma findMatches_keeps_all_witness :
  exists found,
    findMatches None Sample.sampleCouncils "council" 0.3%Q = Ok found
    /\ StronglySorted Spec.byScoreDescending found
    /\ Forall (fun m => (0.3 <= score m)%Q
                        /\ confidence m = getConfidence (score m)) found.
Proof.
  assert (E : exists found,
             findMatches None Sample.sampleCouncils "council" 0.3%Q
             = Ok found).
  { eexists. vm_compute. reflexivity. }
  destruct E as (found & E). exists found. split; [exact E |].
  destruct (findMatches_keeps_all None Sample.sampleCouncils
              "council" 0.3%Q found E) as (Hsorted & Hmembers & _).
  split; [exact Hsorted | exact Hmembers].
Defined.

(** ** Search by region and by type *)

Section RegionFacts.

Variable councils : list CouncilInfo.

Lemma includes_empty (s : string) : includes s EmptyString = true.
Proof. rewrite includes_unfold. destruct s; reflexivity. Qed.

Lemma filter_all {A} (p : A -> bool) (l : list A) :
  (forall x, p x = true) -> List.filter p l = l.
Proof.
  intros Hp. induction l as [| x l IH]; [reflexivity |].
  cbn [List.filter]. rewrite Hp, IH. reflexivity.
Qed.

(** Searching by region or by type lists, in the order of the reference
    list, every council whose field contains the query in any letter
    case; the empty query therefore lists every council; and nothing
    outside the reference list is ever listed. *)
Theorem findBy_containment :
  (forall (query : string) (c : CouncilInfo) (pre mid post : string),
      In c councils ->
      region c = pre ++ mid ++ post ->
      toLowerCase mid = toLowerCase query ->
      In c (findByRegion councils query))
  /\ (forall (query : string) (c : CouncilInfo) (pre mid post : string),
         In c councils ->
         type c = pre ++ mid ++ post ->
         toLowerCase mid = toLowerCase query ->
         In c (findByType councils query))
  /\ findByRegion councils EmptyString = councils
  /\ findByType councils EmptyString = councils
  /\ (forall query,
         sublist (findByRegion councils query) councils
         /\ sublist (findByType councils query) councils).
Proof.
  split; [| split; [| split; [| split]]].
  - intros query c pre mid post Hin Hregion Hmid.
    unfold findByRegion. apply filter_In. split; [exact Hin |].
    rewrite Hregion, <- Hmid, !toLowerCase_append, includes_infix.
    reflexivity.
  - intros query c pre mid post Hin Htype Hmid.
    unfold findByType. apply filter_In. split; [exact Hin |].
    rewrite Htype, <- Hmid, !toLowerCase_append, includes_infix.
    reflexivity.
  - unfold findByRegion. apply filter_all. intros c.
    cbn [toLowerCase]. rewrite includes_empty. reflexivity.
  - unfold findByType. apply filter_all. intros c.
    cbn [toLowerCase]. rewrite includes_empty. reflexivity.
  - intros query. unfold findByRegion, findByType.
    split; induction councils as [| c cs IH]; cbn [List.filter];
      first [ apply sublist_nil
            | match goal with
              | |- context [if ?b then _ else _] =>
                  destruct b; [apply sublist_skip | apply sublist_cons];
                  exact IH
              end ].
Qed.

End RegionFacts.

(** The theorem for [midlands] over the sample list. *)
Lemma findBy_containment_witness :
  In {| council := "Lichfield District Council";
        url := "https://democracy.lichfielddc.gov.uk";
        region := "West Midlands";
        type := "District" |}
     (findByRegion Sample.sampleCouncils "midlands").
Proof.
  apply (proj1 (findBy_containment Sample.sampleCouncils) "midlands" _
           "West " "Midlands" EmptyString).
  - right. left. reflexivity.
  - reflexivity.
  - reflexivity.
Defined.

(** ** The operations of the client *)

Section OperationFacts.

Variable newURL : string -> option URL.
Variable getFullYear : Z -> Z.
Variable parseStringPromise : string -> result jsval.
Variable server : Request -> result Response.

Lemma truthy_nonempty (s : string) :
  JsString.truthy s = true <-> s <> EmptyString.
Proof.
  unfold JsString.truthy. rewrite negb_true_iff. apply String.eqb_neq.
Qed.

(** [handleApiResponse] gives a result exactly when the status is 200
    (or absent, here 0), the body is not empty and the parser accepts
    it; any other status is refused without the parser being asked; and
    every error it raises carries the same prefix. *)
Theorem handleApiResponse_outcomes
  {T} (response : Response) (parser : string -> result T) :
  (forall a : T,
      handleApiResponse response parser = Ok a
      <-> (status response = 0%Z \/ status response = 200%Z)
          /\ data response <> EmptyString
          /\ parser (data response) = Ok a)
  /\ (status response <> 0%Z ->
      status response <> 200%Z ->
      handleApiResponse response parser
      = Throw ("API parsing failed: API request failed with status code "
               ++ numberToString (status response)))
  /\ (forall m : string,
         handleApiResponse response parser = Throw m ->
         exists cause, m = "API parsing failed: " ++ cause).
Proof.
  unfold handleApiResponse.
  destruct (Z.eqb_spec (status response) 0) as [H0 | H0];
    destruct (Z.eqb_spec (status response) 200) as [H200 | H200];
    cbn [negb andb];
    try (destruct (JsString.truthy (data response)) eqn:Ed; cbn [negb];
         [apply truthy_nonempty in Ed
         | assert (Hd : data response = EmptyString)
             by (unfold JsString.truthy in Ed;
                 apply negb_false_iff, String.eqb_eq in Ed; exact Ed)]);
    try (destruct (parser (data response)) as [a0 | m0] eqn:Ep).
  all: split; [| split].
  all: try (intros a; split;
            [ intros H; try discriminate H;
              try (injection H as <-; tauto)
            | intros (Hs & Hne & Hp); try congruence;
              try (destruct Hs; congruence) ]).
  all: try (intros; congruence).
  all: try (intros m H; injection H as <-; eexists; reflexivity).
  all: try (intros m H; discriminate H).
  all: try reflexivity.
Qed.

(** What [callApi] leaves behind for a valid site URL: the clock and
    the entry of the rate limiter, and one more request sent. *)
Lemma callApi_world {T} siteUrl u operation params
  (parser : string -> result T) lateness w :
  newURL siteUrl = Some u ->
  let w1 := awaitTurn (hostname u) lateness w in
  snd (callApi newURL server siteUrl operation params parser lateness w)
  = {| clock := clock w1;
       rateLimiter := rateLimiter w1;
       outbox := (outbox w
                  ++ [{| endpoint := getEndpointUrl siteUrl operation;
                         params := params w1 |}])%list |}.
Proof.
  intros Hu w1. unfold callApi, checkRateLimit. rewrite Hu.
  unfold axiosGet. fold w1.
  destruct (server _); cbn [snd]; unfold w1;
    rewrite outbox_awaitTurn; reflexivity.
Qed.

Lemma getMeetings_callApi siteUrl committeeId fromDate toDate lateness w :
  getMeetings newURL getFullYear parseStringPromise server siteUrl
    (Some committeeId) fromDate toDate lateness w
  = match validateUrl newURL siteUrl with
    | Throw m => (Throw m, w)
    | Ok _ =>
        callApi newURL server siteUrl "GetMeetings"
          (fun w1 => getMeetingsParams (getFullYear (clock w1))
                       committeeId fromDate toDate)
          (parseMeetingsResponse parseStringPromise) lateness w
    end.
Proof. reflexivity. Qed.

(** An operation given a site URL that is not a URL fails with the
    message naming it; nothing is sent and the rate limiter is left as
    it was. *)
Theorem invalid_url_leaves_no_trace
  (call : Spec.Call) (siteUrl : string) (lateness : Z) (w : World) :
  newURL siteUrl = None ->
  Spec.run newURL getFullYear parseStringPromise server call siteUrl
    lateness w
  = (Some ("Invalid URL format: " ++ siteUrl), w).
Proof.
  intros H.
  destruct call; cbn [Spec.run];
    unfold getCouncillorsByWard, getCouncillorsByWardId,
      getCouncillorsByPostcode, getCommittees, getMeetings, getMeeting,
      getAllMeetingsByDate, getCalendarEvents, getParishCouncils,
      getElectionResults, getWebCastMeetings, getMpOrMepsAndWards,
      getMpOrMepAndWardsByPostcode, validateUrl;
    rewrite H; reflexivity.
Qed.

(** An operation that is not given a required argument fails with the
    message naming the argument; nothing is sent and the rate limiter
    is left as it was. *)
Theorem missing_parameter_leaves_no_trace
  (call : Spec.Call) (siteUrl : string) (u : URL) (name : string)
  (lateness : Z) (w : World) :
  newURL siteUrl = Some u ->
  Spec.missing call = Some name ->
  Spec.run newURL getFullYear parseStringPromise server call siteUrl
    lateness w
  = (Some ("Missing required parameter: " ++ name), w).
Proof.
  intros Hu Hmissing.
  destruct call; cbn [Spec.missing] in Hmissing;
    repeat match type of Hmissing with
      | match ?x with Some _ => _ | None => _ end = _ => destruct x
      end;
    try discriminate Hmissing; injection Hmissing as <-;
    cbn [Spec.run];
    unfold getCouncillorsByWardId, getCouncillorsByPostcode, getMeetings,
      getMeeting, getElectionResults, getWebCastMeetings,
      getMpOrMepAndWardsByPostcode, validateUrl;
    rewrite Hu; reflexivity.
Qed.

(** An operation given a valid site URL and its required arguments
    sends exactly one request, to the endpoint resolved for its remote
    operation, and the rate limiter holds for the host of the site the
    time at which the call was let go. *)
Theorem operation_sends_one_request
  (call : Spec.Call) (siteUrl : string) (u : URL)
  (lateness : Z) (w : World) :
  newURL siteUrl = Some u ->
  Spec.missing call = None ->
  let w' := snd (Spec.run newURL getFullYear parseStringPromise server
                   call siteUrl lateness w) in
  (exists request,
      outbox w' = (outbox w ++ [request])%list
      /\ endpoint request
         = getEndpointUrl siteUrl (Spec.operationName call))
  /\ clock w' = clock (awaitTurn (hostname u) lateness w)
  /\ rateLimiter w' !! hostname u = Some (clock w').
Proof.
  intros Hu Hmissing w'.
  assert (Hw :
    exists params,
      w' = {| clock := clock (awaitTurn (hostname u) lateness w);
              rateLimiter := rateLimiter (awaitTurn (hostname u) lateness w);
              outbox :=
                (outbox w
                 ++ [{| endpoint :=
                          getEndpointUrl siteUrl (Spec.operationName call);
                        params := params |}])%list |}).
  { unfold w'.
    destruct call; cbn [Spec.missing] in Hmissing;
      repeat match type of Hmissing with
        | match ?x with Some _ => _ | None => _ end = _ => destruct x
        end;
      try discriminate Hmissing;
      cbn [Spec.run Spec.operationName Spec.outcome snd];
      try rewrite getMeetings_callApi;
      unfold getCouncillorsByWard, getCouncillorsByWardId,
        getCouncillorsByPostcode, getCommittees, getMeeting,
        getAllMeetingsByDate, getCalendarEvents, getParishCouncils,
        getElectionResults, getWebCastMeetings, getMpOrMepsAndWards,
        getMpOrMepAndWardsByPostcode, validateUrl, validateParameter;
      rewrite Hu;
      try match goal with
        | |- context [callApi ?n ?s ?url ?op ?ps ?parser ?l ?w0] =>
            pose proof (callApi_world url u op ps parser l w0 Hu) as Hc;
            cbv zeta in Hc;
            destruct (callApi n s url op ps parser l w0) as [[r | m] w2];
            cbn [snd] in *; rewrite Hc; eexists; reflexivity
        end. }
  destruct Hw as [ps ->]. cbn [outbox clock rateLimiter].
  split; [eexists; split; reflexivity |].
  split; [reflexivity | apply awaitTurn_records].
Qed.

End OperationFacts.

(** The theorems at the sample site. *)
Lemma handleApiResponse_outcomes_witness :
  handleApiResponse {| status := 404; data := "<getmeetings/>" |}
    (parseMeetingsResponse Sample.parseSample)
  = Throw "API parsing failed: API request failed with status code 404".
Proof.
  apply (proj1 (proj2 (handleApiResponse_outcomes
                         {| status := 404; data := "<getmeetings/>" |}
                         (parseMeetingsResponse Sample.parseSample))));
    discriminate.
Defined.

Lemma invalid_url_leaves_no_trace_witness :
  Spec.run Sample.sampleURL (fun _ => 2024%Z) Sample.parseSample
    (fun _ => Throw "unreachable") Spec.CommitteesOf
    "democracy.lichfielddc.gov.uk" 0 (Sample.emptyWorld 1700000000000)
  = (Some "Invalid URL format: democracy.lichfielddc.gov.uk",
     Sample.emptyWorld 1700000000000).
Proof.
  apply (invalid_url_leaves_no_trace Sample.sampleURL (fun _ => 2024%Z)
           Sample.parseSample (fun _ => Throw "unreachable")
           Spec.CommitteesOf "democracy.lichfielddc.gov.uk").
  reflexivity.
Defined.

Lemma missing_parameter_leaves_no_trace_witness :
  Spec.run Sample.sampleURL (fun _ => 2024%Z) Sample.parseSample
    (fun _ => Throw "unreachable") (Spec.MeetingsOf None None None)
    "https://democracy.lichfielddc.gov.uk/" 0
    (Sample.emptyWorld 1700000000000)
  = (Some "Missing required parameter: committeeId",
     Sample.emptyWorld 1700000000000).
Proof.
  apply (missing_parameter_leaves_no_trace Sample.sampleURL
           (fun _ => 2024%Z) Sample.parseSample
           (fun _ => Throw "unreachable") (Spec.MeetingsOf None None None)
           "https://democracy.lichfielddc.gov.uk/"
           {| protocol := "https:";
              hostname := "democracy.lichfielddc.gov.uk";
              port := EmptyString |});
    reflexivity.
Defined.

Lemma operation_sends_one_request_witness :
  exists request,
    outbox (snd (Spec.run Sample.sampleURL (fun _ => 2024%Z)
                   Sample.parseSample (fun _ => Throw "Network Error")
                   (Spec.CouncillorsByPostcode (Some "WS13 6HX"))
                   "https://democracy.lichfielddc.gov.uk/" 0
                   (Sample.emptyWorld 1700000000000)))
    = [request]
    /\ endpoint request
       = "https://democracy.lichfielddc.gov.uk/mgWebService.asmx/GetCouncillorsByPostcode".
Proof.
  destruct (operation_sends_one_request Sample.sampleURL (fun _ => 2024%Z)
              Sample.parseSample (fun _ => Throw "Network Error")
              (Spec.CouncillorsByPostcode (Some "WS13 6HX"))
              "https://democracy.lichfielddc.gov.uk/"
              {| protocol := "https:";
                 hostname := "democracy.lichfielddc.gov.uk";
                 port := EmptyString |}
              0%Z (Sample.emptyWorld 1700000000000) eq_refl eq_refl)
    as ((request & Hout & Hend) & _).
  exists request. split; [exact Hout | exact Hend].
Defined.

(** ** Date ranges of the other operations *)

Section DateFacts.

Variable newURL : string -> option URL.
Variable getFullYear : Z -> Z.
Variable parseStringPromise : string -> result jsval.
Variable server : Request -> result Response.

(** The calendar and the webcast operations treat a date range of which
    one end is missing as no range at all: the end given is dropped and
    the call is the call without dates. *)
Theorem partial_range_is_default_elsewhere
  (siteUrl : string) (date : string) (lateness : Z) (w : World) :
  (forall globalCalendar userId,
      getCalendarEvents newURL getFullYear parseStringPromise server
        siteUrl globalCalendar userId (Some date) None lateness w
      = getCalendarEvents newURL getFullYear parseStringPromise server
          siteUrl globalCalendar userId None None lateness w
      /\ getCalendarEvents newURL getFullYear parseStringPromise server
           siteUrl globalCalendar userId None (Some date) lateness w
         = getCalendarEvents newURL getFullYear parseStringPromise server
             siteUrl globalCalendar userId None None lateness w)
  /\ (forall committeeId,
         getWebCastMeetings newURL getFullYear parseStringPromise server
           siteUrl committeeId (Some date) None lateness w
         = getWebCastMeetings newURL getFullYear parseStringPromise server
             siteUrl committeeId None None lateness w
         /\ getWebCastMeetings newURL getFullYear parseStringPromise server
              siteUrl committeeId None (Some date) lateness w
            = getWebCastMeetings newURL getFullYear parseStringPromise
                server siteUrl committeeId None None lateness w).
Proof.
  split; intros; split; reflexivity.
Qed.

Lemma bothGiven_true (fromDate toDate : option string) :
  bothGiven fromDate toDate = true ->
  exists f t, fromDate = Some f /\ toDate = Some t
              /\ f <> EmptyString /\ t <> EmptyString.
Proof.
  destruct fromDate as [f |], toDate as [t |]; cbn [bothGiven];
    intros H; try discriminate H.
  apply andb_true_iff in H as [Hf Ht].
  exists f, t. repeat split; apply truthy_nonempty; assumption.
Qed.

(** The parameters of [getAllMeetingsByDate]: the committee left out
    becomes committee 138 and the order left out becomes ascending; a
    range with both ends wins over the single date, the single date
    stands for both ends of the range otherwise, and without either the
    range is the current year. *)
Theorem getAllMeetingsByDateParams_cases
  (currentYear : Z) (date : string) (committeeId : option Z)
  (fromDate toDate : option string) (ascendingOrder : option bool) :
  let params :=
    getAllMeetingsByDateParams currentYear date committeeId fromDate
      toDate ascendingOrder in
  lookupField "lCommitteeId" params = JNum (default 138%Z committeeId)
  /\ lookupField "bIsAscendingDateOrder" params
     = JBool (default true ascendingOrder)
  /\ (forall f t,
         fromDate = Some f -> toDate = Some t ->
         f <> EmptyString -> t <> EmptyString ->
         lookupField "sFromDate" params = JStr f
         /\ lookupField "sToDate" params = JStr t)
  /\ (bothGiven fromDate toDate = false ->
      date <> EmptyString ->
      lookupField "sFromDate" params = JStr date
      /\ lookupField "sToDate" params = JStr date)
  /\ (bothGiven fromDate toDate = false ->
      date = EmptyString ->
      lookupField "sFromDate" params
      = JStr (numberToString currentYear ++ "-01-01")
      /\ lookupField "sToDate" params
         = JStr (numberToString currentYear ++ "-12-31")).
Proof.
  intros params. unfold params, getAllMeetingsByDateParams.
  split; [| split; [| split; [| split]]].
  - destruct committeeId, (bothGiven fromDate toDate),
      (JsString.truthy date); reflexivity.
  - destruct committeeId, (bothGiven fromDate toDate),
      (JsString.truthy date); reflexivity.
  - intros f t -> -> Hf Ht. apply truthy_nonempty in Hf, Ht.
    cbn [bothGiven]. rewrite Hf, Ht.
    destruct committeeId; split; reflexivity.
  - intros Hboth Hdate. apply truthy_nonempty in Hdate.
    rewrite Hboth, Hdate. destruct committeeId; split; reflexivity.
  - intros Hboth ->. rewrite Hboth.
    destruct committeeId; split; reflexivity.
Qed.

End DateFacts.

(** The theorem for a single day and a range with one end. *)
Lemma getAllMeetingsByDateParams_cases_witness :
  lookupField "sFromDate"
    (getAllMeetingsByDateParams 2024 "2024-05-01" None
       (Some "2024-01-01") None None)
  = JStr "2024-05-01"
  /\ lookupField "sFromDate"
       (getAllMeetingsByDateParams 2024 "2024-05-01" None
          (Some "2024-01-01") (Some "2024-02-01") None)
     = JStr "2024-01-01"
  /\ lookupField "sToDate"
       (getAllMeetingsByDateParams 2024 EmptyString None None None None)
     = JStr "2024-12-31".
Proof.
  split; [| split].
  - apply (proj1 (proj2 (proj2 (proj2
             (getAllMeetingsByDateParams_cases 2024 "2024-05-01" None
                (Some "2024-01-01") None None))))); [reflexivity |].
    discriminate.
  - apply (proj1 (proj2 (proj2
             (getAllMeetingsByDateParams_cases 2024 "2024-05-01" None
                (Some "2024-01-01") (Some "2024-02-01") None)))
             "2024-01-01" "2024-02-01"); first [reflexivity | discriminate].
  - apply (proj2 (proj2 (proj2 (proj2
             (getAllMeetingsByDateParams_cases 2024 EmptyString None None
                None None))))); reflexivity.
Defined.

(** ** The rate limiter over a schedule of calls *)

Section ScheduleFacts.
Local Open Scope Z_scope.

(** No call is let go before the interval has passed since the time
    recorded for its host, nor before it is made. *)
Lemma awaitTurn_min_gap domain lateness w :
  0 <= lateness ->
  default 0 (rateLimiter w !! domain) + rateLimitMs
  <= clock (awaitTurn domain lateness w)
  /\ clock w <= clock (awaitTurn domain lateness w).
Proof.
  intros Hlate. unfold awaitTurn, sleep. cbv zeta.
  destruct (Z.ltb_spec (clock w - default 0 (rateLimiter w !! domain))
              rateLimitMs); cbn [clock]; unfold rateLimitMs in *; lia.
Qed.

(** A later grant and an earlier one for the same host are at least
    the interval apart. *)
Local Abbreviation spaced :=
  (fun later earlier : string * Z =>
     fst later = fst earlier -> snd earlier + rateLimitMs <= snd later).

(** Every grant made so far is no later than the time recorded for its
    host. *)
Local Abbreviation recorded w :=
  (fun grant : string * Z =>
     exists t, rateLimiter w !! fst grant = Some t /\ snd grant <= t).

Lemma runSchedule_spaced calls w grants :
  Forall (fun call : string * Z * Z => 0 <= snd call) calls ->
  ForallOrdPairs spaced grants ->
  Forall (recorded w) grants ->
  ForallOrdPairs spaced (snd (Spec.runSchedule calls w grants)).
Proof.
  revert w grants.
  induction calls as [| [[domain idle] lateness] calls IH];
    intros w grants Hcalls Hspaced Hrecorded; [exact Hspaced |].
  cbn [Spec.runSchedule]. cbv zeta.
  apply Forall_cons in Hcalls as [Hlate Hcalls]. cbn [snd] in Hlate.
  set (w0 := Spec.atTime (clock w + idle) w).
  set (w1 := awaitTurn domain lateness w0).
  destruct (awaitTurn_min_gap domain lateness w0 Hlate) as [Hgap _].
  fold w1 in Hgap.
  apply IH; [exact Hcalls | |].
  - constructor; [| exact Hspaced].
    apply Forall_forall. intros [d t] Hin Hsame. cbn [fst snd] in *.
    subst d.
    apply (proj1 (Forall_forall _ _) Hrecorded) in Hin
      as (t' & Ht' & Hle). cbn [fst snd] in *.
    change (rateLimiter w0) with (rateLimiter w) in Hgap.
    rewrite Ht' in Hgap. cbn [from_option id] in Hgap. lia.
  - constructor.
    + exists (clock w1). split; [apply awaitTurn_records | cbn; lia].
    + apply Forall_forall. intros [d t] Hin.
      apply (proj1 (Forall_forall _ _) Hrecorded) in Hin
        as (t' & Ht' & Hle). cbn [fst snd] in *.
      destruct (decide (domain = d)) as [<- | Hne].
      * exists (clock w1). split; [apply awaitTurn_records |].
        change (rateLimiter w0) with (rateLimiter w) in Hgap.
        rewrite Ht' in Hgap. cbn [from_option id] in Hgap.
        unfold rateLimitMs in Hgap. lia.
      * exists t'. split; [| exact Hle].
        unfold w1. rewrite awaitTurn_other by exact Hne. exact Ht'.
Qed.

(** However calls for several hosts follow one another, and whatever
    time passes between them, any two grants for the same host are at
    least 1000 milliseconds apart, provided no timer fires early. *)
Theorem schedule_spacing (calls : list (string * Z * Z)) (w : World) :
  Forall (fun call : string * Z * Z => 0 <= snd call) calls ->
  ForallOrdPairs
    (fun later earlier : string * Z =>
       fst later = fst earlier -> snd earlier + 1000 <= snd later)
    (snd (Spec.runSchedule calls w [])).
Proof.
  intros Hcalls.
  apply (runSchedule_spaced calls w [] Hcalls); constructor.
Qed.

End ScheduleFacts.

(** The theorem for three calls, two of them for one host 200
    milliseconds apart. *)
Lemma schedule_spacing_witness :
  ForallOrdPairs
    (fun later earlier : string * Z =>
       fst later = fst earlier -> (snd earlier + 1000 <= snd later)%Z)
    (snd (Spec.runSchedule
            [("a.org", 0%Z, 0%Z); ("b.org", 100%Z, 3%Z);
             ("a.org", 100%Z, 0%Z)]
            (Sample.emptyWorld 1700000000000) [])).
Proof.
  apply schedule_spacing.
  repeat constructor; discriminate.
Defined.

(** ** Required parameters *)

Section ParameterFacts.

Lemma lookupField_not_own (k : string) (fields : list (string * jsval)) :
  hasOwnField k fields = false -> lookupField k fields = JUndefined.
Proof.
  induction fields as [| [k' v] fields IH]; cbn [hasOwnField lookupField];
    [reflexivity |].
  destruct (String.eqb k k'); [discriminate |]. exact IH.
Qed.

(** [validateParameters] accepts exactly the parameter objects in which
    every required name has a value other than [undefined] and [null],
    the value of a name being that of the own field of the object or,
    without one, the member inherited from [Object.prototype]; when it
    refuses, it names the first required name without such a value.
    For a name that [Object.prototype] does not have, the value is the
    own field's, so that an empty string and a zero are accepted and an
    absent field is refused; a name that it has, such as [toString], is
    accepted also from the empty object. *)
Theorem validateParameters_first_missing
  (params : list (string * jsval)) (required : list string) :
  (validateParameters params required = Ok tt
   <-> Forall (fun k => missingMember k params = false) required)
  /\ (forall message,
         validateParameters params required = Throw message ->
         exists before k after,
           required = (before ++ k :: after)%list
           /\ Forall (fun k' => missingMember k' params = false) before
           /\ missingMember k params = true
           /\ message = "Missing required parameter: " ++ k)
  /\ (forall name : string,
         inherited name = false ->
         missingMember name params
         = negb (isDefined (lookupField name params)))
  /\ (forall (name : string) (value : jsval),
         isDefined value = true ->
         validateParameters [(name, value)] [name] = Ok tt)
  /\ (forall name : string,
         inherited name = true ->
         validateParameters [] [name] = Ok tt).
Proof.
  split; [| split; [| split; [| split]]].
  - induction required as [| k ks IH]; cbn [validateParameters].
    + split; [constructor | reflexivity].
    + destruct (missingMember k params) eqn:E.
      * split; [intros H; discriminate H |].
        intros H. apply Forall_cons in H as [H _]. congruence.
      * rewrite IH. split; [intros H; constructor; assumption |].
        intros H. apply Forall_cons in H. apply H.
  - induction required as [| k ks IH]; cbn [validateParameters];
      intros message H; [discriminate H |].
    destruct (missingMember k params) eqn:E.
    + injection H as <-. exists [], k, ks.
      repeat split; [constructor | exact E].
    + destruct (IH _ H) as (before & k' & after & -> & Hb & Hk & ->).
      exists (k :: before), k', after.
      repeat split; try assumption. constructor; assumption.
  - intros name Hname. unfold missingMember. rewrite Hname.
    destruct (hasOwnField name params) eqn:E; [reflexivity |].
    rewrite (lookupField_not_own _ _ E). reflexivity.
  - intros name value Hv.
    cbn [validateParameters]. unfold missingMember.
    cbn [hasOwnField lookupField].
    rewrite String.eqb_refl, Hv. reflexivity.
  - intros name Hname. cbn [validateParameters]. unfold missingMember.
    cbn [hasOwnField]. rewrite Hname. reflexivity.
Qed.

End ParameterFacts.

(** The theorem for a parameter object whose [toDate] is [null], and for
    the name [toString] required of the empty object. *)
Lemma validateParameters_first_missing_witness :
  (exists before k after,
      ["committeeId"; "fromDate"; "toDate"] = (before ++ k :: after)%list
      /\ "Missing required parameter: toDate"
         = "Missing required parameter: " ++ k)
  /\ validateParameters [] ["toString"] = Ok tt.
Proof.
  split.
  - destruct (proj1 (proj2 (validateParameters_first_missing
                              [("committeeId", JNum 0);
                               ("fromDate", JStr EmptyString);
                               ("toDate", JNull)]
                              ["committeeId"; "fromDate"; "toDate"]))
                "Missing required parameter: toDate" eq_refl)
      as (before & k & after & Hsplit & _ & _ & Hmessage).
    exists before, k, after. split; assumption.
  - apply (proj2 (proj2 (proj2 (proj2 (validateParameters_first_missing
                                         [] []))))
             "toString").
    reflexivity.
Defined.

(** ** The search tool *)

Section SearchFacts.
Import ModGovMCP.
Local Open Scope Q_scope.

Variable levenshtein : option (string -> string -> nat).
Variable councils : list CouncilInfo.

(** Whenever the search tool gets its matches, asking for a minimum
    confidence by the name of a tier gives matches of that tier or a
    better one only, and the name of a member that every object
    inherits gives no match at all; leaving the minimum out, or giving
    a word that is neither, is asking for [medium], also in what is
    thrown. *)
Theorem searchCouncils_minimum_tier (query : string) :
  (forall (t : Confidence) (found : list CouncilMatch),
      searchCouncils levenshtein councils query (Some (Spec.tierName t))
      = Ok found ->
      Forall (fun m => (Spec.tierRank t <= Spec.tierRank (confidence m))%nat)
        found)
  /\ searchCouncils levenshtein councils query None
     = searchCouncils levenshtein councils query (Some "medium")
  /\ (forall word : string,
         ownThreshold word confidenceThresholds = None ->
         inherited word = false ->
         searchCouncils levenshtein councils query (Some word)
         = searchCouncils levenshtein councils query (Some "medium"))
  /\ (forall (word : string) (found : list CouncilMatch),
         inherited word = true ->
         searchCouncils levenshtein councils query (Some word) = Ok found ->
         found = []).
Proof.
  split; [| split; [reflexivity | split]].
  - intros t found. unfold searchCouncils.
    destruct t; cbn [Spec.tierName]; simpl (minScoreOf _); cbv iota;
      intros H;
      apply findMatchesWhere_members in H as [_ H];
      (eapply Forall_impl; [exact H |]);
      intros m [Hmin ->]; cbn beta in Hmin; apply Qle_bool_iff in Hmin;
      destruct (getConfidence_cases (score m))
        as [[? ->]|[(? & ? & ->)|[(? & ? & ->)|[? ->]]]];
      cbn [Spec.tierRank]; try lia; lra.
  - intros word Hown Hinherited. unfold searchCouncils, minScoreOf.
    rewrite Hown, Hinherited. reflexivity.
  - intros word found Hword. unfold searchCouncils.
    assert (Hmin : minScoreOf (Some word) = None).
    { unfold inherited in Hword. apply existsb_exists in Hword.
      destruct Hword as (name & Hin & Heq).
      apply String.eqb_eq in Heq. subst name.
      cbn [inheritedNames In] in Hin.
      repeat (destruct Hin as [<- | Hin]; [reflexivity |]).
      destruct Hin. }
    rewrite Hmin. intros H.
    apply findMatchesWhere_members in H as [_ H].
    destruct found as [| m found]; [reflexivity |].
    apply Forall_cons in H as [[H _] _]. discriminate H.
Qed.

End SearchFacts.

(** The theorem for a word that is no tier and for the name of an
    inherited member, with the import undefined and the query
    [council], which every name of the sample list contains. *)
Lemma searchCouncils_minimum_tier_witness :
  ModGovMCP.searchCouncils None Sample.sampleCouncils
    "council" (Some "certain")
  = ModGovMCP.searchCouncils None Sample.sampleCouncils
      "council" (Some "medium")
  /\ ModGovMCP.searchCouncils None Sample.sampleCouncils
       "council" (Some "toString") = Ok [].
Proof.
  split.
  - apply (proj1 (proj2 (proj2 (searchCouncils_minimum_tier
                                  None Sample.sampleCouncils "council")))
             "certain"); reflexivity.
  - assert (E : exists found,
               ModGovMCP.searchCouncils None Sample.sampleCouncils
                 "council" (Some "toString") = Ok found).
    { eexists. vm_compute. reflexivity. }
    destruct E as (found & E). rewrite E. f_equal.
    apply (proj2 (proj2 (proj2 (searchCouncils_minimum_tier
                                  None Sample.sampleCouncils "council")))
             "toString" found); [reflexivity | exact E].
Defined.

(** ** The normalizers on the trees of the XML parser *)

Section TreeFacts.

Variable parseStringPromise : string -> result jsval.

Lemma isXml_isDefined v : Spec.isXml v = true -> isDefined v = true.
Proof. destruct v; simpl; intros H; try discriminate H; reflexivity. Qed.

Lemma get_defined v k : isDefined v = true -> get v k = Ok (Spec.field v k).
Proof. destruct v; simpl; intros H; try discriminate H; reflexivity. Qed.

Lemma lookupField_isXml k fields :
  forallb (fun kv => Spec.isXml (snd kv)) fields = true ->
  lookupField k fields = JUndefined
  \/ Spec.isXml (lookupField k fields) = true.
Proof.
  induction fields as [| [k' v] fields IH]; intros H; [left; reflexivity |].
  cbn [forallb snd] in H. apply andb_true_iff in H as [Hv Hrest].
  cbn [lookupField]. destruct (String.eqb k k'); [right; exact Hv |].
  apply IH, Hrest.
Qed.

(** A field of a tree is absent or is a tree. *)
Lemma field_isXml v k :
  Spec.isXml v = true ->
  Spec.field v k = JUndefined \/ Spec.isXml (Spec.field v k) = true.
Proof.
  destruct v; intros H; try discriminate H; try (left; reflexivity).
  apply lookupField_isXml. exact H.
Qed.

Lemma treeOrAbsent_field v k : Spec.treeOrAbsent v -> Spec.treeOrAbsent (Spec.field v k).
Proof.
  intros [-> | H]; [left; reflexivity | apply field_isXml, H].
Qed.

Lemma treeOrAbsent_truthy v :
  Spec.treeOrAbsent v -> truthy v = true -> Spec.isXml v = true.
Proof. intros [-> | H] Ht; [discriminate Ht | exact H]. Qed.

Lemma getOpt_field v k : Spec.treeOrAbsent v -> getOpt v k = Ok (Spec.field v k).
Proof.
  intros [-> | H]; [reflexivity |].
  destruct v; try discriminate H; reflexivity.
Qed.

Lemma asArray_isXml v :
  Spec.isXml v = true -> Forall (fun x => Spec.isXml x = true) (asArray v).
Proof.
  intros H. destruct v; try discriminate H;
    try (constructor; [exact H | constructor]).
  cbn [asArray]. apply Forall_forall. intros x Hx.
  apply list_elem_of_In in Hx.
  cbn [Spec.isXml] in H. rewrite forallb_forall in H. apply H, Hx.
Qed.

Lemma mapM_Ok {A B} (f : A -> result B) (l : list A) :
  Forall (fun x => exists y, f x = Ok y) l -> exists l', mapM f l = Ok l'.
Proof.
  induction 1 as [| x l [y Hy] _ [l' Hl']]; cbn [mapM].
  - exists []. reflexivity.
  - rewrite Hy. cbn [bind]. rewrite Hl'. cbn [bind].
    exists (y :: l'). reflexivity.
Qed.

Lemma mapM_length {A B} (f : A -> result B) (l : list A) (l' : list B) :
  mapM f l = Ok l' -> List.length l' = List.length l.
Proof.
  revert l'. induction l as [| x l IH]; cbn [mapM]; intros l' H.
  - injection H as <-. reflexivity.
  - destruct (f x) as [y |]; cbn [bind] in H; [| discriminate H].
    destruct (mapM f l) as [ys |]; cbn [bind] in H; [| discriminate H].
    injection H as <-. cbn [List.length]. rewrite (IH ys eq_refl).
    reflexivity.
Qed.

(** A record is built from every element that is neither [undefined]
    nor [null]. *)
Ltac record_built x :=
  destruct x; intros H; try discriminate H; eexists; reflexivity.

Lemma committeeRecord_built x :
  isDefined x = true -> exists y, committeeRecord x = Ok y.
Proof. record_built x. Qed.

Lemma flatMeetingRecord_built x :
  isDefined x = true -> exists y, flatMeetingRecord x = Ok y.
Proof. record_built x. Qed.

Lemma nestedMeetingRecord_built c x :
  isDefined c = true -> isDefined x = true ->
  exists y, nestedMeetingRecord c x = Ok y.
Proof.
  destruct c; intros Hc; try discriminate Hc; record_built x.
Qed.

Lemma eventRecord_built x :
  isDefined x = true -> exists y, eventRecord x = Ok y.
Proof. record_built x. Qed.

Lemma parishCouncilRecord_built x :
  isDefined x = true -> exists y, parishCouncilRecord x = Ok y.
Proof. record_built x. Qed.

Lemma electionResultRecord_built x :
  isDefined x = true -> exists y, electionResultRecord x = Ok y.
Proof. record_built x. Qed.

Lemma webcastRecord_built x :
  isDefined x = true -> exists y, webcastRecord x = Ok y.
Proof. record_built x. Qed.

Lemma webcastOfMeeting_built x :
  isDefined x = true -> exists y, webcastOfMeeting x = Ok y.
Proof. record_built x. Qed.

Lemma mpRecord_built x :
  isDefined x = true -> exists y, mpRecord x = Ok y.
Proof. record_built x. Qed.

Lemma wardRecord_built x :
  isDefined x = true -> exists y, wardRecord x = Ok y.
Proof.
  intros H. unfold wardRecord, getOr.
  rewrite !(get_defined _ _ H). cbn [bind].
  destruct (Spec.field x "councillors"); cbn [getOpt get bind];
    eexists; reflexivity.
Qed.

Lemma records_built (f : jsval -> result jsval) (v : jsval) :
  (forall x, isDefined x = true -> exists y, f x = Ok y) ->
  Spec.isXml v = true ->
  exists records, mapM f (asArray v) = Ok records.
Proof.
  intros Hf Hv. apply mapM_Ok.
  eapply Forall_impl; [apply asArray_isXml, Hv |].
  intros x Hx. apply Hf, isXml_isDefined, Hx.
Qed.

Lemma allMeetings_built committees :
  Forall (fun c => Spec.isXml c = true) committees ->
  exists meetings,
    allMeetings committees = Ok meetings
    /\ Forall (fun m => Spec.isXml m = true) meetings.
Proof.
  induction 1 as [| c cs Hc _ (ms & Hms & Hall)]; cbn [allMeetings].
  - exists []. split; [reflexivity | constructor].
  - rewrite (get_defined _ _ (isXml_isDefined _ Hc)). cbn [bind].
    rewrite Hms. cbn [bind]. eexists. split; [reflexivity |].
    apply Forall_app. split; [| exact Hall].
    destruct (truthy (Spec.field c "meeting")) eqn:E; [| constructor].
    apply asArray_isXml, treeOrAbsent_truthy; [| exact E].
    apply field_isXml, Hc.
Qed.

End TreeFacts.

Section NormalizerFacts.

Variable parseStringPromise : string -> result jsval.

(** One step down a tree: the field is read without an error, and when
    it is truthy it is a tree. *)
Ltac descend Hv k E Hsub :=
  rewrite (get_defined _ k (isXml_isDefined _ Hv)); cbn [bind];
  destruct (truthy (Spec.field _ k)) eqn:E; cbn [negb];
  [ pose proof (treeOrAbsent_truthy _ (field_isXml _ k Hv) E) as Hsub
  | try (eexists; reflexivity) ].

Lemma collection_built (f : jsval -> result jsval) (v : jsval) (k : string) :
  (forall x, isDefined x = true -> exists y, f x = Ok y) ->
  Spec.isXml v = true ->
  exists records,
    (do child <- get v k;
     if negb (truthy child) then Ok [] else mapM f (asArray child))
    = Ok records.
Proof.
  intros Hf Hv. descend Hv k E Hsub.
  apply records_built; assumption.
Qed.

Lemma parseByDateShape_built response :
  Spec.isXml response = true ->
  exists records, parseByDateShape response = Ok records.
Proof.
  intros Hv. unfold parseByDateShape.
  descend Hv "getmeetingsbydate" E1 H1.
  descend H1 "meetings" E2 H2.
  apply (collection_built flatMeetingRecord _ "meeting");
    [exact flatMeetingRecord_built | exact H2].
Qed.

Lemma parseMeetingShapes_built response :
  Spec.isXml response = true ->
  exists records, parseMeetingShapes response = Ok records.
Proof.
  intros Hv. unfold parseMeetingShapes.
  descend Hv "getmeetings" E1 H1; [| apply parseByDateShape_built, Hv].
  descend H1 "committee" E2 H2.
  - descend H2 "committeemeetings" E3 H3.
    apply (collection_built (nestedMeetingRecord _) _ "meeting");
      [| exact H3].
    intros x Hx. apply nestedMeetingRecord_built;
      [apply isXml_isDefined, H2 | exact Hx].
  - rewrite (get_defined _ _ (isXml_isDefined _ H1)). cbn [bind].
    destruct (Spec.field _ "meetingscount");
      try (eexists; reflexivity).
    apply parseByDateShape_built, Hv.
Qed.

(** On a tree that the XML parser can build (text, objects, arrays) no
    normalizer fails: each returns a collection, possibly empty.  For
    the meetings normalizer the body has to pass its three checks
    first. *)
Theorem normalizers_accept_every_tree
  (kind : Spec.RecordKind) (xmlData : string) (root : jsval) :
  parseStringPromise xmlData = Ok root ->
  Spec.isXml root = true ->
  (kind = Spec.Meetings -> rejectMeetingsBody xmlData = None) ->
  exists records,
    Spec.normalizer kind parseStringPromise xmlData = Ok records.
Proof.
  intros Hparse Hv Haccepted.
  destruct kind; cbn [Spec.normalizer].
  - unfold parseCouncillorsResponse. rewrite Hparse. cbn [bind].
    rewrite !(get_defined _ _ (isXml_isDefined _ Hv)). cbn [bind].
    assert (Hroot :
      exists rootElement,
        (if truthy (Spec.field root "councillorsbyward")
         then Ok (Spec.field root "councillorsbyward")
         else if truthy (Spec.field root "councillorsbywardid")
              then Ok (Spec.field root "councillorsbywardid")
              else Ok (Spec.field root "councillorsbypostcode"))
        = Ok rootElement
        /\ Spec.treeOrAbsent rootElement).
    { destruct (truthy (Spec.field root "councillorsbyward"));
        [| destruct (truthy (Spec.field root "councillorsbywardid"))];
        eexists; (split; [reflexivity | apply field_isXml, Hv]). }
    destruct Hroot as (rootElement & -> & Hroot). cbn [bind].
    destruct (truthy rootElement) eqn:E; cbn [negb];
      [| eexists; reflexivity].
    pose proof (treeOrAbsent_truthy _ Hroot E) as H1.
    descend H1 "wards" E2 H2.
    destruct (collection_built wardRecord _ "ward" wardRecord_built H2)
      as [records Hrecords].
    rewrite Hrecords. eexists; reflexivity.
  - unfold parseCommitteesResponse. rewrite Hparse. cbn [bind].
    descend Hv "committees" E1 H1.
    destruct (collection_built committeeRecord _ "committee"
                committeeRecord_built H1) as [records Hrecords].
    rewrite Hrecords. eexists; reflexivity.
  - unfold parseMeetingsResponse.
    rewrite (Haccepted eq_refl), Hparse. cbn [bind].
    destruct (parseMeetingShapes_built root Hv) as [records Hrecords].
    rewrite Hrecords. eexists; reflexivity.
  - unfold parseCalendarEventsResponse. rewrite Hparse. cbn [bind].
    descend Hv "calendarevents" E1 H1.
    destruct (collection_built eventRecord _ "event" eventRecord_built H1)
      as [records Hrecords].
    rewrite Hrecords. eexists; reflexivity.
  - unfold parseParishCouncilsResponse. rewrite Hparse. cbn [bind].
    descend Hv "parishcouncils" E1 H1.
    destruct (collection_built parishCouncilRecord _ "parishcouncil"
                parishCouncilRecord_built H1) as [records Hrecords].
    rewrite Hrecords. eexists; reflexivity.
  - unfold parseElectionResultsResponse. rewrite Hparse. cbn [bind].
    descend Hv "electionresults" E1 H1.
    destruct (collection_built electionResultRecord _ "electionresult"
                electionResultRecord_built H1) as [records Hrecords].
    rewrite Hrecords. eexists; reflexivity.
  - unfold parseWebCastMeetingsResponse. rewrite Hparse. cbn [bind].
    descend Hv "webcastmeetings" E1 H1.
    + destruct (collection_built webcastRecord _ "webcastmeeting"
                  webcastRecord_built H1) as [records Hrecords].
      rewrite Hrecords. eexists; reflexivity.
    + rewrite (get_defined _ _ (isXml_isDefined _ Hv)). cbn [bind].
      rewrite (getOpt_field _ "committee"
                 (field_isXml _ "getmeetings" Hv)). cbn [bind].
      destruct (truthy (Spec.field root "getmeetings")) eqn:E2;
        cbn [andb]; [| eexists; reflexivity].
      destruct (truthy (Spec.field (Spec.field root "getmeetings")
                          "committee")) eqn:E3; [| eexists; reflexivity].
      pose proof (treeOrAbsent_truthy _
                    (field_isXml _ "getmeetings" Hv) E2) as H2.
      pose proof (treeOrAbsent_truthy _
                    (field_isXml _ "committee" H2) E3) as H3.
      destruct (allMeetings_built _ (asArray_isXml _ H3))
        as (meetings & -> & Hmeetings).
      cbn [bind].
      destruct (mapM_Ok webcastOfMeeting meetings) as [records Hrecords].
      { eapply Forall_impl; [exact Hmeetings |].
        intros x Hx. apply webcastOfMeeting_built, isXml_isDefined, Hx. }
      rewrite Hrecords. eexists; reflexivity.
  - unfold parseMpOrMepsAndWardsResponse. rewrite Hparse. cbn [bind].
    descend Hv "mpswards" E1 H1.
    descend H1 "mps" E2 H2.
    destruct (collection_built mpRecord _ "mp" mpRecord_built H2)
      as [records Hrecords].
    rewrite Hrecords. eexists; reflexivity.
Qed.

End NormalizerFacts.

(** The theorem at the sample wards body and at the count-only
    meetings body. *)
Lemma normalizers_accept_every_tree_witness :
  (exists records,
      parseCouncillorsResponse Sample.parseSample Sample.wardsBody
      = Ok records)
  /\ (exists records,
         parseMeetingsResponse Sample.parseSample Sample.countOnlyBody
         = Ok records).
Proof.
  split.
  - apply (normalizers_accept_every_tree Sample.parseSample Spec.Wards
             Sample.wardsBody Sample.wardsTree);
      first [reflexivity | discriminate].
  - apply (normalizers_accept_every_tree Sample.parseSample Spec.Meetings
             Sample.countOnlyBody (Spec.countOnly (JStr "0")));
      reflexivity.
Defined.

Section ShapeFacts.

Lemma allMeetings_flat_map (committees meetings : list jsval) :
  allMeetings committees = Ok meetings ->
  meetings = flat_map Spec.meetingsUnder committees.
Proof.
  revert meetings. induction committees as [| c cs IH];
    cbn [allMeetings flat_map]; intros meetings H.
  - injection H as <-. reflexivity.
  - destruct (get c "meeting") as [meeting |] eqn:Eget; cbn [bind] in H;
      [| discriminate H].
    destruct (allMeetings cs) as [others |]; cbn [bind] in H;
      [| discriminate H].
    injection H as <-. rewrite (IH others eq_refl).
    unfold Spec.meetingsUnder at 1.
    destruct c; cbn [get] in Eget; try discriminate Eget;
      injection Eget as <-; reflexivity.
Qed.

Ltac unfold_normalizers :=
  unfold parseCouncillorsResponse, parseCommitteesResponse,
    parseMeetingsResponse, parseCalendarEventsResponse,
    parseParishCouncilsResponse, parseElectionResultsResponse,
    parseWebCastMeetingsResponse, parseMpOrMepsAndWardsResponse.

(** In every shape in which a normalizer reads a collection, a child
    that is alone is normalized as the array of that one child is: the
    scalar and the one-element array that the XML parser may give for
    the same document lead to the same result.  The shapes are those of
    the wards under each of the three roots, of the councillors of a
    ward, of the committees, of the meetings nested in a committee and
    of the meetings by date, of the events, parish councils and election
    results, of the webcast meetings and of both levels of their
    fall-back, and of the MPs. *)
Theorem single_child_as_array
  (shape : Spec.Shape) (child : jsval) (xmlData : string)
  (scalar array : string -> result jsval) :
  isArray child = false ->
  truthy child = true ->
  scalar xmlData = Ok (Spec.tree shape child) ->
  array xmlData = Ok (Spec.tree shape (JArr [child])) ->
  Spec.normalizer (Spec.reader shape) scalar xmlData
  = Spec.normalizer (Spec.reader shape) array xmlData.
Proof.
  intros Hscalar Htruthy Hs Ha.
  destruct shape; try destruct root;
    cbn [Spec.reader Spec.normalizer]; unfold_normalizers;
    try destruct (rejectMeetingsBody xmlData); try reflexivity;
    rewrite Hs, Ha; cbn; rewrite ?Htruthy; cbn;
    destruct child; try discriminate Hscalar; try discriminate Htruthy;
    reflexivity.
Qed.

(** In every such shape an array of children gives one record for each
    child: none is dropped and none is added.  There are two
    exceptions: in the webcast fall-back, whose children are
    committees, there is one record for each meeting of each committee;
    and for the councillors of a ward there is the one record of the
    ward, whose councillor list is the array of the children. *)
Theorem one_record_per_child
  (shape : Spec.Shape) (children : list jsval) (xmlData : string)
  (parseStringPromise : string -> result jsval) (records : list jsval) :
  parseStringPromise xmlData = Ok (Spec.tree shape (JArr children)) ->
  Spec.normalizer (Spec.reader shape) parseStringPromise xmlData
  = Ok records ->
  List.length records = Spec.recordCount shape children
  /\ match shape with
     | Spec.CouncillorsShape _ _ _ _ _ =>
         Forall (fun ward => Spec.councillorsOf ward = children) records
     | _ => True
     end.
Proof.
  intros Hparse H.
  destruct shape; try destruct root;
    cbn [Spec.reader Spec.normalizer] in H; apply tryCatch_Ok in H;
    try (destruct (rejectMeetingsBody xmlData); [discriminate H |]);
    rewrite Hparse in H; cbn in H; cbn [Spec.recordCount];
    try (split; [apply mapM_length in H; exact H | exact I]).
  1-3: injection H as <-; split;
    [reflexivity | constructor; [reflexivity | constructor]].
  - destruct (allMeetings children) as [meetings |] eqn:Eall;
      cbn [bind] in H; [| discriminate H].
    apply mapM_length in H.
    rewrite (allMeetings_flat_map _ _ Eall) in H.
    split; [exact H | exact I].
  - apply mapM_length in H. rewrite app_nil_r in H.
    split; [exact H | exact I].
Qed.

End ShapeFacts.

(** The theorems at one committee and at two committees, and at the
    webcast fall-back over two committees with three meetings. *)
Lemma single_child_as_array_witness :
  parseCommitteesResponse
    (fun _ => Ok (Spec.tree (Spec.CommitteesShape [])
                    (JObj [("committeeid", JStr "138")])))
    "<committees/>"
  = parseCommitteesResponse
      (fun _ => Ok (Spec.tree (Spec.CommitteesShape [])
                      (JArr [JObj [("committeeid", JStr "138")]])))
      "<committees/>".
Proof.
  apply (single_child_as_array (Spec.CommitteesShape [])
           (JObj [("committeeid", JStr "138")]) "<committees/>");
    reflexivity.
Defined.

Lemma one_record_per_child_witness :
  List.length
    [JObj [("meetingid", JStr "1");
           ("meetingtitle", JStr EmptyString);
           ("webcasturl", JStr EmptyString);
           ("meetingdate", JStr EmptyString)];
     JObj [("meetingid", JStr "2");
           ("meetingtitle", JStr EmptyString);
           ("webcasturl", JStr EmptyString);
           ("meetingdate", JStr EmptyString)];
     JObj [("meetingid", JStr "3");
           ("meetingtitle", JStr EmptyString);
           ("webcasturl", JStr EmptyString);
           ("meetingdate", JStr EmptyString)]]
  = 3.
Proof.
  apply (proj1 (one_record_per_child (Spec.FallbackCommitteesShape [])
                  [JObj [("meeting",
                          JArr [JObj [("id", JStr "1")];
                                JObj [("id", JStr "2")]])];
                   JObj [("meeting", JObj [("id", JStr "3")])]]
                  "<getmeetings/>"
                  (fun _ =>
                     Ok (Spec.tree (Spec.FallbackCommitteesShape [])
                           (JArr [JObj [("meeting",
                                         JArr [JObj [("id", JStr "1")];
                                               JObj [("id", JStr "2")]])];
                                  JObj [("meeting",
                                         JObj [("id", JStr "3")])]])))
                  _ eq_refl eq_refl)).
Defined.

Section MeetingRecordFacts.

Variable parseStringPromise : string -> result jsval.

Lemma truthy_or v d : truthy d = true -> truthy (or v d) = true.
Proof. intros Hd. unfold or. destruct (truthy v) eqn:E; assumption. Qed.

Lemma flatMeetingRecord_title x y :
  flatMeetingRecord x = Ok y ->
  Spec.field y "meetinglocation" = JStr EmptyString
  /\ truthy (Spec.field y "meetingtitle") = true.
Proof.
  intros H. unfold flatMeetingRecord, getOr in H.
  destruct x; simpl in H; try discriminate H; injection H as <-;
    (split; [reflexivity |]); cbn [Spec.field lookupField String.eqb];
    simpl; try reflexivity; apply truthy_or; reflexivity.
Qed.

Lemma nestedMeetingRecord_title c x y :
  nestedMeetingRecord c x = Ok y ->
  Spec.field y "meetinglocation" = JStr EmptyString
  /\ truthy (Spec.field y "meetingtitle") = true.
Proof.
  intros H. unfold nestedMeetingRecord, getOr in H.
  destruct x; simpl in H; try discriminate H;
    destruct c; simpl in H; try discriminate H; injection H as <-;
    (split; [reflexivity |]); simpl; try reflexivity;
    apply truthy_or; reflexivity.
Qed.

(** Whatever the server sends, a meeting that the meetings normalizer
    returns has an empty location and a title that is not empty: the
    title is the status of the meeting, or [Council Meeting]. *)
Theorem meetings_have_title_and_no_location
  (xmlData : string) (records : list jsval) :
  parseMeetingsResponse parseStringPromise xmlData = Ok records ->
  Forall (fun record =>
            Spec.field record "meetinglocation" = JStr EmptyString
            /\ truthy (Spec.field record "meetingtitle") = true)
    records.
Proof.
  intros H. apply tryCatch_Ok in H.
  destruct (rejectMeetingsBody xmlData); [discriminate H |].
  unfold parseMeetingShapes, parseByDateShape in H.
  repeat match type of H with
    | bind ?r _ = Ok _ =>
        let E := fresh "E" in
        destruct r eqn:E; cbn [bind] in H; [| discriminate H]
    | (if ?b then _ else _) = Ok _ => destruct b
    | match ?v with JUndefined => _ | _ => _ end = Ok _ => destruct v
    end;
    first [ injection H as <-; constructor
          | eapply mapM_Forall; [| exact H]; exact flatMeetingRecord_title
          | eapply mapM_Forall; [| exact H];
            intros x y; apply nestedMeetingRecord_title ].
Qed.

(** The wards normalizer takes the wards from whichever of its three
    root elements is there: the same wards under any of the three names
    give the same collection. *)
Theorem wards_root_names
  (wards : jsval) (xmlData : string)
  (byWard byWardId byPostcode : string -> result jsval) :
  byWard xmlData = Ok (JObj [("councillorsbyward", wards)]) ->
  byWardId xmlData = Ok (JObj [("councillorsbywardid", wards)]) ->
  byPostcode xmlData = Ok (JObj [("councillorsbypostcode", wards)]) ->
  parseCouncillorsResponse byWardId xmlData
  = parseCouncillorsResponse byWard xmlData
  /\ parseCouncillorsResponse byPostcode xmlData
     = parseCouncillorsResponse byWard xmlData.
Proof.
  intros H1 H2 H3. unfold parseCouncillorsResponse.
  rewrite H1, H2, H3. cbn [get bind].
  change (lookupField "councillorsbyward" [("councillorsbyward", wards)])
    with wards.
  change (lookupField "councillorsbyward" [("councillorsbywardid", wards)])
    with JUndefined.
  change (lookupField "councillorsbyward"
            [("councillorsbypostcode", wards)]) with JUndefined.
  change (lookupField "councillorsbywardid"
            [("councillorsbywardid", wards)]) with wards.
  change (lookupField "councillorsbywardid"
            [("councillorsbypostcode", wards)]) with JUndefined.
  change (lookupField "councillorsbypostcode"
            [("councillorsbypostcode", wards)]) with wards.
  cbn [truthy bind].
  destruct (truthy wards) eqn:E; cbn [bind]; rewrite ?E; split; reflexivity.
Qed.

End MeetingRecordFacts.

(** The theorems at sample trees. *)
Lemma meetings_have_title_and_no_location_witness :
  Forall (fun record =>
            Spec.field record "meetinglocation" = JStr EmptyString
            /\ truthy (Spec.field record "meetingtitle") = true)
    [JObj [("meetingid", JStr "9");
           ("meetingtitle", JStr "Council Meeting");
           ("meetingdate", JStr EmptyString);
           ("meetingtime", JStr EmptyString);
           ("meetinglocation", JStr EmptyString);
           ("committeeid", JStr EmptyString);
           ("committeetitle", JStr EmptyString)]].
Proof.
  apply (meetings_have_title_and_no_location
           (fun _ => Ok (Spec.container Spec.Meetings
                           (JObj [("meetingid", JStr "9");
                                  ("meetinglocation", JStr "Town Hall")])))
           "<getmeetingsbydate/>").
  reflexivity.
Defined.

Lemma wards_root_names_witness :
  parseCouncillorsResponse
    (fun _ => Ok (JObj [("councillorsbypostcode",
                         JObj [("wards",
                                JObj [("ward",
                                       JObj [("wardtitle",
                                              JStr "Abbey")])])])]))
    "<councillorsbypostcode/>"
  = parseCouncillorsResponse
      (fun _ => Ok (JObj [("councillorsbyward",
                           JObj [("wards",
                                  JObj [("ward",
                                         JObj [("wardtitle",
                                                JStr "Abbey")])])])]))
      "<councillorsbypostcode/>".
Proof.
  apply (proj2 (wards_root_names
                  (JObj [("wards",
                          JObj [("ward",
                                 JObj [("wardtitle", JStr "Abbey")])])])
                  "<councillorsbypostcode/>"
                  _ (fun _ => Ok (JObj [("councillorsbywardid", _)])) _
                  eq_refl eq_refl eq_refl)).
Defined.

(** ** More on the endpoint resolver *)

Section EndpointFacts.
Local Arguments String.append s1 s2 : simpl nomatch.

Lemma prefix_append_more (p a b : string) :
  String.prefix p a = true -> String.prefix p (a ++ b) = true.
Proof.
  revert a. induction p as [| c p IH]; intros a H.
  - destruct (a ++ b); reflexivity.
  - destruct a as [| d a]; [discriminate H |].
    change (String d a ++ b) with (String d (a ++ b)).
    cbn [String.prefix] in *.
    destruct (ascii_dec c d); [apply IH, H | discriminate H].
Qed.

Lemma includes_append_l (a b sub : string) :
  includes a sub = true -> includes (a ++ b) sub = true.
Proof.
  induction a as [| c a IH]; intros H.
  - rewrite includes_unfold in H. rewrite orb_false_r in H.
    rewrite includes_unfold, (prefix_append_more _ _ _ H). reflexivity.
  - rewrite includes_cons in H.
    change (String c a ++ b) with (String c (a ++ b)).
    rewrite includes_cons.
    apply orb_true_iff in H as [H | H].
    + change (String c (a ++ b)) with (String c a ++ b).
      rewrite (prefix_append_more _ _ _ H). reflexivity.
    + rewrite (IH H). apply orb_true_r.
Qed.

Lemma includes_append_r (a b sub : string) :
  includes b sub = true -> includes (a ++ b) sub = true.
Proof.
  intros H. induction a as [| c a IH]; [exact H |].
  change (String c a ++ b) with (String c (a ++ b)).
  rewrite includes_cons, IH. apply orb_true_r.
Qed.

Lemma endsWith_append (a b : string) : endsWith (a ++ b) b = true.
Proof.
  induction a as [| c a IH].
  - change (EmptyString ++ b) with b.
    rewrite endsWith_unfold, String.eqb_refl. reflexivity.
  - change (String c a ++ b) with (String c (a ++ b)).
    rewrite endsWith_unfold, IH. apply orb_true_r.
Qed.

(** Whatever the site URL, the resolved endpoint contains the service
    script and ends with a slash and the name of the operation. *)
Theorem getEndpointUrl_shape (siteUrl operation : string) :
  includes (getEndpointUrl siteUrl operation) "/mgWebService.asmx" = true
  /\ endsWith (getEndpointUrl siteUrl operation) ("/" ++ operation) = true.
Proof.
  unfold getEndpointUrl.
  set (baseUrl := stripTrailingSlash (replace siteUrl "?WSDL" EmptyString)).
  split; [| apply endsWith_append].
  apply includes_append_l.
  destruct (includes baseUrl "/mgWebService.asmx") eqn:E; cbn [negb];
    [exact E |].
  assert (Hscript : forall front,
             includes (front ++ "/mgWebService.asmx") "/mgWebService.asmx"
             = true).
  { intros front. apply includes_append_r. reflexivity. }
  destruct (endsWith baseUrl "/democracy" || endsWith baseUrl "/democracy/").
  - change "/democracy/mgWebService.asmx"
      with ("/democracy" ++ "/mgWebService.asmx").
    rewrite <- append_assoc. apply Hscript.
  - destruct (Nat.eqb _ 2); rewrite <- append_assoc; apply Hscript.
Qed.

Lemma includes_char_append (u : string) :
  includes u "?" = false -> includes (u ++ "/") "?" = false.
Proof.
  induction u as [| c u IH]; intros H; [reflexivity |].
  apply includes_char_cons in H as [Hc Hu].
  change (String c u ++ "/") with (String c (u ++ "/")).
  rewrite includes_cons, (prefix_other_head _ _ _ _ Hc), (IH Hu).
  reflexivity.
Qed.

Lemma replace_without_query (u : string) :
  includes u "?" = false -> replace u "?WSDL" EmptyString = u.
Proof.
  induction u as [| c u IH]; intros H; [reflexivity |].
  apply includes_char_cons in H as [Hc Hu].
  cbn [replace]. rewrite (prefix_other_head _ _ _ _ Hc), (IH Hu).
  reflexivity.
Qed.

Lemma stripTrailingSlash_without (u : string) :
  endsWith u "/" = false -> stripTrailingSlash u = u.
Proof.
  induction u as [| c u IH]; intros H; [reflexivity |].
  rewrite endsWith_unfold in H. apply orb_false_iff in H as [H1 H2].
  cbn [stripTrailingSlash]. rewrite H1, (IH H2). reflexivity.
Qed.

(** A site URL without a query that does not end in a slash resolves
    to the same endpoint with a trailing slash, with the [?WSDL] of the
    service description, and with both. *)
Theorem getEndpointUrl_same_site (u operation : string) :
  includes u "?" = false ->
  endsWith u "/" = false ->
  getEndpointUrl (u ++ "/") operation = getEndpointUrl u operation
  /\ getEndpointUrl (u ++ "?WSDL") operation = getEndpointUrl u operation
  /\ getEndpointUrl (u ++ "/?WSDL") operation = getEndpointUrl u operation.
Proof.
  intros Hquery Hslash.
  assert (Hbase : forall siteUrl,
             stripTrailingSlash (replace siteUrl "?WSDL" EmptyString) = u ->
             getEndpointUrl siteUrl operation = getEndpointUrl u operation).
  { intros siteUrl H. unfold getEndpointUrl.
    rewrite H, (replace_without_query _ Hquery),
      (stripTrailingSlash_without _ Hslash). reflexivity. }
  split; [| split]; apply Hbase.
  - rewrite (replace_without_query _ (includes_char_append _ Hquery)).
    apply stripTrailingSlash_append.
  - rewrite (replace_trailing_wsdl _ Hquery).
    apply stripTrailingSlash_without, Hslash.
  - change (u ++ "/?WSDL") with (u ++ "/" ++ "?WSDL").
    rewrite <- append_assoc.
    rewrite (replace_trailing_wsdl _ (includes_char_append _ Hquery)).
    apply stripTrailingSlash_append.
Qed.

End EndpointFacts.

(** The theorem for the Lichfield site. *)
Lemma getEndpointUrl_same_site_witness :
  getEndpointUrl "https://democracy.lichfielddc.gov.uk/mgWebService.asmx?WSDL"
    "GetCommittees"
  = getEndpointUrl "https://democracy.lichfielddc.gov.uk/mgWebService.asmx"
      "GetCommittees".
Proof.
  apply (proj1 (proj2 (getEndpointUrl_same_site
                         "https://democracy.lichfielddc.gov.uk/mgWebService.asmx"
                         "GetCommittees" eq_refl eq_refl))).
Defined.

(** ** Letter case, and the single meeting *)

Section CaseFacts.

Variable levenshtein : option (string -> string -> nat).

Lemma lowerChar_idempotent (c : ascii) : lowerChar (lowerChar c) = lowerChar c.
Proof.
  destruct c as [[] [] [] [] [] [] [] []]; reflexivity.
Qed.

Lemma toLowerCase_idempotent (s : string) :
  toLowerCase (toLowerCase s) = toLowerCase s.
Proof.
  induction s as [| c s IH]; [reflexivity |].
  cbn [toLowerCase]. rewrite lowerChar_idempotent, IH. reflexivity.
Qed.

(** The outcome of [calculateSimilarity], a score or an error, does not
    depend on the letter case of the query or of the council name: two
    pairs of names that differ in case only have the same outcome, and
    a pair has the outcome of its lower-case form. *)
Theorem calculateSimilarity_ignores_case :
  (forall query query' councilName councilName' : string,
      toLowerCase query = toLowerCase query' ->
      toLowerCase councilName = toLowerCase councilName' ->
      calculateSimilarity levenshtein query councilName
      = calculateSimilarity levenshtein query' councilName')
  /\ (forall query councilName : string,
         calculateSimilarity levenshtein query councilName
         = calculateSimilarity levenshtein (toLowerCase query)
             (toLowerCase councilName)).
Proof.
  assert (H : forall query query' councilName councilName' : string,
             toLowerCase query = toLowerCase query' ->
             toLowerCase councilName = toLowerCase councilName' ->
             calculateSimilarity levenshtein query councilName
             = calculateSimilarity levenshtein query' councilName').
  { intros query query' councilName councilName' Hq Hc.
    unfold calculateSimilarity. rewrite Hq, Hc. reflexivity. }
  split; [exact H |].
  intros query councilName. apply H; symmetry; apply toLowerCase_idempotent.
Qed.

End CaseFacts.

(** The theorem for two spellings of a query and of a council name, with
    the import undefined: both score 0.9. *)
Lemma calculateSimilarity_ignores_case_witness :
  calculateSimilarity None "LEEDS" "Leeds City Council"
  = calculateSimilarity None "leeds" "LEEDS CITY COUNCIL".
Proof.
  apply (proj1 (calculateSimilarity_ignores_case None));
    reflexivity.
Defined.

Section SingleMeetingFacts.

Variable newURL : string -> option URL.
Variable parseStringPromise : string -> result jsval.
Variable server : Request -> result Response.





End SingleMeetingFacts.

